(** * sms-gateway: a shallow embedding of the modem response parser, the
  application state, the modem send loop and the inbox scheduler, with
  theorems about them. *)

From Stdlib Require Import ZArith List String Ascii Bool Lia Sorting.Sorted.
Import ListNotations.
Open Scope string_scope.

(** ** Go integers *)

Module GoInt.
Local Open Scope Z_scope.
(** Two's complement wrap-around of a 64-bit [int]/[int64]. *)
Definition wrap64 (z : Z) : Z :=
  Z.modulo (z + 2 ^ 63) (2 ^ 64) - 2 ^ 63.

Definition in_range64 (z : Z) : Prop := - 2 ^ 63 <= z < 2 ^ 63.
End GoInt.

(** ** Package [modem]: the response parser (parser.go) *)

Module ModemParser.

Definition CR : ascii := "013"%char.
Definition LF : ascii := "010"%char.
Definition crlf : string := String CR (String LF EmptyString).

(** [CharResult]: a byte, a read timeout or an I/O error. *)
Inductive CharResult :=
| CRByte (c : ascii)
| CRTimeout
| CRErr.

(** The four package-level [*expectedString] objects. *)
Inductive expectedString :=
| startingNewline
| okMsg
| errorMsg
| terminatingNewline.

Definition expectedString_eqb (a b : expectedString) : bool :=
  match a, b with
  | startingNewline, startingNewline
  | okMsg, okMsg
  | errorMsg, errorMsg
  | terminatingNewline, terminatingNewline => true
  | _, _ => false
  end.

Definition expected (e : expectedString) : string :=
  match e with
  | startingNewline => crlf
  | okMsg => "OK"
  | errorMsg => "ERROR"
  | terminatingNewline => crlf
  end.

Definition next (e : expectedString) : list expectedString :=
  match e with
  | startingNewline => [okMsg; errorMsg]
  | okMsg => [terminatingNewline]
  | errorMsg => [terminatingNewline]
  | terminatingNewline => []
  end.

(** The [currentIndex] fields of the four package-level objects.  They
    live in the package, not in a [responseMatcher], so they are shared
    by every call of [parseModemResponse]. *)
Record globals := mkGlobals {
  ix_sn : nat;
  ix_ok : nat;
  ix_err : nat;
  ix_tn : nat
}.

(** Values at program start: every [currentIndex] is 0. *)
Definition initial_globals : globals := mkGlobals 0 0 0 0.

Definition currentIndex (g : globals) (e : expectedString) : nat :=
  match e with
  | startingNewline => ix_sn g
  | okMsg => ix_ok g
  | errorMsg => ix_err g
  | terminatingNewline => ix_tn g
  end.

Definition setCurrentIndex (g : globals) (e : expectedString) (n : nat)
  : globals :=
  match e with
  | startingNewline => mkGlobals n (ix_ok g) (ix_err g) (ix_tn g)
  | okMsg => mkGlobals (ix_sn g) n (ix_err g) (ix_tn g)
  | errorMsg => mkGlobals (ix_sn g) (ix_ok g) n (ix_tn g)
  | terminatingNewline => mkGlobals (ix_sn g) (ix_ok g) (ix_err g) n
  end.

(** [responseMatcher]; [currentlyMatching = None] is Go's [nil]. *)
Record responseMatcher := mkMatcher {
  matched : list expectedString;
  currentlyMatching : option expectedString;
  buffer : string;
  lines : list string
}.

Definition emptyMatcher : responseMatcher := mkMatcher [] None "" [].

Definition resetStateMachine (r : responseMatcher) : responseMatcher :=
  mkMatcher [] (Some startingNewline) (buffer r) (lines r).

Definition wasMatched (r : responseMatcher) (e : expectedString) : bool :=
  existsb (expectedString_eqb e) (matched r).

Inductive parseState :=
| PARSE_STATE_MATCH_DONE
| PARSE_STATE_MATCH_FAILED
| PARSE_STATE_MATCH_CONTINUE.

(** The candidate loop of [tryMatch]: the first candidate whose first
    expected byte is [data].  [None] is a Go run-time panic (index 0 of
    an empty slice), [Some None] means no candidate matched. *)
Fixpoint pickCandidate (cands : list expectedString) (data : ascii)
  : option (option expectedString) :=
  match cands with
  | [] => Some None
  | c :: cs =>
      match String.get 0 (expected c) with
      | None => None
      | Some b => if Ascii.eqb b data then Some (Some c)
                  else pickCandidate cs data
      end
  end.

(** [tryMatch]; [None] is a Go run-time panic (nil dereference or index
    out of range). *)
Definition tryMatch (g : globals) (r : responseMatcher) (data : ascii)
  : option (parseState * globals * responseMatcher) :=
  match currentlyMatching r with
  | None => None
  | Some cur =>
      let idx := currentIndex g cur in
      if Nat.eqb idx (String.length (expected cur)) then
        match pickCandidate (next cur) data with
        | None => None
        | Some None => Some (PARSE_STATE_MATCH_FAILED, g, r)
        | Some (Some cand) =>
            let g' := setCurrentIndex g cand 1 in
            let r' := mkMatcher (matched r) (Some cand) (buffer r) (lines r) in
            if Nat.eqb (String.length (expected cand)) 1
               && Nat.eqb (List.length (next cand)) 0
            then Some (PARSE_STATE_MATCH_DONE, g', r')
            else Some (PARSE_STATE_MATCH_CONTINUE, g', r')
        end
      else
        match String.get idx (expected cur) with
        | None => None
        | Some b =>
            if Ascii.eqb b data then
              let g' := setCurrentIndex g cur (S idx) in
              if Nat.eqb (S idx) (String.length (expected cur)) then
                let r' := mkMatcher (matched r ++ [cur]) (Some cur)
                                    (buffer r) (lines r) in
                if Nat.eqb (List.length (next cur)) 0
                then Some (PARSE_STATE_MATCH_DONE, g', r')
                else Some (PARSE_STATE_MATCH_CONTINUE, g', r')
              else Some (PARSE_STATE_MATCH_CONTINUE, g', r)
            else
              Some (PARSE_STATE_MATCH_FAILED, g,
                    mkMatcher (matched r) None (buffer r) (lines r))
        end
  end.

(** [strings.TrimSpace(line)] is empty exactly when [line] is a sequence
    of UTF-8 encoded [unicode.IsSpace] runes: ASCII \t \n \v \f \r and
    space, U+0085, U+00A0, U+1680, U+2000..U+200A, U+2028, U+2029,
    U+202F, U+205F and U+3000.  A byte that does not start such an
    encoding (including invalid UTF-8) is not space. *)
Definition byte_of (a : ascii) : nat := Ascii.nat_of_ascii a.

Fixpoint isBlank (s : string) : bool :=
  match s with
  | EmptyString => true
  | String a rest =>
      let b := byte_of a in
      if (Nat.leb 9 b) && (Nat.leb b 13) || (Nat.eqb b 32) then isBlank rest
      else if Nat.eqb b 194 then
        match rest with
        | String a1 rest1 =>
            let b1 := byte_of a1 in
            if (Nat.eqb b1 133) || (Nat.eqb b1 160) then isBlank rest1 else false
        | EmptyString => false
        end
      else if (Nat.eqb b 225) || (Nat.eqb b 226) || (Nat.eqb b 227) then
        match rest with
        | String a1 (String a2 rest2) =>
            let b1 := byte_of a1 in
            let b2 := byte_of a2 in
            let sp :=
              if Nat.eqb b 225 then (Nat.eqb b1 154) && (Nat.eqb b2 128)
              else if Nat.eqb b 227 then (Nat.eqb b1 128) && (Nat.eqb b2 128)
              else ((Nat.eqb b1 128) && ((Nat.leb b2 138) && (Nat.leb 128 b2)
                                    || (Nat.eqb b2 168) || (Nat.eqb b2 169)
                                    || (Nat.eqb b2 175)))
                   || ((Nat.eqb b1 129) && (Nat.eqb b2 159)) in
            if sp then isBlank rest2 else false
        | _ => false
        end
      else false
  end.

(** [lineFeedRegEx.Split(s, -1)] with the pattern "\r\n": the pieces
    between the leftmost non-overlapping occurrences of CR LF. *)
Definition consHead (c : ascii) (l : list string) : list string :=
  match l with
  | [] => [String c EmptyString]
  | x :: xs => String c x :: xs
  end.

Fixpoint splitCrlf (s : string) : list string :=
  match s with
  | EmptyString => [EmptyString]
  | String c s' =>
      if Ascii.eqb c CR then
        match s' with
        | String d s'' =>
            if Ascii.eqb d LF then EmptyString :: splitCrlf s''
            else consHead c (splitCrlf s')
        | EmptyString => [String c EmptyString]
        end
      else consHead c (splitCrlf s')
  end.

Definition flushCharBuffer (r : responseMatcher) : responseMatcher :=
  if Nat.ltb 0 (String.length (buffer r)) then
    mkMatcher (matched r) (currentlyMatching r) EmptyString
      (lines r ++ filter (fun l => negb (isBlank l)) (splitCrlf (buffer r)))
  else r.

Definition writeByte (r : responseMatcher) (c : ascii) : responseMatcher :=
  mkMatcher (matched r) (currentlyMatching r)
    (buffer r ++ String c EmptyString) (lines r).

(** [strings.Contains]. *)
Fixpoint contains (s sub : string) : bool :=
  String.prefix sub s ||
  match s with
  | EmptyString => false
  | String _ s' => contains s' sub
  end.

Definition lastLine (r : responseMatcher) : string :=
  last (lines r) EmptyString.

(** What a call of [parseModemResponse] ends in.  The character provider
    is a finite list of results after which the serial port only times
    out; on such an all-timeout tail the loop with
    [requiresOkOrError = true] runs [continue] forever ([Diverges]). *)
Inductive outcome :=
| Lines (l : list string)
| IoError
| RuntimePanic
| Diverges.

Definition finish (g : globals) (r : responseMatcher) (rest : list CharResult)
  : outcome * globals * list CharResult :=
  (Lines (lines (flushCharBuffer r)), g, rest).

(** The [for] loop of [parseModemResponse]; returns the outcome, the
    package-level indices afterwards, and the unread characters. *)
Fixpoint parseLoop (requiresOkOrError : bool) (g : globals)
  (r : responseMatcher) (input : list CharResult)
  : outcome * globals * list CharResult :=
  match input with
  | [] => if requiresOkOrError then (Diverges, g, []) else finish g r []
  | CRErr :: rest => (IoError, g, rest)
  | CRTimeout :: rest =>
      if requiresOkOrError then parseLoop requiresOkOrError g r rest
      else finish g r rest
  | CRByte c :: rest =>
      match tryMatch g r c with
      | None => (RuntimePanic, g, rest)
      | Some (PARSE_STATE_MATCH_DONE, g', r') =>
          let r1 := writeByte r' c in
          if wasMatched r1 okMsg || wasMatched r1 errorMsg then
            finish g' r1 rest
          else
            let r2 := flushCharBuffer r1 in
            if negb (Nat.eqb (List.length (lines r2)) 0)
               && contains (lastLine r2) "ERROR"
            then finish g' r2 rest
            else parseLoop requiresOkOrError g' (resetStateMachine r2) rest
      | Some (PARSE_STATE_MATCH_CONTINUE, g', r') =>
          let r1 :=
            match currentlyMatching r' with
            | Some startingNewline =>
                if Nat.eqb (ix_sn g') 1 then flushCharBuffer r' else r'
            | _ => r'
            end in
          parseLoop requiresOkOrError g' (writeByte r1 c) rest
      | Some (PARSE_STATE_MATCH_FAILED, g', r') =>
          parseLoop requiresOkOrError g' (resetStateMachine (writeByte r' c)) rest
      end
  end.

Definition parseModemResponse (g : globals) (input : list CharResult)
  (requiresOkOrError : bool) : outcome * globals * list CharResult :=
  parseLoop requiresOkOrError g (resetStateMachine emptyMatcher) input.

(** Helpers to build inputs. *)
Fixpoint bytes (s : string) : list CharResult :=
  match s with
  | EmptyString => []
  | String c s' => CRByte c :: bytes s'
  end.





Definition result (o : outcome * globals * list CharResult) : outcome :=
  fst (fst o).

End ModemParser.

(** ** Package [message] *)

Module Message.
Local Open Scope Z_scope.

(** [MessageId] is an [int64]. *)
Definition MessageId := Z.

Definition NextId (id : MessageId) : MessageId := GoInt.wrap64 (id + 1).

Definition FirstMessageId : MessageId := 1.

(** [MessageId.Compare]: the body of [if id < other] is empty, so that
    case falls through to [return 0]. *)
Definition Compare (id other : MessageId) : Z :=
  if other <? id then 1 else 0.

Record Message := mkMessage {
  Id : MessageId;
  AbsPath : string;
  FileName : string;
  CreationTimestamp : Z
}.

(** The decimal digits of [n > 0] put in front of [acc]; a number below
    [2^fuel] has at most [fuel] digits. *)
Fixpoint posDigits (fuel : nat) (n : Z) (acc : string) : string :=
  match fuel with
  | O => acc
  | S f =>
      if n <=? 0 then acc
      else posDigits f (n / 10) (String (ascii_of_nat (48 + Z.to_nat (n mod 10))) acc)
  end.

(** [strconv.FormatInt(x, 10)]. *)
Definition FormatInt (x : Z) : string :=
  if x =? 0 then "0"
  else if x <? 0 then "-" ++ posDigits (S (Z.to_nat (Z.log2 (- x)))) (- x) ""
  else posDigits (S (Z.to_nat (Z.log2 x))) x "".

(** [MessageId.String]. *)
Definition MessageId_String (id : MessageId) : string := FormatInt id.

(** [Message.ToFileName]; [CreationTimestamp] holds [CreationTimestamp.Unix()]. *)
Definition ToFileName (m : Message) : string :=
  MessageId_String (Id m) ++ "_" ++ FormatInt (CreationTimestamp m).
End Message.

(** ** Package [util]: time intervals and rate limits *)

Module Util.
Local Open Scope Z_scope.

Inductive TimeUnit := Seconds | Minutes | Hours | Days | Weeks.

Record TimeInterval := mkInterval { Value : Z; Unit : TimeUnit }.

(** [ToSeconds]: [Value * factor] on Go's 64-bit [int]. *)
Definition ToSeconds (iv : TimeInterval) : Z :=
  let factor :=
    match Unit iv with
    | Seconds => 1
    | Minutes => 60
    | Hours => 60 * 60
    | Days => 60 * 60 * 24
    | Weeks => 60 * 60 * 24 * 7
    end in
  GoInt.wrap64 (Value iv * factor).

Definition Compare (iv other : TimeInterval) : Z :=
  let a := ToSeconds iv in
  let b := ToSeconds other in
  if a <? b then -1 else if b <? a then 1 else 0.

Definition IsGreaterThan (iv other : TimeInterval) : bool :=
  0 <? Compare iv other.

Record RateLimit := mkRateLimit { Threshold : Z; Interval : TimeInterval }.

Definition IsThresholdExceeded (r : RateLimit) (value : Z) : bool :=
  Threshold r <? value.

(** [IsShorterThan] on an elapsed time of whole seconds:
    [float64(iv.ToSeconds()) < elapsed.Seconds()], which compares the
    integers exactly while they stay below 2^53. *)
Definition IsShorterThan (iv : TimeInterval) (elapsedSeconds : Z) : bool :=
  ToSeconds iv <? elapsedSeconds.
End Util.

(** ** Package [config]: the getters the core uses *)

Module Config.
Record Config := mkConfig {
  GetRateLimit1 : option Util.RateLimit;
  GetRateLimit2 : option Util.RateLimit;
  IsDropOnRateLimit : bool;
  GetSmsRecipients : list string;
  GetSimPin : string;
  GetModemInitCmds : list string;
  (** [IsSet(DEBUG_FLAG_MODEM_ALWAYS_SUCCEED)] and [..._ALWAYS_FAIL] *)
  DebugModemAlwaysSucceed : bool;
  DebugModemAlwaysFail : bool
}.
End Config.

(** ** Package [state] (state.go).  [time.Now().Unix()] is the argument
  [now]; persistence ([WriteState]) does not change the in-memory state
  and is not modelled. *)

Module State.
Import Util Config.
Local Open Scope Z_scope.

Record internalState := mkState {
  Timestamps : list Z;
  LastSuccessfulMessageId : option Message.MessageId;
  PendingMessageIds : list Message.MessageId;
  NextMessageId : Message.MessageId;
  LastKeepAliveMsgEnqueued : option Z
}.

(** The loop of [countSms], run over the timestamps from the last one
    backwards ([newestFirst] is the reversed slice). *)
Fixpoint countFromEnd (now maxTs : Z) (newestFirst : list Z) : Z :=
  match newestFirst with
  | [] => 0
  | t :: rest =>
      let ageInSeconds := GoInt.wrap64 (now - t) in
      if maxTs <? ageInSeconds then 0 else 1 + countFromEnd now maxTs rest
  end.

Definition countSms (c : internalState) (now : Z) (iv : TimeInterval) : Z :=
  countFromEnd now (ToSeconds iv) (rev (Timestamps c)).

(** [IsAnyRateLimitExceeded]; each [countSms] reads the clock, [now1]
    for rate limit 1 and [now2] for rate limit 2. *)
Definition IsAnyRateLimitExceeded (cfg : Config) (c : internalState)
  (now1 now2 : Z) : bool :=
  match Timestamps c with
  | [] => false
  | _ =>
      let ex1 :=
        match GetRateLimit1 cfg with
        | Some rl => IsThresholdExceeded rl (countSms c now1 (Interval rl))
        | None => false
        end in
      if ex1 then true
      else
        match GetRateLimit2 cfg with
        | Some rl => IsThresholdExceeded rl (countSms c now2 (Interval rl))
        | None => false
        end
  end.

Definition WasSentAlready (c : internalState) (msgId : Message.MessageId) : bool :=
  if existsb (Z.eqb msgId) (PendingMessageIds c) then false
  else
    match LastSuccessfulMessageId c with
    | Some last => Message.Compare msgId last <=? 0
    | None => false
    end.

Definition NewMessageId (c : internalState) : Message.MessageId * internalState :=
  (NextMessageId c,
   mkState (Timestamps c) (LastSuccessfulMessageId c)
     (PendingMessageIds c ++ [NextMessageId c])%list
     (Message.NextId (NextMessageId c)) (LastKeepAliveMsgEnqueued c)).

(** [deletePendingMessageId]: removes the first occurrence only. *)
Fixpoint deletePendingMessageId (msgId : Message.MessageId) (l : list Message.MessageId)
  : list Message.MessageId :=
  match l with
  | [] => []
  | id :: rest => if Z.eqb id msgId then rest else id :: deletePendingMessageId msgId rest
  end.

(** The [cutOffTimestamp] computed by [RememberSmsSend]; -1 when no rate
    limit is configured. *)
Definition cutOffTimestamp (cfg : Config) (now : Z) : Z :=
  match GetRateLimit1 cfg, GetRateLimit2 cfg with
  | Some r1, Some r2 =>
      if IsGreaterThan (Interval r1) (Interval r2)
      then GoInt.wrap64 (now - ToSeconds (Interval r1))
      else GoInt.wrap64 (now - ToSeconds (Interval r2))
  | Some r1, None => GoInt.wrap64 (now - ToSeconds (Interval r1))
  | None, Some r2 => GoInt.wrap64 (now - ToSeconds (Interval r2))
  | None, None => -1
  end.

(** The first index [i] met by [for i := len-1; i >= 0; i--] with
    [Timestamps[i] < cutOffTimestamp], i.e. the largest such index. *)
Fixpoint lastIndexBelow (cutoff : Z) (l : list Z) : option nat :=
  match l with
  | [] => None
  | t :: rest =>
      match lastIndexBelow cutoff rest with
      | Some j => Some (S j)
      | None => if t <? cutoff then Some O else None
      end
  end.

(** The trim: [Timestamps = Timestamps[:len - (i+1)]]. *)
Definition trimTimestamps (cutoff : Z) (l : list Z) : list Z :=
  match lastIndexBelow cutoff l with
  | Some i => firstn (List.length l - (i + 1))%nat l
  | None => l
  end.

(** [RememberSmsSend]; [None] is the panic on a message ID that is not
    newer than the last successful one. *)
Definition RememberSmsSend (cfg : Config) (now : Z) (c : internalState)
  (msgId : Message.MessageId) : option internalState :=
  let panics :=
    match LastSuccessfulMessageId c with
    | Some last => Message.Compare msgId last <=? 0
    | None => false
    end in
  if panics then None
  else
    let pending := deletePendingMessageId msgId (PendingMessageIds c) in
    let ts := (Timestamps c ++ [now])%list in
    let cutoff := cutOffTimestamp cfg now in
    let ts' := if Z.eqb cutoff (-1) then ts else trimTimestamps cutoff ts in
    Some (mkState ts' (Some msgId) pending (NextMessageId c)
            (LastKeepAliveMsgEnqueued c)).

(** [DiscardMessageId]. *)
Definition DiscardMessageId (c : internalState) (msgId : Message.MessageId) : internalState :=
  mkState (Timestamps c) (LastSuccessfulMessageId c)
    (deletePendingMessageId msgId (PendingMessageIds c))
    (NextMessageId c) (LastKeepAliveMsgEnqueued c).

(** [GetLastSuccessfulSendTimestamp]: the last element of [Timestamps]. *)
Definition GetLastSuccessfulSendTimestamp (c : internalState) : option Z :=
  match rev (Timestamps c) with
  | [] => None
  | t :: _ => Some t
  end.

Definition SetLastKeepAliveMessageEnqueued (c : internalState) (ts : Z) : internalState :=
  mkState (Timestamps c) (LastSuccessfulMessageId c) (PendingMessageIds c)
    (NextMessageId c) (Some ts).

(** The spec's trim window: the longer of the configured rate-limit
    intervals, in seconds. *)
Definition maxIntervalSeconds (cfg : Config) : option Z :=
  match GetRateLimit1 cfg, GetRateLimit2 cfg with
  | Some r1, Some r2 => Some (Z.max (ToSeconds (Interval r1)) (ToSeconds (Interval r2)))
  | Some r1, None => Some (ToSeconds (Interval r1))
  | None, Some r2 => Some (ToSeconds (Interval r2))
  | None, None => None
  end.

(** The spec's count: entries with [now - ts <= interval]. *)
Definition countWithin (c : internalState) (now : Z) (iv : TimeInterval) : nat :=
  List.length (filter (fun t => now - t <=? ToSeconds iv) (Timestamps c)).
End State.

(** ** Package [modem]: sending an SMS (modem.go)

  The program's effects run in a state monad over [world]: the
  package-level [appState] and [serialPort], and the serial line.  One
  call of [internalSendBytes] is one exchange with the modem: the
  environment decides, per call and in order, how it ends
  ([exchanges]); the response lines of a successful exchange stand for
  what [parseModemResponse] returned on the port's bytes.  [tx] records
  every byte string handed to [serialPort.Write], [opens] the outcome of
  opening the port and setting its read timeout at successive
  [initModem] calls, and [clock i] the value of the [i]-th call of
  [time.Now().Unix()]. *)

Module Modem.
Import Util Config State.

Inductive exchange :=
| XResetErr (e : string)     (** [ResetInputBuffer] fails: nothing written *)
| XWriteErr (e : string)     (** [Write] fails *)
| XShortWrite                (** [Write] comes up short *)
| XDrainErr (e : string)     (** [Drain] fails *)
| XReadErr (e : string)      (** [parseModemResponse] returns an error *)
| XLines (l : list string)   (** [parseModemResponse] returns [l] *)
| XStuck.                    (** [parseModemResponse] never returns *)

Record world := mkWorld {
  appState : internalState;
  serialPortOpen : bool;
  opens : list bool;
  exchanges : list exchange;
  tx : list string;
  clock : nat -> Z;
  reads : nat
}.

Definition withPort (b : bool) (w : world) : world :=
  mkWorld (appState w) b (opens w) (exchanges w) (tx w) (clock w) (reads w).
Definition withOpens (o : list bool) (w : world) : world :=
  mkWorld (appState w) (serialPortOpen w) o (exchanges w) (tx w) (clock w) (reads w).
Definition withExchanges (x : list exchange) (w : world) : world :=
  mkWorld (appState w) (serialPortOpen w) (opens w) x (tx w) (clock w) (reads w).
Definition addTx (bytes : string) (w : world) : world :=
  mkWorld (appState w) (serialPortOpen w) (opens w) (exchanges w)
    (tx w ++ [bytes])%list (clock w) (reads w).
Definition withReads (n : nat) (w : world) : world :=
  mkWorld (appState w) (serialPortOpen w) (opens w) (exchanges w) (tx w) (clock w) n.

(** A computation either returns or aborts: a Go panic, or a call that
    never returns. *)
Inductive abort := Panic | Hang.

Inductive res (A : Type) := Ret (a : A) | Abort (x : abort).
Arguments Ret {A} a.
Arguments Abort {A} x.

Definition M (A : Type) := world -> res A * world.

Definition ret {A} (a : A) : M A := fun w => (Ret a, w).

Definition bind {A B} (m : M A) (k : A -> M B) : M B :=
  fun w =>
    match m w with
    | (Ret a, w1) => k a w1
    | (Abort x, w1) => (Abort x, w1)
    end.

Notation "x <- m ;; k" := (bind m (fun x => k))
  (at level 61, m at next level, right associativity).
Notation "m ;;; k" := (bind m (fun _ => k))
  (at level 61, right associativity).

Definition panic {A} : M A := fun w => (Abort Panic, w).

(** [time.Now().Unix()]. *)
Definition nowM : M Z := fun w => (Ret (clock w (reads w)), withReads (S (reads w)) w).

Definition dq : string := String (ascii_of_nat 34) EmptyString.
Definition ctrlZ : string := String (ascii_of_nat 26) EmptyString.
Definition crString : string := String ModemParser.CR EmptyString.
Definition nl : string := String ModemParser.LF EmptyString.

(** Length in bytes of the [unicode.IsSpace] rune at the head of [s]
    (0 when there is none). *)
Definition wsLen (s : string) : nat :=
  let byte_of := ModemParser.byte_of in
  match s with
  | EmptyString => 0
  | String a rest =>
      let b := byte_of a in
      if (Nat.leb 9 b) && (Nat.leb b 13) || (Nat.eqb b 32) then 1
      else if Nat.eqb b 194 then
        match rest with
        | String a1 _ =>
            let b1 := byte_of a1 in
            if (Nat.eqb b1 133) || (Nat.eqb b1 160) then 2 else 0
        | EmptyString => 0
        end
      else if (Nat.eqb b 225) || (Nat.eqb b 226) || (Nat.eqb b 227) then
        match rest with
        | String a1 (String a2 _) =>
            let b1 := byte_of a1 in
            let b2 := byte_of a2 in
            let sp :=
              if Nat.eqb b 225 then (Nat.eqb b1 154) && (Nat.eqb b2 128)
              else if Nat.eqb b 227 then (Nat.eqb b1 128) && (Nat.eqb b2 128)
              else ((Nat.eqb b1 128) && ((Nat.leb b2 138) && (Nat.leb 128 b2)
                                    || (Nat.eqb b2 168) || (Nat.eqb b2 169)
                                    || (Nat.eqb b2 175)))
                   || ((Nat.eqb b1 129) && (Nat.eqb b2 159)) in
            if sp then 3 else 0
        | _ => 0
        end
      else 0
  end.

Definition dropBytes (k : nat) (s : string) : string :=
  substring k (String.length s - k) s.

Fixpoint trimLeftSpace (fuel : nat) (s : string) : string :=
  match fuel with
  | O => s
  | S f =>
      match wsLen s with
      | O => s
      | k => trimLeftSpace f (dropBytes k s)
      end
  end.

Fixpoint trimRightSpace (fuel : nat) (s : string) : string :=
  match fuel with
  | O => s
  | S f =>
      match s with
      | EmptyString => EmptyString
      | String a rest =>
          match wsLen s with
          | O => String a (trimRightSpace f rest)
          | k =>
              let t := trimRightSpace f (dropBytes k s) in
              if String.eqb t EmptyString then EmptyString
              else substring 0 k s ++ t
          end
      end
  end.

(** [strings.TrimSpace]. *)
Definition TrimSpace (s : string) : string :=
  trimRightSpace (String.length s) (trimLeftSpace (String.length s) s).

(** [cmd[len(cmd)-1]]. *)
Definition lastByte (s : string) : option ascii :=
  match String.length s with
  | O => None
  | S n => String.get n s
  end.

Definition endsWithCR (s : string) : bool :=
  match lastByte s with
  | Some c => Ascii.eqb c ModemParser.CR
  | None => false
  end.

(** [ModemResponse]: its [Lines]. *)
Definition respString (lines : list string) : string := String.concat nl lines.

Definition isOK (lines : list string) : bool :=
  existsb (String.eqb "OK") lines.

Definition isError (lines : list string) : bool := negb (isOK lines).

Definition IsEmpty (lines : list string) : bool := Nat.eqb (List.length lines) 0.

Fixpoint getLineByPrefix (lines : list string) (prefix : string) : option string :=
  match lines with
  | [] => None
  | line :: rest =>
      let trimmed := TrimSpace line in
      if String.prefix prefix trimmed then Some trimmed
      else getLineByPrefix rest prefix
  end.

Definition isUpper (a : ascii) : bool :=
  Nat.leb 65 (nat_of_ascii a) && Nat.leb (nat_of_ascii a) 90.

Fixpoint upperRun (s : string) : string :=
  match s with
  | String a rest => if isUpper a then String a (upperRun rest) else EmptyString
  | EmptyString => EmptyString
  end.

(** [getResponseLineFor]: the group of [^AT\+([A-Z]+).*$] prefixed by
    "+"; a command that does not match panics ([None]). *)
Definition getResponseLineFor (lines : list string) (fullAtCmd : string)
  : option (option string) :=
  if String.prefix "AT+" fullAtCmd then
    let name := upperRun (dropBytes 3 fullAtCmd) in
    if String.eqb name EmptyString then None
    else Some (getLineByPrefix lines ("+" ++ name))
  else None.

Definition internalClose : M unit := fun w => (Ret tt, withPort false w).

Definition Close : M unit := internalClose.

(** [internalSendBytes]: [(lines, err)]; [requiresOkOrError] only
    steers the parser, whose result the exchange stands for.  The port
    is dereferenced: a closed port panics. *)
Definition internalSendBytes (bytes : string) (requiresOkOrError : bool)
  : M (list string * option string) :=
  fun w =>
    if negb (serialPortOpen w) then (Abort Panic, w)
    else
      let '(x, rest) :=
        match exchanges w with
        | [] => (XReadErr "EOF", [])
        | x :: rest => (x, rest)
        end in
      let w1 := withExchanges rest w in
      match x with
      | XResetErr e => (Ret ([], Some e), w1)
      | XWriteErr e => (Ret ([], Some e), addTx bytes w1)
      | XShortWrite => (Ret ([], None), addTx bytes w1)
      | XDrainErr e => (Ret ([], Some e), addTx bytes w1)
      | XReadErr e => (Ret ([], Some e), addTx bytes w1)
      | XLines l => (Ret (l, None), addTx bytes w1)
      | XStuck => (Abort Hang, addTx bytes w1)
      end.

Definition sendBytes (bytes : string) (requiresOkOrError : bool)
  : M (list string * option string) :=
  r <- internalSendBytes bytes requiresOkOrError ;;
  match snd r with
  | Some _ => internalClose ;;; ret r
  | None => ret r
  end.

Definition sendCmd (cmd : string) (requiresOkOrError : bool)
  : M (list string * option string) :=
  fun w =>
    if negb (serialPortOpen w) then (Abort Panic, w)
    else
      (if String.eqb (TrimSpace cmd) EmptyString then
         ret ([], Some "Command string cannot be blank or empty")
       else
         let cmd' := if endsWithCR cmd then cmd else cmd ++ crString in
         r <- sendBytes cmd' requiresOkOrError ;;
         match snd r with
         | Some e => ret ([], Some ("Failed to send bytes - " ++ e))
         | None => ret (fst r, None)
         end) w.

Inductive ModemPinState :=
| MODEM_PIN_NOT_REQUIRED
| MODEM_PIN_REQUIRED
| MODEM_PIN_PUK_REQUIRED
| MODEM_PIN_SERIAL_ERROR
| MODEM_PIN_RESPONSE_NOT_RECOGNIZED.

Definition queryPinState : M (ModemPinState * option string) :=
  r <- sendCmd "AT+CPIN?" false ;;
  match snd r with
  | Some e => ret (MODEM_PIN_SERIAL_ERROR, Some e)
  | None =>
      let lines := fst r in
      match getResponseLineFor lines "AT+CPIN" with
      | None => panic
      | Some (Some line) =>
          if ModemParser.contains line "READY" then ret (MODEM_PIN_NOT_REQUIRED, None)
          else if ModemParser.contains line "SIM PIN" then ret (MODEM_PIN_REQUIRED, None)
          else if String.prefix "SIM PUK" line then ret (MODEM_PIN_PUK_REQUIRED, None)
          else ret (MODEM_PIN_RESPONSE_NOT_RECOGNIZED,
                    Some ("Modem sent unexpected response to AT+CPIN?: " ++ respString lines))
      | Some None =>
          match getLineByPrefix lines "+CME ERROR" with
          | Some _ =>
              ret (MODEM_PIN_RESPONSE_NOT_RECOGNIZED,
                   Some ("Modem sent an error in reply to AT+CPIN?:  " ++ respString lines))
          | None =>
              ret (MODEM_PIN_RESPONSE_NOT_RECOGNIZED,
                   Some ("Modem sent unexpected response to AT+CPIN?: " ++ respString lines))
          end
      end
  end.

Definition sendPin (pin : string) : M (option string) :=
  r <- sendCmd ("AT+CPIN=" ++ dq ++ pin ++ dq) true ;;
  match snd r with
  | Some e => ret (Some ("Failed to send PIN to modem: " ++ e))
  | None =>
      if isError (fst r) then
        ret (Some ("Unlocking PIN returned error response: " ++ respString (fst r)))
      else ret None
  end.

Definition unlockSim (cfg : Config) : M (option string) :=
  p <- queryPinState ;;
  match snd p with
  | Some e => ret (Some e)
  | None =>
      match fst p with
      | MODEM_PIN_NOT_REQUIRED => ret None
      | MODEM_PIN_REQUIRED => sendPin (GetSimPin cfg)
      | MODEM_PIN_PUK_REQUIRED =>
          ret (Some ("Modem requires PUK, please unlock SIM card manually using AT+CPIN="
                     ++ dq ++ "<pin>" ++ dq))
      | MODEM_PIN_SERIAL_ERROR =>
          ret (Some "Unlocking SIM card failed due to a serial error")
      | MODEM_PIN_RESPONSE_NOT_RECOGNIZED =>
          ret (Some "Not sure whether SIM card unlocking succeeded, unexpected response to AT command.")
      end
  end.

Definition switchToPlainText : M (option string) :=
  r <- sendCmd "AT+CMGF=1" true ;;
  match snd r with
  | Some e => ret (Some e)
  | None =>
      if isError (fst r) then
        ret (Some ("Failed to switch modem to plain-text mode: " ++ respString (fst r)))
      else ret None
  end.

(** [serial.Open] and [SetReadTimeout]; on success [serialPort] is set. *)
Definition openPort : M bool :=
  fun w =>
    match opens w with
    | [] => (Ret false, w)
    | ok :: rest => (Ret ok, withPort ok (withOpens rest w))
    end.

(** The loop over [GetModemInitCmds]; [cleanUp] closes the port. *)
Fixpoint runInitCmds (cmds : list string) : M (option string) :=
  match cmds with
  | [] => ret None
  | cmd :: rest =>
      r <- sendCmd cmd false ;;
      match snd r with
      | Some e => internalClose ;;; ret (Some e)
      | None =>
          if isError (fst r) then
            internalClose ;;;
            ret (Some ("Running modem initialization cmd " ++ cmd
                       ++ " returned an error: " ++ respString (fst r)))
          else runInitCmds rest
      end
  end.

Definition initModem (cfg : Config) : M (option string) :=
  if DebugModemAlwaysFail cfg || DebugModemAlwaysSucceed cfg then ret None
  else
    ok <- openPort ;;
    if ok then runInitCmds (GetModemInitCmds cfg)
    else ret (Some "failed to open serial port").

Definition needsInit : M bool := fun w => (Ret (negb (serialPortOpen w)), w).

Inductive FailureReason :=
| MODEM_ERR_NONE
| MODEM_ERR_RATE_LIMIT_EXCEEDED
| MODEM_ERR_MODEM_ERROR.

Definition FailureReason_eqb (a b : FailureReason) : bool :=
  match a, b with
  | MODEM_ERR_NONE, MODEM_ERR_NONE
  | MODEM_ERR_RATE_LIMIT_EXCEEDED, MODEM_ERR_RATE_LIMIT_EXCEEDED
  | MODEM_ERR_MODEM_ERROR, MODEM_ERR_MODEM_ERROR => true
  | _, _ => false
  end.

Definition FailureReason_String (f : FailureReason) : string :=
  match f with
  | MODEM_ERR_NONE => "MODEM_ERR_NONE"
  | MODEM_ERR_RATE_LIMIT_EXCEEDED => "MODEM_ERR_RATE_LIMIT_EXCEEDED"
  | MODEM_ERR_MODEM_ERROR => "MODEM_ERR_MODEM_ERROR"
  end.

Record SendResult := mkSendResult {
  Success : bool;
  Reason : FailureReason;
  Details : string
}.

Definition getState : M internalState := fun w => (Ret (appState w), w).

(** [appState.IsAnyRateLimitExceeded()]: each [countSms] reads the clock. *)
Definition IsAnyRateLimitExceededM (cfg : Config) : M bool :=
  c <- getState ;;
  match Timestamps c with
  | [] => ret false
  | _ =>
      ex1 <- match GetRateLimit1 cfg with
             | Some rl => now <- nowM ;; ret (IsThresholdExceeded rl (countSms c now (Interval rl)))
             | None => ret false
             end ;;
      if ex1 then ret true
      else
        match GetRateLimit2 cfg with
        | Some rl => now <- nowM ;; ret (IsThresholdExceeded rl (countSms c now (Interval rl)))
        | None => ret false
        end
  end.

(** The [for] loop of [internalSendSms] over the recipients. *)
Fixpoint sendToRecipients (cfg : Config) (message : string) (recipients : list string)
  : M SendResult :=
  match recipients with
  | [] => ret (mkSendResult true MODEM_ERR_NONE "success")
  | recipient :: rest =>
      ex <- IsAnyRateLimitExceededM cfg ;;
      if ex then ret (mkSendResult false MODEM_ERR_RATE_LIMIT_EXCEEDED "Rate limit exceeded")
      else
        response <- sendCmd ("AT+CMGS=" ++ dq ++ recipient ++ dq) false ;;
        match snd response with
        | Some e => ret (mkSendResult false MODEM_ERR_MODEM_ERROR e)
        | None =>
            (* response.IsEmpty() || response.Size() != 1 || response.Lines[0] != "> " *)
            if IsEmpty (fst response) || negb (Nat.eqb (List.length (fst response)) 1)
               || negb (String.eqb (hd EmptyString (fst response)) "> ") then
              ret (mkSendResult false MODEM_ERR_MODEM_ERROR
                     "Unrecognized modem response, expected '>'")
            else
              responseLines <- sendBytes (message ++ ctrlZ) true ;;
              match snd responseLines with
              | Some e => ret (mkSendResult false MODEM_ERR_MODEM_ERROR e)
              | None =>
                  if negb (isOK (fst responseLines)) then
                    ret (mkSendResult false MODEM_ERR_MODEM_ERROR (respString (fst responseLines)))
                  else sendToRecipients cfg message rest
              end
        end
  end.

Definition internalSendSms (cfg : Config) (message : string) : M SendResult :=
  if DebugModemAlwaysSucceed cfg then
    ret (mkSendResult true MODEM_ERR_NONE "fake success (debug mode)")
  else if DebugModemAlwaysFail cfg then
    ret (mkSendResult false MODEM_ERR_MODEM_ERROR "fake modem failure (debug mode)")
  else
    ni <- needsInit ;;
    e <- (if ni then initModem cfg else ret None) ;;
    match e with
    | Some e => ret (mkSendResult false MODEM_ERR_MODEM_ERROR e)
    | None =>
        e <- unlockSim cfg ;;
        match e with
        | Some e => ret (mkSendResult false MODEM_ERR_MODEM_ERROR e)
        | None =>
            e <- switchToPlainText ;;
            match e with
            | Some e => ret (mkSendResult false MODEM_ERR_MODEM_ERROR e)
            | None => sendToRecipients cfg message (GetSmsRecipients cfg)
            end
        end
    end.

Definition SendSms (cfg : Config) (message : string) : M SendResult :=
  result <- internalSendSms cfg message ;;
  if negb (Success result) && FailureReason_eqb (Reason result) MODEM_ERR_MODEM_ERROR then
    Close ;;; ret result
  else ret result.

(** The rate-limit check made at the [r]-th clock read on state [c]. *)
Definition checkAt (cfg : Config) (c : internalState) (clk : nat -> Z) (r : nat) : bool :=
  IsAnyRateLimitExceeded cfg c (clk r)
    (clk (r + match GetRateLimit1 cfg with Some _ => 1 | None => 0 end)%nat).

End Modem.

(** ** [message.MsgFromFileName] and package [deliveryfailure] *)

Module Delivery.
Import Message.
Local Open Scope Z_scope.

Definition isDigit (a : ascii) : bool :=
  Nat.leb 48 (nat_of_ascii a) && Nat.leb (nat_of_ascii a) 57.

(** The longest prefix of decimal digits, and the rest. *)
Fixpoint digitsPrefix (s : string) : string * string :=
  match s with
  | String a rest =>
      if isDigit a then let '(d, r) := digitsPrefix rest in (String a d, r)
      else (EmptyString, s)
  | EmptyString => (EmptyString, EmptyString)
  end.

Fixpoint decimalValue (acc : Z) (s : string) : Z :=
  match s with
  | String a rest => decimalValue (acc * 10 + (Z.of_nat (nat_of_ascii a) - 48)) rest
  | EmptyString => acc
  end.

(** [strconv.ParseInt(digits, 10, 64)] on a string of digits. *)
Definition ParseInt (digits : string) : option Z :=
  let v := decimalValue 0 digits in
  if v <? 2 ^ 63 then Some v else None.

(** [filepath.Base]: the part after the last '/'. *)
Fixpoint Base (s : string) : string :=
  match s with
  | EmptyString => EmptyString
  | String a rest =>
      match String.index 0 "/" rest with
      | Some _ => Base rest
      | None => if Ascii.eqb a "/"%char then rest else s
      end
  end.

(** The regular expression [^([0-9]+)_([0-9]+)]. *)
Definition matchFileName (fileName : string) : option (string * string) :=
  let '(d1, r1) := digitsPrefix fileName in
  match d1, r1 with
  | String _ _, String u r2 =>
      if Ascii.eqb u "_"%char then
        let '(d2, _) := digitsPrefix r2 in
        match d2 with
        | String _ _ => Some (d1, d2)
        | EmptyString => None
        end
      else None
  | _, _ => None
  end.

(** [MsgFromFileName]: the message, or the error text. *)
Definition MsgFromFileName (fullPath : string) : Message + string :=
  let fileName := Base fullPath in
  match matchFileName fileName with
  | None => inr ("Not a valid message filename: " ++ fileName)
  | Some (g1, g2) =>
      match ParseInt g1 with
      | None => inr ("Not a valid message filename (msg ID out of range): " ++ fileName)
      | Some msgId =>
          match ParseInt g2 with
          | None => inr ("Not a valid message filename (CreationTimestamp out of range): " ++ fileName)
          | Some ts => inl (mkMessage msgId fullPath fileName ts)
          end
      end
  end.

Record DeliveryFailure := mkFailure {
  FailureCount : Z;
  LastFailureTimestamp : Z
}.

(** The package-level map [failures], as an association list. *)
Definition failureMap := list (MessageId * DeliveryFailure).

Fixpoint lookupFailure (m : failureMap) (msgId : MessageId) : option DeliveryFailure :=
  match m with
  | [] => None
  | (k, f) :: rest => if Z.eqb k msgId then Some f else lookupFailure rest msgId
  end.

Fixpoint deleteFailure (m : failureMap) (msgId : MessageId) : failureMap :=
  match m with
  | [] => []
  | (k, f) :: rest =>
      if Z.eqb k msgId then deleteFailure rest msgId else (k, f) :: deleteFailure rest msgId
  end.

(** [IsDue] for a message with failures: the due date
    [LastFailureTimestamp + min(FailureCount, 10)^3] s is not after [now]. *)
Definition dueAt (f : DeliveryFailure) (now : Z) : bool :=
  let cnt := if 10 <? FailureCount f then 10 else FailureCount f in
  LastFailureTimestamp f + cnt ^ 3 <=? now.

(** [DeliveryFailed] at time [now]. *)
Definition failedAt (m : failureMap) (msgId : MessageId) (now : Z) : failureMap :=
  match lookupFailure m msgId with
  | Some f =>
      (msgId, mkFailure (FailureCount f + 1) now) :: deleteFailure m msgId
  | None => (msgId, mkFailure 1 now) :: m
  end.
End Delivery.

(** ** Package [restapi]: the delivery scheduler ([inboxWatcher])

  The program's effects run over [node]: the modem [world] (with the
  application state and the clock), the regular files of the inbox and
  sent directories as name/content lists, the failure map of package
  [deliveryfailure], and the answers of the operating system. *)

Module Scheduler.
Import Message Config State Modem Delivery.

Definition inboxDir : string := "inbox".
Definition sentDirName : string := "sent".

(** The answers of the operating system.  The program's file system
    calls are numbered in the order they are made, from [fsCalls] on:
    [fsErr k] is the error the [k]-th call returns, if any, and
    [fsCount k], for a [Write], bounds the number of bytes it writes
    ([None]: all of them).  [timeText r] is what [time.Time.String()]
    renders for the value of the [r]-th reading of the clock (with its
    zone, fraction of a second and monotonic reading). *)
Record osEnv := mkOs {
  fsErr : nat -> option string;
  fsCount : nat -> option nat;
  timeText : nat -> string;
  fsCalls : nat
}.

(** An operating system on which every file system call succeeds. *)
Definition noFaults : osEnv := mkOs (fun _ => None) (fun _ => None) (fun _ => "") 0.

Record node := mkNode {
  mw : world;
  inbox : list (string * string);
  sentFiles : list (string * string);
  failures : failureMap;
  env : osEnv
}.

Definition N (A : Type) := node -> res A * node.

Definition nret {A} (a : A) : N A := fun n => (Ret a, n).

Definition nbind {A B} (m : N A) (k : A -> N B) : N B :=
  fun n =>
    match m n with
    | (Ret a, n1) => k a n1
    | (Abort x, n1) => (Abort x, n1)
    end.

Notation "x <-- m ;; k" := (nbind m (fun x => k))
  (at level 61, m at next level, right associativity).
Notation "m ;;;; k" := (nbind m (fun _ => k))
  (at level 61, right associativity).

(** A computation of package [modem] (or of the state) run on [mw]. *)
Definition lift {A} (m : M A) : N A :=
  fun n => let '(r, w') := m (mw n) in
           (r, mkNode w' (inbox n) (sentFiles n) (failures n) (env n)).

Definition withFiles (ib sf : list (string * string)) (n : node) : node :=
  mkNode (mw n) ib sf (failures n) (env n).

Definition withFailures (f : failureMap) (n : node) : node :=
  mkNode (mw n) (inbox n) (sentFiles n) f (env n).

Definition withCalls (k : nat) (e : osEnv) : osEnv :=
  mkOs (fsErr e) (fsCount e) (timeText e) k.

(** One file system call: the error the operating system gives it. *)
Definition fsCall : N (option string) :=
  fun n => (Ret (fsErr (env n) (fsCalls (env n))),
            mkNode (mw n) (inbox n) (sentFiles n) (failures n)
              (withCalls (S (fsCalls (env n))) (env n))).

Fixpoint lookupFile (d : list (string * string)) (name : string) : option string :=
  match d with
  | [] => None
  | (k, c) :: rest => if String.eqb k name then Some c else lookupFile rest name
  end.

Fixpoint removeFile (d : list (string * string)) (name : string) : list (string * string) :=
  match d with
  | [] => []
  | (k, c) :: rest =>
      if String.eqb k name then removeFile rest name else (k, c) :: removeFile rest name
  end.

Fixpoint insertName (name : string) (l : list string) : list string :=
  match l with
  | [] => [name]
  | x :: rest => if String.leb name x then name :: l else x :: insertName name rest
  end.

(** [os.ReadDir] returns the entries sorted by file name. *)
Definition sortNames (l : list string) : list string := fold_right insertName [] l.

Definition inboxPath (name : string) : string := inboxDir ++ "/" ++ name.

(** [listFilesInInbox]: the paths in [os.ReadDir] order, or its error. *)
Definition listFilesInInbox : N (list string + string) :=
  err <-- fsCall ;;
  match err with
  | Some e => nret (inr e)
  | None => fun n => (Ret (inl (map inboxPath (sortNames (map fst (inbox n))))), n)
  end.

(** [common.ReadFile] of an inbox file: [os.Open], then [io.ReadAll]
    (the error of the deferred [Close] is dropped). *)
Definition readInboxFile (name : string) : N (string + string) :=
  e1 <-- fsCall ;;
  fun n =>
    match lookupFile (inbox n) name with
    | None => (Ret (inr ("open " ++ inboxPath name ++ ": no such file or directory")), n)
    | Some c =>
        match e1 with
        | Some e => (Ret (inr e), n)
        | None =>
            (e2 <-- fsCall ;;
             match e2 with
             | Some e => nret (inr e)
             | None => nret (inl c)
             end) n
        end
    end.

(** [os.Remove] of an inbox file; on an error (only logged) the file
    stays. *)
Definition removeInboxFile (name : string) : N unit :=
  e <-- fsCall ;;
  fun n =>
    match e, lookupFile (inbox n) name with
    | None, Some _ => (Ret tt, withFiles (removeFile (inbox n) name) (sentFiles n) n)
    | _, _ => (Ret tt, n)
    end.

(** [os.Rename] of an inbox file into the sent directory, replacing a
    file of that name there; on an error (only logged: a missing source,
    or one the operating system reports) the file stays in the inbox. *)
Definition renameToSent (name : string) : N unit :=
  e <-- fsCall ;;
  fun n =>
    match e, lookupFile (inbox n) name with
    | None, Some c =>
        (Ret tt, withFiles (removeFile (inbox n) name)
                   ((name, c) :: removeFile (sentFiles n) name) n)
    | _, _ => (Ret tt, n)
    end.

Definition IsDue (msgId : MessageId) : N bool :=
  fun n =>
    match lookupFailure (failures n) msgId with
    | None => (Ret true, n)
    | Some f => lift (now <- nowM ;; ret (dueAt f now)) n
    end.

Definition DeliveryFailed (msgId : MessageId) : N unit :=
  now <-- lift nowM ;;
  fun n => (Ret tt, withFailures (failedAt (failures n) msgId now) n).

Definition DeliverySuccessful (msgId : MessageId) : N unit :=
  fun n => (Ret tt, withFailures (deleteFailure (failures n) msgId) n).

(** Modelled from the spec: [DeliveryAborted] is not among the
    repository's files; the spec's [abort(id)] removes the entry. *)
Definition DeliveryAborted (msgId : MessageId) : N unit :=
  fun n => (Ret tt, withFailures (deleteFailure (failures n) msgId) n).

Definition npanic {A} : N A := fun n => (Abort Panic, n).

Definition getAppState : N internalState := fun n => (Ret (appState (mw n)), n).

Definition setAppState (c : internalState) : N unit :=
  fun n =>
    let w := mw n in
    (Ret tt, mkNode (mkWorld c (serialPortOpen w) (opens w) (exchanges w) (tx w)
                       (clock w) (reads w))
               (inbox n) (sentFiles n) (failures n) (env n)).

(** [appState.RememberSmsSend] of the message: panics on a non-increasing ID. *)
Definition RememberSmsSendM (cfg : Config) (msgId : MessageId) : N unit :=
  c <-- getAppState ;;
  now <-- lift nowM ;;
  match RememberSmsSend cfg now c msgId with
  | None => npanic
  | Some c' => setAppState c'
  end.

(** [sendMessage]: [(rateLimitExceeded, err)].  [msg.AbsPath] is the
    inbox file [msg.FileName]. *)
Definition sendMessage (cfg : Config) (msg : Message) : N (bool * option string) :=
  c <-- getAppState ;;
  early <-- (if negb (WasSentAlready c (Id msg)) then
               rawBytes <-- readInboxFile (FileName msg) ;;
               match rawBytes with
               | inr err => nret (Some (false, Some err))
               | inl bytes =>
                   if Nat.eqb (String.length bytes) 0 then
                     removeInboxFile (FileName msg) ;;;; nret (Some (false, None))
                   else
                     result <-- lift (SendSms cfg bytes) ;;
                     if negb (Success result) then
                       if FailureReason_eqb (Reason result) MODEM_ERR_RATE_LIMIT_EXCEEDED then
                         (if IsDropOnRateLimit cfg then removeInboxFile (FileName msg)
                          else nret tt) ;;;;
                         nret (Some (true, Some "Rate limit exceeded"))
                       else
                         nret (Some (false, Some ("Failed to send SMS: " ++ FailureReason_String (Reason result)
                                                ++ ", details: " ++ Details result)))
                     else
                       RememberSmsSendM cfg (Id msg) ;;;; nret None
               end
             else nret None) ;;
  match early with
  | Some r => nret r
  | None => renameToSent (FileName msg) ;;;; nret (false, None)
  end.

(** One iteration of the loop over the inbox files in [inboxWatcher]. *)
Definition processFile (cfg : Config) (absPath : string) : N unit :=
  match MsgFromFileName absPath with
  | inr _ => nret tt
  | inl msg =>
      due <-- IsDue (Id msg) ;;
      if due then
        r <-- sendMessage cfg msg ;;
        match snd r with
        | Some _ =>
            if fst r && IsDropOnRateLimit cfg then DeliveryAborted (Id msg)
            else DeliveryFailed (Id msg)
        | None => DeliverySuccessful (Id msg)
        end
      else nret tt
  end.

Fixpoint processFiles (cfg : Config) (files : list string) : N unit :=
  match files with
  | [] => nret tt
  | absPath :: rest => processFile cfg absPath ;;;; processFiles cfg rest
  end.

(** One tick of [inboxWatcher]: the files in [os.ReadDir] order; a tick
    whose listing fails does nothing. *)
Definition inboxTick (cfg : Config) : N unit :=
  files <-- listFilesInInbox ;;
  match files with
  | inl paths => processFiles cfg paths
  | inr _ => nret tt
  end.

(** The SMS bodies written to the serial port: the chunks ending in
    CTRL-Z, without it. *)
Fixpoint bodiesSent (chunks : list string) : list string :=
  match chunks with
  | [] => []
  | c :: rest =>
      match lastByte c with
      | Some z =>
          if Ascii.eqb z (ascii_of_nat 26) then
            substring 0 (String.length c - 1) c :: bodiesSent rest
          else bodiesSent rest
      | None => bodiesSent rest
      end
  end.

End Scheduler.

(** ** Package [msgqueue]: [StoreMessage]; package [restapi]: the
  [/sendsms] handler. *)

Module MsgQueue.
Import Message Config State Modem Scheduler.

(** [time.Now()]: the clock reading and its [String()] rendering. *)
Definition timeNow : N (Z * string) :=
  fun n =>
    let r := reads (mw n) in
    (Ret (clock (mw n) r, timeText (env n) r),
     mkNode (withReads (S r) (mw n)) (inbox n) (sentFiles n) (failures n) (env n)).

(** [os.Create] of an inbox file: created, or truncated, empty. *)
Definition createInboxFile (name : string) : N (option string) :=
  e <-- fsCall ;;
  match e with
  | Some err => nret (Some err)
  | None => fun n => (Ret None, withFiles ((name, "") :: removeFile (inbox n) name) (sentFiles n) n)
  end.

(** [file.Write] of [content] to the inbox file just created empty: the
    number of bytes written and the error; the bytes written stay in the
    file even when the call reports an error. *)
Definition writeInboxFile (name content : string) : N (nat * option string) :=
  fun n =>
    let k := fsCalls (env n) in
    let written := match fsCount (env n) k with
                   | Some m => substring 0 m content
                   | None => content
                   end in
    (Ret (String.length written, fsErr (env n) k),
     mkNode (mw n) ((name, written) :: removeFile (inbox n) name) (sentFiles n) (failures n)
       (withCalls (S k) (env n))).

(** [file.Close]. *)
Definition closeFile : N (option string) := fsCall.

(** [os.Rename] within the inbox, replacing a file of the target name. *)
Definition renameInInbox (src dst : string) : N (option string) :=
  e <-- fsCall ;;
  fun n =>
    match lookupFile (inbox n) src with
    | None => (Ret (Some ("rename " ++ inboxPath src ++ " " ++ inboxPath dst
                          ++ ": no such file or directory")), n)
    | Some c =>
        match e with
        | Some err => (Ret (Some err), n)
        | None =>
            (Ret None, withFiles ((dst, c) :: removeFile (removeFile (inbox n) src) dst)
                         (sentFiles n) n)
        end
    end.

(** [Message.String()], the creation time given by its rendering. *)
Definition Message_String (id : MessageId) (creationText absPath : string) : string :=
  "msg_id. " ++ MessageId_String id ++ ", CreationTimestamp: " ++ creationText
  ++ ", File: " ++ absPath.

(** [StoreMessage]: [None] on success, or the error text. *)
Definition StoreMessage (id : MessageId) (text : string) : N (option string) :=
  creation <-- timeNow ;;
  let name := ToFileName (mkMessage id "" "" (fst creation)) in
  let absPath := inboxPath name in
  let tmpName := name ++ ".tmp" in
  let msgString := Message_String id (snd creation) absPath in
  e1 <-- createInboxFile tmpName ;;
  match e1 with
  | Some e => nret (Some ("Failed to create file " ++ msgString ++ " : " ++ e))
  | None =>
      wr <-- writeInboxFile tmpName text ;;
      match snd wr with
      | Some e => nret (Some ("Failed to write file " ++ msgString ++ " : " ++ e))
      | None =>
          if negb (Nat.eqb (fst wr) (String.length text)) then
            nret (Some ("Failed to write " ++ FormatInt (Z.of_nat (String.length text))
                        ++ " bytes to file " ++ msgString))
          else
            e3 <-- closeFile ;;
            match e3 with
            | Some e => nret (Some ("Failed to close file " ++ inboxPath tmpName ++ " : " ++ e))
            | None =>
                e4 <-- renameInInbox tmpName name ;;
                match e4 with
                | Some e => nret (Some ("Failed to rename file " ++ inboxPath tmpName ++ " -> "
                                        ++ absPath ++ " : " ++ e))
                | None => nret None
                end
            end
      end
  end.

(** [appState.NewMessageId()]. *)
Definition NewMessageIdM : N MessageId :=
  c <-- getAppState ;;
  let '(id, c') := NewMessageId c in
  setAppState c' ;;;; nret id.

(** The [/sendsms] handler [sendSms] on the request's [Message]: [None]
    when the message is accepted, or the error it aborts with. *)
Definition sendSms (text : string) : N (option string) :=
  if String.eqb (TrimSpace text) "" then nret (Some "SMS text cannot be empty or blank ")
  else
    msgId <-- NewMessageIdM ;;
    err <-- StoreMessage msgId text ;;
    match err with
    | Some e =>
        c <-- getAppState ;;
        setAppState (DiscardMessageId c msgId) ;;;;
        nret (Some ("Failed to store message for sending: " ++ e))
    | None => nret None
    end.
End MsgQueue.

(** ** Package [keepalive] *)

Module KeepAlive.
Import Util State Modem Scheduler MsgQueue.
Local Open Scope Z_scope.

(** One iteration of the loop of [keepAliveThread], for the configured
    [GetKeepAliveInterval] and [GetKeepAliveMessage]; [time.Now()] is
    read to the second.  [WriteState] is not modelled. *)
Definition keepAliveTick (iv : TimeInterval) (keepAliveMessage : string) : N unit :=
  c <-- getAppState ;;
  let ts1 := GetLastSuccessfulSendTimestamp c in
  let ts2 := LastKeepAliveMsgEnqueued c in
  let latestTimestamp :=
    match ts1, ts2 with
    | Some a, Some b => if b <? a then Some a else Some b
    | Some a, None => Some a
    | None, Some b => Some b
    | None, None => None
    end in
  match latestTimestamp with
  | None => nret tt
  | Some latest =>
      now <-- lift nowM ;;
      if IsShorterThan iv (now - latest) then
        msgId <-- NewMessageIdM ;;
        err <-- StoreMessage msgId keepAliveMessage ;;
        match err with
        | None =>
            t <-- lift nowM ;;
            c' <-- getAppState ;;
            setAppState (SetLastKeepAliveMessageEnqueued c' t)
        | Some _ => nret tt
        end
      else nret tt
  end.
End KeepAlive.

(** * Proofs *)

Module ParserProofs.
Import ModemParser.

Lemma string_app_assoc (a b c : string) : (a ++ b) ++ c = a ++ (b ++ c).
Proof. induction a as [|x a IH]; simpl; [reflexivity | now rewrite IH]. Qed.

Lemma string_app_nil_r (a : string) : a ++ "" = a.
Proof. induction a as [|x a IH]; simpl; [reflexivity | now rewrite IH]. Qed.




















End ParserProofs.

Module ParserClaims.
Import ModemParser ParserProofs.




(** C2 (code_bug): on the first call of the process, "ERROR CRLF test
    CRLF" followed only by timeouts, with [requiresOkOrError = true],
    never returns: the check for a line containing "ERROR" sits in the
    MATCH_DONE branch, which is reached only after an OK or ERROR
    sentinel, and the ERROR here is not preceded by CRLF. *)
Theorem C2_error_line_first_call_diverges :
  result (parseModemResponse initial_globals
            (bytes ("ERROR" ++ crlf ++ "test" ++ crlf)) true) = Diverges.
Proof. vm_compute. reflexivity. Qed.

(** C10 (code_bug): the [currentIndex] fields of the package-level
    sentinels survive a call.  After the call on "test CRLF OK CRLF",
    the same input "OK CRLF foo" (then timeouts, [requiresOkOrError =
    false]) yields ["OK"] instead of the ["OK"; "foo"] a first call
    returns. *)
Theorem C10_parser_state_leaks_across_calls :
  let g1 := snd (fst (parseModemResponse initial_globals
                        (bytes ("test" ++ crlf ++ "OK" ++ crlf)) true)) in
  let input := bytes ("OK" ++ crlf ++ "foo") in
  result (parseModemResponse initial_globals input false) = Lines ["OK"; "foo"]
  /\ result (parseModemResponse g1 input false) = Lines ["OK"].
Proof. vm_compute. split; reflexivity. Qed.

End ParserClaims.

Module StateProofs.
Import Util Config State.
Local Open Scope Z_scope.

Lemma wrap64_small (x : Z) : - 2 ^ 63 <= x < 2 ^ 63 -> GoInt.wrap64 x = x.
Proof.
  intros H. unfold GoInt.wrap64.
  rewrite Z.mod_small by lia. lia.
Qed.

Lemma deletePendingMessageId_not_in (msgId : Z) (l : list Z) :
  NoDup l -> ~ In msgId (deletePendingMessageId msgId l).
Proof.
  induction l as [|x l IH]; intros Hnd; simpl; [tauto|].
  inversion Hnd as [|? ? Hx Hnd']; subst.
  destruct (Z.eqb_spec x msgId) as [->|Hne]; [exact Hx|].
  intros [Heq|Hin]; [congruence | exact (IH Hnd' Hin)].
Qed.

Lemma deletePendingMessageId_not_in_once (msgId : Z) (l : list Z) :
  (count_occ Z.eq_dec l msgId <= 1)%nat -> ~ In msgId (deletePendingMessageId msgId l).
Proof.
  induction l as [|x l IH]; intros Hc; simpl; [tauto|].
  cbn [count_occ] in Hc.
  destruct (Z.eqb_spec x msgId) as [->|Hne].
  - destruct (Z.eq_dec msgId msgId) as [_|]; [|congruence].
    apply (count_occ_not_In Z.eq_dec). lia.
  - destruct (Z.eq_dec x msgId) as [|_]; [congruence|].
    intros [Heq|Hin]; [congruence | exact (IH Hc Hin)].
Qed.

Lemma Sorted_firstn (k : nat) (l : list Z) : Sorted Z.le l -> Sorted Z.le (firstn k l).
Proof.
  intros Hs. apply StronglySorted_Sorted.
  apply Sorted_StronglySorted in Hs; [|intros x y z; lia].
  revert k. induction Hs as [|a l Hs IH Ha]; intros [|k]; simpl; try constructor.
  - apply IH.
  - rewrite Forall_forall in Ha |- *. intros x Hx. apply Ha.
    rewrite <- (firstn_skipn k l). apply in_or_app. now left.
Qed.

Lemma lastIndexBelow_none (cutoff : Z) (l : list Z) :
  Forall (fun t => cutoff <= t) l -> lastIndexBelow cutoff l = None.
Proof.
  induction l as [|t l IH]; intros H; [reflexivity|].
  inversion H as [|? ? Ht Hl]; subst. simpl. rewrite (IH Hl).
  destruct (Z.ltb_spec t cutoff); [lia | reflexivity].
Qed.

Lemma RememberSmsSend_shape cfg now c msgId c' :
  RememberSmsSend cfg now c msgId = Some c' ->
  LastSuccessfulMessageId c' = Some msgId
  /\ PendingMessageIds c' = deletePendingMessageId msgId (PendingMessageIds c)
  /\ Timestamps c' =
       (if Z.eqb (cutOffTimestamp cfg now) (-1) then (Timestamps c ++ [now])%list
        else trimTimestamps (cutOffTimestamp cfg now) (Timestamps c ++ [now])%list).
Proof.
  unfold RememberSmsSend. intros H.
  destruct (match LastSuccessfulMessageId c with
            | Some last => Message.Compare msgId last <=? 0
            | None => false end); [discriminate|].
  injection H as <-. simpl. auto.
Qed.

Lemma RememberSmsSend_no_drop cfg now c msgId c' :
  RememberSmsSend cfg now c msgId = Some c' ->
  (cutOffTimestamp cfg now = -1
   \/ Forall (fun t => cutOffTimestamp cfg now <= t) (Timestamps c ++ [now])%list) ->
  Timestamps c' = (Timestamps c ++ [now])%list.
Proof.
  intros H Hcut. apply RememberSmsSend_shape in H as (_ & _ & ->).
  destruct (Z.eqb_spec (cutOffTimestamp cfg now) (-1)); [reflexivity|].
  destruct Hcut as [Hc|Hall]; [contradiction|].
  unfold trimTimestamps. now rewrite lastIndexBelow_none.
Qed.

(** The trim keeps the oldest entries: with a 1 h window, the entries
    [0; 5000] and the new one at 10000, the cutoff is 6400 and only the
    entry 0, older than the cutoff, remains. *)
Lemma RememberSmsSend_trim_keeps_prefix :
  let cfg := mkConfig (Some (mkRateLimit 5 (mkInterval 1 Hours))) None
               false [] "" [] false false in
  let c := mkState [0; 5000] (Some 1) [2] 3 None in
  option_map Timestamps (RememberSmsSend cfg 10000 c 2) = Some [0].
Proof. vm_compute. reflexivity. Qed.

Lemma StronglySorted_app' (R : Z -> Z -> Prop) (l1 l2 : list Z) :
  StronglySorted R l1 -> StronglySorted R l2 ->
  (forall x y, In x l1 -> In y l2 -> R x y) ->
  StronglySorted R (l1 ++ l2).
Proof.
  intros H1 H2 H. induction H1 as [|a l1 Hl1 IH Ha]; [exact H2|].
  simpl. constructor.
  - apply IH. intros x y Hx Hy. apply H; [right|]; assumption.
  - apply Forall_app. split; [exact Ha|].
    apply Forall_forall. intros y Hy. apply H; [left; reflexivity | exact Hy].
Qed.

Lemma countFromEnd_sorted (now m : Z) (d : list Z) :
  StronglySorted Z.ge d ->
  Forall (fun t => 0 <= t < 2 ^ 63) d -> 0 <= now < 2 ^ 63 ->
  countFromEnd now m d = Z.of_nat (List.length (filter (fun t => now - t <=? m) d)).
Proof.
  intros Hs Hr Hn. induction d as [|t d IH]; [reflexivity|].
  inversion Hs as [|? ? Hs' Hge]; subst.
  inversion Hr as [|? ? Ht Hr']; subst.
  cbn [countFromEnd filter]. rewrite wrap64_small by lia.
  destruct (Z.ltb_spec m (now - t)) as [Hlt|Hle].
  - assert (Hnone : filter (fun t0 => now - t0 <=? m) d = []).
    { clear - Hge Hlt. induction Hge as [|t' d Ht' Hge' IHd]; [reflexivity|].
      simpl. destruct (Z.leb_spec (now - t') m); [lia | exact IHd]. }
    destruct (Z.leb_spec (now - t) m); [lia|]. now rewrite Hnone.
  - destruct (Z.leb_spec (now - t) m); [|lia].
    rewrite IH by assumption. cbn [List.length]. lia.
Qed.

(** C3: [WasSentAlready id] holds exactly when [id] is not pending, a
    last successful ID exists and [id <= last]. *)
Theorem C3_WasSentAlready_iff (c : internalState) (msgId : Z) :
  WasSentAlready c msgId = true <->
  ~ In msgId (PendingMessageIds c)
  /\ exists last, LastSuccessfulMessageId c = Some last /\ msgId <= last.
Proof.
  unfold WasSentAlready, Message.Compare.
  destruct (existsb (Z.eqb msgId) (PendingMessageIds c)) eqn:E.
  - split; [discriminate|]. intros [Hn _]. exfalso. apply Hn.
    apply existsb_exists in E as [x [Hx Hex]]. apply Z.eqb_eq in Hex. now subst.
  - assert (Hn : ~ In msgId (PendingMessageIds c)).
    { intros Hin. assert (existsb (Z.eqb msgId) (PendingMessageIds c) = true).
      { apply existsb_exists. exists msgId. split; [exact Hin | apply Z.eqb_refl]. }
      congruence. }
    destruct (LastSuccessfulMessageId c) as [last|].
    + destruct (Z.ltb_spec last msgId); simpl.
      * split; [discriminate|]. intros [_ [l [Hl Hle]]]. injection Hl as <-. lia.
      * split; [intros _; split; [exact Hn | exists last; split; [reflexivity | lia]]|].
        reflexivity.
    + split; [discriminate|]. intros [_ [l [Hl _]]]. discriminate.
Qed.

(** C6 (counterexample): with no rate limit configured and the earlier
    entry 50, [RememberSmsSend] at 100 yields [50; 100]: the new
    timestamp is the last element, not the first. *)
Lemma C6_new_timestamp_is_appended :
  let cfg := mkConfig None None false [] "" [] false false in
  let c := mkState [50] (Some 6) [7] 8 None in
  match RememberSmsSend cfg 100 c 7 with
  | Some c' => Timestamps c' = [50; 100] /\ hd_error (Timestamps c') <> Some 100
  | None => False
  end.
Proof. vm_compute. split; [reflexivity | discriminate]. Qed.

(** C6 (amended): after a [RememberSmsSend] that does not panic, the last
    successful ID is the message's; the message ID is no longer pending
    when the pending list held it at most once; the new timestamp is
    appended at the end (newest last) whenever the trim drops nothing:
    no rate limit configured, or no entry older than the cutoff; and a
    list in ascending order (oldest first) with no entry after [now]
    stays in ascending order. *)
Theorem C6_RememberSmsSend_post (cfg : Config) (now : Z) (c c' : internalState)
  (msgId : Z) :
  RememberSmsSend cfg now c msgId = Some c' ->
  LastSuccessfulMessageId c' = Some msgId
  /\ ((count_occ Z.eq_dec (PendingMessageIds c) msgId <= 1)%nat ->
      ~ In msgId (PendingMessageIds c'))
  /\ ((cutOffTimestamp cfg now = -1
       \/ Forall (fun t => cutOffTimestamp cfg now <= t) (Timestamps c ++ [now])%list) ->
      Timestamps c' = (Timestamps c ++ [now])%list)
  /\ (Sorted Z.le (Timestamps c) -> Forall (fun t => t <= now) (Timestamps c) ->
      Sorted Z.le (Timestamps c')).
Proof.
  intros H. pose proof H as H'.
  apply RememberSmsSend_shape in H' as (Hl & Hp & Ht).
  split; [exact Hl|]. split; [|split].
  - intros Hc. rewrite Hp. now apply deletePendingMessageId_not_in_once.
  - exact (RememberSmsSend_no_drop _ _ _ _ _ H).
  - intros Hs Hle. rewrite Ht.
    assert (Happ : Sorted Z.le (Timestamps c ++ [now])%list).
    { apply StronglySorted_Sorted. apply StronglySorted_app'.
      - apply Sorted_StronglySorted; [intros x y z; lia | exact Hs].
      - repeat constructor.
      - intros x y Hx [<-|[]]. rewrite Forall_forall in Hle. exact (Hle x Hx). }
    destruct (Z.eqb (cutOffTimestamp cfg now) (-1)); [exact Happ|].
    unfold trimTimestamps.
    destruct (lastIndexBelow _ _); [apply Sorted_firstn; exact Happ | exact Happ].
Qed.

Lemma C6_RememberSmsSend_post_witness :
  let cfg := mkConfig (Some (mkRateLimit 5 (mkInterval 1 Hours))) None
               false [] "" [] false false in
  let c := mkState [7000; 9000] (Some 6) [7; 8] 9 None in
  exists c',
  RememberSmsSend cfg 10000 c 7 = Some c'
  /\ (LastSuccessfulMessageId c' = Some 7
      /\ ((count_occ Z.eq_dec (PendingMessageIds c) 7%Z <= 1)%nat ->
          ~ In 7 (PendingMessageIds c'))
      /\ ((cutOffTimestamp cfg 10000 = -1
           \/ Forall (fun t => cutOffTimestamp cfg 10000 <= t) (Timestamps c ++ [10000])%list) ->
          Timestamps c' = (Timestamps c ++ [10000])%list)
      /\ (Sorted Z.le (Timestamps c) -> Forall (fun t => t <= 10000) (Timestamps c) ->
          Sorted Z.le (Timestamps c'))).
Proof.
  intros cfg c.
  exists (mkState [7000; 9000; 10000] (Some 7) [8] 9 None).
  assert (H : RememberSmsSend cfg 10000 c 7
              = Some (mkState [7000; 9000; 10000] (Some 7) [8] 9 None))
    by (vm_compute; reflexivity).
  split; [exact H|].
  exact (C6_RememberSmsSend_post cfg 10000 c _ 7 H).
Defined.

(** C7 (counterexample): with no rate limit configured the list is not
    emptied; the earlier entry 10 and the new one are both kept. *)
Lemma C7_unconfigured_keeps_entries :
  let cfg := mkConfig None None false [] "" [] false false in
  let c := mkState [10] (Some 1) [2] 3 None in
  option_map Timestamps (RememberSmsSend cfg 100 c 2) = Some [10; 100].
Proof. vm_compute. reflexivity. Qed.

(** C7 (amended): with no rate limit configured the trim keeps every
    entry; otherwise its cutoff is [now - max(interval1, interval2)]
    (over the configured limits) and it drops nothing when no entry,
    old or new, is older than that cutoff. *)
Theorem C7_trim_window (cfg : Config) (now : Z) (c c' : internalState) (msgId : Z) :
  RememberSmsSend cfg now c msgId = Some c' ->
  (GetRateLimit1 cfg = None -> GetRateLimit2 cfg = None ->
   Timestamps c' = (Timestamps c ++ [now])%list)
  /\ (forall m, maxIntervalSeconds cfg = Some m ->
      cutOffTimestamp cfg now = GoInt.wrap64 (now - m))
  /\ (Forall (fun t => cutOffTimestamp cfg now <= t) (Timestamps c ++ [now])%list ->
      Timestamps c' = (Timestamps c ++ [now])%list).
Proof.
  intros H. split; [|split].
  - intros H1 H2. apply (RememberSmsSend_no_drop _ _ _ _ _ H). left.
    unfold cutOffTimestamp. now rewrite H1, H2.
  - intros m Hm. unfold maxIntervalSeconds in Hm. unfold cutOffTimestamp.
    destruct (GetRateLimit1 cfg) as [r1|], (GetRateLimit2 cfg) as [r2|];
      try discriminate; injection Hm as <-; try reflexivity.
    unfold IsGreaterThan, Util.Compare.
    destruct (Z.ltb_spec (ToSeconds (Interval r1)) (ToSeconds (Interval r2)));
      [|destruct (Z.ltb_spec (ToSeconds (Interval r2)) (ToSeconds (Interval r1)))];
      simpl; f_equal; lia.
  - intros Hall. apply (RememberSmsSend_no_drop _ _ _ _ _ H). now right.
Qed.

Lemma C7_trim_window_witness :
  let cfg := mkConfig (Some (mkRateLimit 5 (mkInterval 1 Hours)))
               (Some (mkRateLimit 20 (mkInterval 1 Days))) false [] "" [] false false in
  let c := mkState [7000; 9000] (Some 6) [7; 8] 9 None in
  exists c',
  RememberSmsSend cfg 10000 c 7 = Some c'
  /\ ((GetRateLimit1 cfg = None -> GetRateLimit2 cfg = None ->
       Timestamps c' = (Timestamps c ++ [10000])%list)
      /\ (forall m, maxIntervalSeconds cfg = Some m ->
          cutOffTimestamp cfg 10000 = GoInt.wrap64 (10000 - m))
      /\ (Forall (fun t => cutOffTimestamp cfg 10000 <= t) (Timestamps c ++ [10000])%list ->
          Timestamps c' = (Timestamps c ++ [10000])%list)).
Proof.
  intros cfg c.
  exists (mkState [7000; 9000; 10000] (Some 7) [8] 9 None).
  assert (H : RememberSmsSend cfg 10000 c 7
              = Some (mkState [7000; 9000; 10000] (Some 7) [8] 9 None))
    by (vm_compute; reflexivity).
  split; [exact H|].
  exact (C7_trim_window cfg 10000 c _ 7 H).
Defined.

(** C8 (counterexample): on the newest-first list [100; 0] at [now =
    100] with a 10 s interval, [countSms] stops at the old entry 0 and
    returns 0, while one entry lies within the interval. *)
Lemma C8_unsorted_undercounts :
  let c := mkState [100; 0] None [] 1 None in
  let iv := mkInterval 10 Seconds in
  countSms c 100 iv = 0 /\ countWithin c 100 iv = 1%nat.
Proof. vm_compute. split; reflexivity. Qed.

(** C8 (amended): when [msg_timestamps] is in ascending order (oldest
    first, as [RememberSmsSend] appends) and the timestamps and [now] are
    non-negative 64-bit values, [countSms interval] is the number of
    entries [ts] with [now - ts <= interval]. *)
Theorem C8_countSms_sorted (c : internalState) (now : Z) (iv : TimeInterval) :
  Sorted Z.le (Timestamps c) ->
  Forall (fun t => 0 <= t < 2 ^ 63) (Timestamps c) ->
  0 <= now < 2 ^ 63 ->
  countSms c now iv = Z.of_nat (countWithin c now iv).
Proof.
  intros Hs Hr Hn. unfold countSms, countWithin.
  rewrite countFromEnd_sorted.
  - f_equal. rewrite <- (length_rev (filter _ (Timestamps c))).
    f_equal. clear. induction (Timestamps c) as [|t l IH]; [reflexivity|].
    simpl. rewrite filter_app, IH. simpl.
    destruct (now - t <=? ToSeconds iv); simpl; [reflexivity | now rewrite app_nil_r].
  - apply Sorted_StronglySorted in Hs; [|intros x y z; lia].
    clear Hr Hn. induction Hs as [|t l Hs IH Hall]; simpl; [constructor|].
    apply StronglySorted_app'; [exact IH | repeat constructor |].
    intros x y Hx [<-|[]]. apply in_rev in Hx.
    rewrite Forall_forall in Hall. specialize (Hall x Hx). lia.
  - now apply Forall_rev.
  - exact Hn.
Qed.

Lemma C8_countSms_sorted_witness :
  let c := mkState [40; 95; 100] None [] 1 None in
  let iv := mkInterval 10 Seconds in
  (Sorted Z.le (Timestamps c)
   /\ Forall (fun t => 0 <= t < 2 ^ 63) (Timestamps c)
   /\ 0 <= 100 < 2 ^ 63)
  /\ countSms c 100 iv = Z.of_nat (countWithin c 100 iv).
Proof.
  intros c iv.
  assert (H1 : Sorted Z.le (Timestamps c)).
  { simpl. repeat constructor; simpl; lia. }
  assert (H2 : Forall (fun t => 0 <= t < 2 ^ 63) (Timestamps c)).
  { simpl. repeat constructor; lia. }
  assert (H3 : 0 <= 100 < 2 ^ 63) by lia.
  split; [split; [exact H1 | split; [exact H2 | exact H3]]|].
  exact (C8_countSms_sorted c 100 iv H1 H2 H3).
Defined.

End StateProofs.

Module ModemProofs.
Import Util Config State Modem.
Local Open Scope Z_scope.

Lemma bind_ret_inv {A B} (m : M A) (k : A -> M B) (w w' : world) (b : B) :
  bind m k w = (Ret b, w') ->
  exists a w1, m w = (Ret a, w1) /\ k a w1 = (Ret b, w').
Proof.
  unfold bind. destruct (m w) as [[a|x] w1]; intros H.
  - exists a, w1. split; [reflexivity | exact H].
  - discriminate.
Qed.

Lemma ret_inv {A} (a b : A) (w w' : world) : ret a w = (Ret b, w') -> a = b /\ w = w'.
Proof. unfold ret. intros H. injection H as -> ->. auto. Qed.

(** Relations between the world before and after a computation. *)
Section Keeps.
Variable R : world -> world -> Prop.
Hypothesis R_refl : forall w, R w w.
Hypothesis R_trans : forall w1 w2 w3, R w1 w2 -> R w2 w3 -> R w1 w3.

Definition keeps {A} (m : M A) : Prop := forall w r w', m w = (r, w') -> R w w'.

Lemma keeps_ret {A} (a : A) : keeps (ret a).
Proof. intros w r w' H. injection H as _ <-. apply R_refl. Qed.

Lemma keeps_panic {A} : keeps (@panic A).
Proof. intros w r w' H. injection H as _ <-. apply R_refl. Qed.

Lemma keeps_bind {A B} (m : M A) (k : A -> M B) :
  keeps m -> (forall a, keeps (k a)) -> keeps (bind m k).
Proof.
  intros Hm Hk w r w' H. unfold bind in H.
  destruct (m w) as [[a|x] w1] eqn:E.
  - apply R_trans with w1; [exact (Hm _ _ _ E) | exact (Hk a _ _ _ H)].
  - injection H as _ <-. exact (Hm _ _ _ E).
Qed.
End Keeps.

(** The program's own state and the clock are untouched, the clock is
    only read forward. *)
Definition R1 (w w' : world) : Prop :=
  appState w' = appState w /\ clock w' = clock w /\ (reads w <= reads w')%nat.

(** ... and only byte strings ending in CR are written. *)
Definition R2 (w w' : world) : Prop :=
  R1 w w' /\ exists sent, tx w' = (tx w ++ sent)%list
                          /\ Forall (fun s => endsWithCR s = true) sent.

Lemma R1_refl w : R1 w w.
Proof. unfold R1. auto. Qed.

Lemma R1_trans w1 w2 w3 : R1 w1 w2 -> R1 w2 w3 -> R1 w1 w3.
Proof.
  unfold R1. intros (A1 & C1 & N1) (A2 & C2 & N2).
  split; [congruence | split; [congruence | lia]].
Qed.

Lemma R2_refl w : R2 w w.
Proof. split; [apply R1_refl | exists []; rewrite app_nil_r; auto]. Qed.

Lemma R2_trans w1 w2 w3 : R2 w1 w2 -> R2 w2 w3 -> R2 w1 w3.
Proof.
  intros [H1 (s1 & T1 & F1)] [H2 (s2 & T2 & F2)].
  split; [exact (R1_trans _ _ _ H1 H2)|].
  exists (s1 ++ s2)%list. split.
  - rewrite T2, T1. symmetry. apply app_assoc.
  - apply Forall_app. auto.
Qed.

Lemma R2_R1 w w' : R2 w w' -> R1 w w'.
Proof. intros [H _]. exact H. Qed.

Definition keeps1 {A} (m : M A) := keeps R1 m.
Definition keeps2 {A} (m : M A) := keeps R2 m.

Lemma keeps2_keeps1 {A} (m : M A) : keeps2 m -> keeps1 m.
Proof. intros H w r w' E. exact (R2_R1 _ _ (H _ _ _ E)). Qed.

Lemma keeps1_ret {A} (a : A) : keeps1 (ret a).
Proof. apply keeps_ret, R1_refl. Qed.
Lemma keeps2_ret {A} (a : A) : keeps2 (ret a).
Proof. apply keeps_ret, R2_refl. Qed.
Lemma keeps2_panic {A} : keeps2 (@panic A).
Proof. apply keeps_panic, R2_refl. Qed.
Lemma keeps1_bind {A B} (m : M A) (k : A -> M B) :
  keeps1 m -> (forall a, keeps1 (k a)) -> keeps1 (bind m k).
Proof. apply keeps_bind, R1_trans. Qed.
Lemma keeps2_bind {A B} (m : M A) (k : A -> M B) :
  keeps2 m -> (forall a, keeps2 (k a)) -> keeps2 (bind m k).
Proof. apply keeps_bind, R2_trans. Qed.

Lemma lastByte_app_single (s : string) (c : ascii) :
  lastByte (s ++ String c EmptyString) = Some c.
Proof.
  unfold lastByte. induction s as [|a s IH]; [reflexivity|].
  cbn [append String.length].
  destruct (String.length (s ++ String c EmptyString)) as [|n] eqn:E.
  - destruct s; discriminate.
  - exact IH.
Qed.

Lemma endsWithCR_cr (s : string) : endsWithCR (s ++ crString) = true.
Proof. unfold endsWithCR, crString. rewrite lastByte_app_single. apply Ascii.eqb_refl. Qed.

Lemma endsWithCR_body (s : string) : endsWithCR (s ++ ctrlZ) = false.
Proof. unfold endsWithCR, ctrlZ. rewrite lastByte_app_single. reflexivity. Qed.

Lemma internalClose_keeps2 : keeps2 internalClose.
Proof.
  intros w r w' H. injection H as _ <-.
  split; [unfold R1; simpl; auto | exists []; simpl; rewrite app_nil_r; auto].
Qed.

Lemma internalSendBytes_keeps1 bytes req : keeps1 (internalSendBytes bytes req).
Proof.
  intros w r w' H. unfold internalSendBytes in H.
  destruct (negb (serialPortOpen w)).
  { injection H as _ <-. apply R1_refl. }
  destruct (match exchanges w with
            | [] => (XReadErr "EOF", [])
            | x :: rest => (x, rest) end) as [x rest].
  destruct x; injection H as _ <-; unfold R1; simpl; auto.
Qed.

Lemma internalSendBytes_keeps2 bytes req :
  endsWithCR bytes = true -> keeps2 (internalSendBytes bytes req).
Proof.
  intros Hb w r w' H. split; [exact (internalSendBytes_keeps1 bytes req w r w' H)|].
  unfold internalSendBytes in H.
  destruct (negb (serialPortOpen w)).
  { injection H as _ <-. exists []. rewrite app_nil_r. auto. }
  destruct (match exchanges w with
            | [] => (XReadErr "EOF", [])
            | x :: rest => (x, rest) end) as [x rest].
  destruct x; injection H as _ <-; simpl;
    first [ exists [bytes]; split; [reflexivity | repeat constructor; exact Hb]
          | exists []; rewrite app_nil_r; auto ].
Qed.

Lemma sendBytes_keeps1 bytes req : keeps1 (sendBytes bytes req).
Proof.
  unfold sendBytes. apply keeps1_bind; [apply internalSendBytes_keeps1|].
  intros r. destruct (snd r).
  - apply keeps1_bind; [apply keeps2_keeps1, internalClose_keeps2 | intros; apply keeps1_ret].
  - apply keeps1_ret.
Qed.

Lemma sendBytes_keeps2 bytes req :
  endsWithCR bytes = true -> keeps2 (sendBytes bytes req).
Proof.
  intros Hb. unfold sendBytes. apply keeps2_bind; [now apply internalSendBytes_keeps2|].
  intros r. destruct (snd r).
  - apply keeps2_bind; [apply internalClose_keeps2 | intros; apply keeps2_ret].
  - apply keeps2_ret.
Qed.

Lemma sendCmd_keeps2 cmd req : keeps2 (sendCmd cmd req).
Proof.
  intros w r w' H. unfold sendCmd in H.
  destruct (negb (serialPortOpen w)).
  { injection H as _ <-. apply R2_refl. }
  revert w r w' H. fold (@keeps2 (list string * option string)).
  destruct (String.eqb (TrimSpace cmd) EmptyString); [apply keeps2_ret|].
  apply keeps2_bind.
  - apply sendBytes_keeps2. destruct (endsWithCR cmd) eqn:E; [exact E | apply endsWithCR_cr].
  - intros r. destruct (snd r); apply keeps2_ret.
Qed.

Lemma getState_keeps2 : keeps2 getState.
Proof. intros w r w' H. injection H as _ <-. apply R2_refl. Qed.

Lemma nowM_keeps2 : keeps2 nowM.
Proof.
  intros w r w' H. injection H as _ <-.
  split; [unfold R1; simpl; auto | exists []; simpl; rewrite app_nil_r; auto].
Qed.

Lemma needsInit_keeps2 : keeps2 needsInit.
Proof. intros w r w' H. injection H as _ <-. apply R2_refl. Qed.

Lemma openPort_keeps2 : keeps2 openPort.
Proof.
  intros w r w' H. unfold openPort in H. destruct (opens w) as [|b rest].
  - injection H as _ <-. apply R2_refl.
  - injection H as _ <-.
    split; [unfold R1; simpl; auto | exists []; simpl; rewrite app_nil_r; auto].
Qed.

Create HintDb keeps.

#[local] Hint Resolve keeps2_ret keeps2_panic internalClose_keeps2 sendCmd_keeps2
  getState_keeps2 nowM_keeps2 needsInit_keeps2 openPort_keeps2 : keeps.

(** Walks through the binds, [match]es and [if]s of a computation. *)
Ltac keeps2_tac :=
  repeat match goal with
  | |- keeps2 (bind _ _) => apply keeps2_bind; [|intros ?]
  | |- keeps2 (match ?x with _ => _ end) => destruct x
  | |- keeps2 (if ?b then _ else _) => destruct b
  | |- keeps2 _ => solve [eauto with keeps]
  end.

Lemma queryPinState_keeps2 : keeps2 queryPinState.
Proof. unfold queryPinState. keeps2_tac. Qed.

Lemma sendPin_keeps2 pin : keeps2 (sendPin pin).
Proof. unfold sendPin. keeps2_tac. Qed.

#[local] Hint Resolve queryPinState_keeps2 sendPin_keeps2 : keeps.

Lemma unlockSim_keeps2 cfg : keeps2 (unlockSim cfg).
Proof. unfold unlockSim. keeps2_tac. Qed.

Lemma switchToPlainText_keeps2 : keeps2 switchToPlainText.
Proof. unfold switchToPlainText. keeps2_tac. Qed.

Lemma runInitCmds_keeps2 cmds : keeps2 (runInitCmds cmds).
Proof.
  induction cmds as [|cmd rest IH]; cbn [runInitCmds]; [apply keeps2_ret|].
  keeps2_tac.
Qed.

#[local] Hint Resolve runInitCmds_keeps2 : keeps.

Lemma initModem_keeps2 cfg : keeps2 (initModem cfg).
Proof. unfold initModem. keeps2_tac. Qed.

Lemma IsAnyRateLimitExceededM_keeps2 cfg : keeps2 (IsAnyRateLimitExceededM cfg).
Proof. unfold IsAnyRateLimitExceededM. keeps2_tac. Qed.

Lemma countFromEnd_nonneg now m d : 0 <= countFromEnd now m d.
Proof.
  induction d as [|t d IH]; cbn [countFromEnd]; [lia|].
  destruct (m <? GoInt.wrap64 (now - t)); lia.
Qed.

(** A later clock reading never counts more messages. *)
Lemma countFromEnd_mono now now' m d :
  now <= now' -> 0 <= now < 2 ^ 63 -> 0 <= now' < 2 ^ 63 ->
  Forall (fun t => 0 <= t < 2 ^ 63) d ->
  countFromEnd now' m d <= countFromEnd now m d.
Proof.
  intros Hle Hn Hn' Hd. induction Hd as [|t d Ht Hd IH]; cbn [countFromEnd]; [lia|].
  rewrite !StateProofs.wrap64_small by lia.
  pose proof (countFromEnd_nonneg now m d).
  pose proof (countFromEnd_nonneg now' m d).
  destruct (Z.ltb_spec m (now' - t)), (Z.ltb_spec m (now - t)); lia.
Qed.

Lemma countSms_mono c now now' iv :
  now <= now' -> 0 <= now < 2 ^ 63 -> 0 <= now' < 2 ^ 63 ->
  Forall (fun t => 0 <= t < 2 ^ 63) (Timestamps c) ->
  countSms c now' iv <= countSms c now iv.
Proof.
  intros. unfold countSms. apply countFromEnd_mono; try assumption.
  now apply Forall_rev.
Qed.

Lemma IsThresholdExceeded_mono rl n n' :
  n' <= n -> IsThresholdExceeded rl n = false -> IsThresholdExceeded rl n' = false.
Proof.
  unfold IsThresholdExceeded. intros Hle H.
  destruct (Z.ltb_spec (Threshold rl) n'), (Z.ltb_spec (Threshold rl) n);
    try discriminate; lia.
Qed.

(** A check that passed at some clock read passes at every later one. *)
Lemma checkAt_mono cfg c clk r0 r :
  (forall i j, (i <= j)%nat -> clk i <= clk j) ->
  (forall i, 0 <= clk i < 2 ^ 63) ->
  Forall (fun t => 0 <= t < 2 ^ 63) (Timestamps c) ->
  (r0 <= r)%nat -> checkAt cfg c clk r0 = false -> checkAt cfg c clk r = false.
Proof.
  intros Hmono Hrange Hts Hr.
  assert (Hm : forall (k : nat) iv,
             countSms c (clk (r + k)%nat) iv <= countSms c (clk (r0 + k)%nat) iv).
  { intros k iv. apply countSms_mono; [apply Hmono; lia | apply Hrange | apply Hrange | exact Hts]. }
  assert (Hm0 := Hm 0%nat). rewrite !Nat.add_0_r in Hm0.
  unfold checkAt, IsAnyRateLimitExceeded.
  destruct (Timestamps c) as [|t ts]; [reflexivity|].
  destruct (GetRateLimit1 cfg) as [rl1|], (GetRateLimit2 cfg) as [rl2|]; simpl.
  - destruct (IsThresholdExceeded rl1 (countSms c (clk r0) (Interval rl1))) eqn:E1;
      [discriminate|].
    rewrite (IsThresholdExceeded_mono _ _ _ (Hm0 _) E1).
    apply IsThresholdExceeded_mono. apply Hm.
  - destruct (IsThresholdExceeded rl1 (countSms c (clk r0) (Interval rl1))) eqn:E1;
      [discriminate|].
    now rewrite (IsThresholdExceeded_mono _ _ _ (Hm0 _) E1).
  - rewrite !Nat.add_0_r. apply IsThresholdExceeded_mono. apply Hm0.
  - reflexivity.
Qed.

(** [IsAnyRateLimitExceeded] makes the check at the next clock read. *)
Lemma IsAnyRateLimitExceededM_spec cfg w :
  exists k, IsAnyRateLimitExceededM cfg w
            = (Ret (checkAt cfg (appState w) (clock w) (reads w)),
               withReads (reads w + k) w).
Proof.
  unfold IsAnyRateLimitExceededM, checkAt, IsAnyRateLimitExceeded, bind, getState, ret, nowM.
  destruct (Timestamps (appState w)) as [|t ts].
  { exists 0%nat. destruct w; simpl. rewrite Nat.add_0_r. reflexivity. }
  destruct (GetRateLimit1 cfg) as [rl1|], (GetRateLimit2 cfg) as [rl2|]; simpl.
  - destruct (IsThresholdExceeded rl1 (countSms (appState w) (clock w (reads w)) (Interval rl1))).
    + exists 1%nat. destruct w; simpl. rewrite Nat.add_1_r. reflexivity.
    + exists 2%nat. destruct w; simpl. rewrite Nat.add_1_r.
      replace (reads0 + 2)%nat with (S (S reads0)) by lia. reflexivity.
  - exists 1%nat. destruct w; simpl. rewrite Nat.add_1_r.
    destruct (IsThresholdExceeded _ _); reflexivity.
  - exists 1%nat. destruct w; simpl. rewrite Nat.add_1_r, Nat.add_0_r. reflexivity.
  - exists 0%nat. destruct w; simpl. rewrite Nat.add_0_r. reflexivity.
Qed.

(** Hypotheses on the environment: the clock does not go backwards and,
    like the stored timestamps, stays within [0, 2^63). *)
Definition sane (w : world) : Prop :=
  (forall i j, (i <= j)%nat -> clock w i <= clock w j)
  /\ (forall i, 0 <= clock w i < 2 ^ 63)
  /\ Forall (fun t => 0 <= t < 2 ^ 63) (Timestamps (appState w)).

Lemma sane_R1 w w' : R1 w w' -> sane w -> sane w'.
Proof. intros (A & C & _). unfold sane. rewrite A, C. auto. Qed.

(** Once a check has passed, the loop cannot end in a rate-limit
    failure. *)
Lemma sendToRecipients_after_pass cfg message rs :
  forall w r0 res w',
  sane w -> (r0 <= reads w)%nat ->
  checkAt cfg (appState w) (clock w) r0 = false ->
  sendToRecipients cfg message rs w = (Ret res, w') ->
  Reason res <> MODEM_ERR_RATE_LIMIT_EXCEEDED.
Proof.
  induction rs as [|rc rest IH]; intros w r0 res w' Hs Hr Hc H.
  { apply ret_inv in H as [<- _]. discriminate. }
  cbn [sendToRecipients] in H.
  apply bind_ret_inv in H as (ex & w1 & H1 & H).
  destruct (IsAnyRateLimitExceededM_spec cfg w) as [k Hk].
  rewrite Hk in H1. injection H1 as <- <-.
  destruct Hs as (Hmono & Hrange & Hts).
  rewrite (checkAt_mono _ _ _ r0 (reads w) Hmono Hrange Hts Hr Hc) in H.
  set (w1 := withReads (reads w + k) w) in H.
  assert (R1w1 : R1 w w1) by (unfold R1; simpl; repeat split; lia).
  apply bind_ret_inv in H as (resp & w2 & H2 & H).
  pose proof (keeps2_keeps1 _ (sendCmd_keeps2 _ _) _ _ _ H2) as R12.
  destruct (snd resp).
  { apply ret_inv in H as [<- _]. discriminate. }
  destruct (_ || _ || _).
  { apply ret_inv in H as [<- _]. discriminate. }
  apply bind_ret_inv in H as (rl & w3 & H3 & H).
  pose proof (sendBytes_keeps1 _ _ _ _ _ H3) as R23.
  destruct (snd rl).
  { apply ret_inv in H as [<- _]. discriminate. }
  destruct (negb (isOK (fst rl))).
  { apply ret_inv in H as [<- _]. discriminate. }
  assert (R03 : R1 w w3) by exact (R1_trans _ _ _ (R1_trans _ _ _ R1w1 R12) R23).
  pose proof R03 as (A & C & N).
  apply (IH w3 r0 res w'); [| lia | rewrite A, C; exact Hc | exact H].
  apply (sane_R1 w); [exact R03|]. unfold sane; auto.
Qed.

(** A rate-limit failure of the loop comes from its first check: nothing
    has been written and the state is unchanged. *)
Lemma sendToRecipients_rate_limit cfg message rs w res w' :
  sane w ->
  sendToRecipients cfg message rs w = (Ret res, w') ->
  Reason res = MODEM_ERR_RATE_LIMIT_EXCEEDED ->
  R2 w w'.
Proof.
  intros Hs H Hr. destruct rs as [|rc rest].
  { apply ret_inv in H as [<- _]. discriminate. }
  cbn [sendToRecipients] in H.
  apply bind_ret_inv in H as (ex & w1 & H1 & H).
  pose proof (IsAnyRateLimitExceededM_keeps2 cfg _ _ _ H1) as R01.
  destruct (IsAnyRateLimitExceededM_spec cfg w) as [k Hk].
  rewrite Hk in H1. injection H1 as Hex Hw1.
  destruct ex.
  { apply ret_inv in H as [_ <-]. exact R01. }
  exfalso. rewrite <- Hw1 in H.
  set (w1' := withReads (reads w + k) w) in H.
  assert (R1w1 : R1 w w1') by (unfold R1; simpl; repeat split; lia).
  apply bind_ret_inv in H as (resp & w2 & H2 & H).
  pose proof (keeps2_keeps1 _ (sendCmd_keeps2 _ _) _ _ _ H2) as R12.
  destruct (snd resp).
  { apply ret_inv in H as [<- _]. discriminate. }
  destruct (_ || _ || _).
  { apply ret_inv in H as [<- _]. discriminate. }
  apply bind_ret_inv in H as (rl & w3 & H3 & H).
  pose proof (sendBytes_keeps1 _ _ _ _ _ H3) as R23.
  destruct (snd rl).
  { apply ret_inv in H as [<- _]. discriminate. }
  destruct (negb (isOK (fst rl))).
  { apply ret_inv in H as [<- _]. discriminate. }
  pose proof (R1_trans _ _ _ (R1_trans _ _ _ R1w1 R12) R23) as (A & C & N).
  refine (sendToRecipients_after_pass cfg message rest w3 (reads w) res w' _ _ _ H Hr).
  - apply (sane_R1 w); [split; [exact A | split; [exact C | exact N]] | exact Hs].
  - exact N.
  - rewrite A, C. exact Hex.
Qed.

Lemma internalSendSms_rate_limit cfg message w res w' :
  sane w ->
  internalSendSms cfg message w = (Ret res, w') ->
  Reason res = MODEM_ERR_RATE_LIMIT_EXCEEDED ->
  R2 w w'.
Proof.
  intros Hs H Hr. unfold internalSendSms in H.
  destruct (DebugModemAlwaysSucceed cfg).
  { apply ret_inv in H as [<- _]. discriminate. }
  destruct (DebugModemAlwaysFail cfg).
  { apply ret_inv in H as [<- _]. discriminate. }
  apply bind_ret_inv in H as (ni & w1 & H1 & H).
  pose proof (needsInit_keeps2 _ _ _ H1) as R01.
  apply bind_ret_inv in H as (e & w2 & H2 & H).
  assert (R12 : R2 w1 w2).
  { destruct ni; [exact (initModem_keeps2 cfg _ _ _ H2) | exact (keeps2_ret _ _ _ _ H2)]. }
  destruct e as [e|].
  { apply ret_inv in H as [<- _]. discriminate. }
  apply bind_ret_inv in H as (e & w3 & H3 & H).
  pose proof (unlockSim_keeps2 cfg _ _ _ H3) as R23.
  destruct e as [e|].
  { apply ret_inv in H as [<- _]. discriminate. }
  apply bind_ret_inv in H as (e & w4 & H4 & H).
  pose proof (switchToPlainText_keeps2 _ _ _ H4) as R34.
  destruct e as [e|].
  { apply ret_inv in H as [<- _]. discriminate. }
  assert (R04 : R2 w w4) by eauto using R2_trans.
  apply (R2_trans _ _ _ R04).
  apply (sendToRecipients_rate_limit cfg message (GetSmsRecipients cfg) w4 res w');
    [| exact H | exact Hr].
  exact (sane_R1 w w4 (R2_R1 _ _ R04) Hs).
Qed.

(** C9 (counterexample): the rate limit is checked before each
    recipient against a fresh clock reading.  With two recipients, a
    limit of 0 messages per hour, one send recorded at 100 and a clock
    that reads 5000 and then 3000 (it went backwards), the first check
    passes, "hello" is sent to the first recipient, and the second check
    fails: [SendSms] reports [MODEM_ERR_RATE_LIMIT_EXCEEDED] after a body
    went out. *)
Lemma C9_clock_backwards_body_sent :
  let cfg := mkConfig (Some (mkRateLimit 0 (mkInterval 1 Hours))) None false
               ["+4911111"; "+4922222"] "1234" [] false false in
  let w := mkWorld (mkState [100] (Some 1) [] 2 None) true []
             [XLines ["+CPIN: READY"; "OK"]; XLines ["OK"]; XLines ["> "];
              XLines ["+CMGS: 1"; "OK"]] []
             (fun i => if Nat.eqb i 0 then 5000 else 3000) 0 in
  let '(r, w') := SendSms cfg "hello" w in
  r = Ret (mkSendResult false MODEM_ERR_RATE_LIMIT_EXCEEDED "Rate limit exceeded")
  /\ In ("hello" ++ ctrlZ) (tx w').
Proof. vm_compute. split; [reflexivity | right; right; right; left; reflexivity]. Qed.

(** C9 (amended): when [SendSms] returns [MODEM_ERR_RATE_LIMIT_EXCEEDED], the call
    has written no SMS body (message followed by CTRL-Z) to the serial
    port, only AT commands terminated by CR, and left the application
    state unchanged; assuming the clock does not go backwards and clock
    and stored timestamps lie in [0, 2^63). *)
Theorem C9_rate_limit_nothing_sent (cfg : Config) (message : string)
  (w w' : world) (res : SendResult) :
  sane w ->
  SendSms cfg message w = (Ret res, w') ->
  Reason res = MODEM_ERR_RATE_LIMIT_EXCEEDED ->
  appState w' = appState w
  /\ exists sent, tx w' = (tx w ++ sent)%list
                  /\ Forall (fun s => endsWithCR s = true) sent
                  /\ ~ In (message ++ ctrlZ) sent.
Proof.
  intros Hs H Hr. unfold SendSms in H.
  apply bind_ret_inv in H as (r1 & w1 & H1 & H).
  assert (Hr1 : Reason r1 = MODEM_ERR_RATE_LIMIT_EXCEEDED).
  { destruct (negb (Success r1) && FailureReason_eqb (Reason r1) MODEM_ERR_MODEM_ERROR).
    - apply bind_ret_inv in H as (u & w2 & _ & H). apply ret_inv in H as [<- _]. exact Hr.
    - apply ret_inv in H as [<- _]. exact Hr. }
  rewrite Hr1 in H. rewrite andb_false_r in H. apply ret_inv in H as [_ <-].
  destruct (internalSendSms_rate_limit cfg message w r1 w1 Hs H1 Hr1)
    as [(A & _ & _) (sent & T & F)].
  split; [exact A|]. exists sent. split; [exact T|]. split; [exact F|].
  intros Hin. rewrite Forall_forall in F. specialize (F _ Hin).
  rewrite endsWithCR_body in F. discriminate.
Qed.

Lemma C9_rate_limit_nothing_sent_witness :
  let cfg := mkConfig (Some (mkRateLimit 0 (mkInterval 1 Hours))) None false
               ["+4911111"; "+4922222"] "1234" ["ATE0"] false false in
  let w := mkWorld (mkState [100] (Some 1) [] 2 None) true []
             [XLines ["+CPIN: READY"; "OK"]; XLines ["OK"]] []
             (fun i => Z.min (200 + Z.of_nat i) 1000) 0 in
  exists res w',
  (sane w /\ SendSms cfg "hello" w = (Ret res, w')
   /\ Reason res = MODEM_ERR_RATE_LIMIT_EXCEEDED)
  /\ (appState w' = appState w
      /\ exists sent, tx w' = (tx w ++ sent)%list
                      /\ Forall (fun s => endsWithCR s = true) sent
                      /\ ~ In ("hello" ++ ctrlZ) sent).
Proof.
  intros cfg w.
  set (w' := snd (SendSms cfg "hello" w)).
  assert (E : SendSms cfg "hello" w
              = (Ret (mkSendResult false MODEM_ERR_RATE_LIMIT_EXCEEDED
                        "Rate limit exceeded"), w'))
    by (vm_compute; reflexivity).
  exists (mkSendResult false MODEM_ERR_RATE_LIMIT_EXCEEDED "Rate limit exceeded"), w'.
  assert (Hs : sane w).
  { unfold sane, w; cbn [clock appState Timestamps]. split; [|split].
    - intros i j Hij. lia.
    - intros i. lia.
    - repeat constructor; lia. }
  split; [split; [exact Hs | split; [exact E | reflexivity]]|].
  exact (C9_rate_limit_nothing_sent cfg "hello" w w' _ Hs E eq_refl).
Defined.
End ModemProofs.

Module SchedulerProofs.
Import Message Config State Modem Delivery Scheduler.
Local Open Scope Z_scope.

Lemma lookupFile_removeFile d name : lookupFile (removeFile d name) name = None.
Proof.
  induction d as [|[k c] d IH]; [reflexivity|]. simpl.
  destruct (String.eqb_spec k name) as [->|Hne]; [exact IH|].
  simpl. apply String.eqb_neq in Hne. rewrite Hne. exact IH.
Qed.

(** [IsDue] only reads the clock. *)
Lemma IsDue_frame msgId n r n1 :
  IsDue msgId n = (r, n1) ->
  inbox n1 = inbox n /\ sentFiles n1 = sentFiles n /\ failures n1 = failures n
  /\ appState (mw n1) = appState (mw n) /\ tx (mw n1) = tx (mw n)
  /\ exchanges (mw n1) = exchanges (mw n) /\ serialPortOpen (mw n1) = serialPortOpen (mw n)
  /\ env n1 = env n.
Proof.
  unfold IsDue. destruct (lookupFailure (failures n) msgId).
  - unfold lift, bind, nowM, ret. intros H. injection H as _ <-. simpl. auto 10.
  - intros H. injection H as _ <-. auto 10.
Qed.

(** C4 (counterexample): the inbox file [5_100] of a message already
    sent (ID 5, last successful ID 8, nothing pending) is not deleted by
    the tick: it is moved to the sent directory, and the modem is not
    used. *)
Lemma C4_sent_already_file_moved_to_sent :
  let cfg := mkConfig None None false ["+4912345"] "1234" [] false false in
  let n := mkNode (mkWorld (mkState [] (Some 8) [] 11 None) false [] [] []
                     (fun _ => 1000) 0) [("5_100", "old")] [] [] noFaults in
  let '(r, n') := inboxTick cfg n in
  r = Ret tt /\ inbox n' = [] /\ sentFiles n' = [("5_100", "old")] /\ tx (mw n') = [].
Proof. vm_compute. auto. Qed.

(** C4 (amended): when the scheduler processes a due, validly named
    inbox file whose ID was sent already, it does not delete the file
    and does not use the modem: it renames the file into the sent
    directory (under its file name); if the operating system refuses the
    rename, the error is only logged and the file stays in the inbox.
    Nothing is written to the serial port, no modem exchange takes
    place, the state is unchanged; the failure entry of the ID is
    cleared and the loop goes on. *)
Theorem C4_sent_already_moves_to_sent (cfg : Config) (absPath : string) (msg : Message)
  (n n1 n' : node) (r : res unit) :
  MsgFromFileName absPath = inl msg ->
  IsDue (Id msg) n = (Ret true, n1) ->
  WasSentAlready (appState (mw n)) (Id msg) = true ->
  processFile cfg absPath n = (r, n') ->
  r = Ret tt
  /\ (forall c, lookupFile (inbox n) (FileName msg) = Some c ->
       (fsErr (env n) (fsCalls (env n)) = None ->
        lookupFile (inbox n') (FileName msg) = None
        /\ lookupFile (sentFiles n') (FileName msg) = Some c)
       /\ (forall e, fsErr (env n) (fsCalls (env n)) = Some e ->
           inbox n' = inbox n /\ sentFiles n' = sentFiles n))
  /\ tx (mw n') = tx (mw n) /\ exchanges (mw n') = exchanges (mw n)
  /\ appState (mw n') = appState (mw n)
  /\ failures n' = deleteFailure (failures n) (Id msg).
Proof.
  intros Hm Hd Hs H.
  pose proof (IsDue_frame _ _ _ _ Hd) as (Ei & Es & Ef & Ea & Et & Ex & Ep & Ev).
  unfold processFile in H. rewrite Hm in H.
  unfold nbind at 1 in H. rewrite Hd in H.
  unfold sendMessage, nbind, getAppState in H.
  rewrite Ea, Hs in H. cbn [negb nret] in H.
  unfold renameToSent, fsCall, nbind in H.
  cbn [inbox sentFiles env mw failures fsErr fsCalls withCalls] in H.
  rewrite Ev, Ei in H.
  destruct (fsErr (env n) (fsCalls (env n))) as [e|] eqn:Ee;
  destruct (lookupFile (inbox n) (FileName msg)) as [c|] eqn:Ec;
  cbn in H; injection H as <- <-; cbn;
  (split; [reflexivity|]);
  (split; [intros c' Hc'; split; [intros Hn | intros e' He']
          |rewrite Et, Ex, Ea, Ef; auto]);
  try discriminate;
  first [ split; congruence
        | injection Hc' as <-; split; [apply lookupFile_removeFile|];
          now rewrite String.eqb_refl ].
Qed.

Lemma C4_sent_already_moves_to_sent_witness :
  let cfg := mkConfig None None false ["+4912345"] "1234" [] false false in
  let n := mkNode (mkWorld (mkState [] (Some 8) [] 11 None) false [] [] []
                     (fun _ => 1000) 0) [("5_100", "old")] [] [] noFaults in
  let msg := mkMessage 5 "inbox/5_100" "5_100" 100 in
  (MsgFromFileName "inbox/5_100" = inl msg
   /\ IsDue (Id msg) n = (Ret true, n)
   /\ WasSentAlready (appState (mw n)) (Id msg) = true)
  /\ let '(r, n') := processFile cfg "inbox/5_100" n in
     r = Ret tt
     /\ (forall c, lookupFile (inbox n) (FileName msg) = Some c ->
          (fsErr (env n) (fsCalls (env n)) = None ->
           lookupFile (inbox n') (FileName msg) = None
           /\ lookupFile (sentFiles n') (FileName msg) = Some c)
          /\ (forall e, fsErr (env n) (fsCalls (env n)) = Some e ->
              inbox n' = inbox n /\ sentFiles n' = sentFiles n))
     /\ tx (mw n') = tx (mw n) /\ exchanges (mw n') = exchanges (mw n)
     /\ appState (mw n') = appState (mw n)
     /\ failures n' = deleteFailure (failures n) (Id msg).
Proof.
  intros cfg n msg.
  assert (H1 : MsgFromFileName "inbox/5_100" = inl msg) by (vm_compute; reflexivity).
  assert (H2 : IsDue (Id msg) n = (Ret true, n)) by (vm_compute; reflexivity).
  assert (H3 : WasSentAlready (appState (mw n)) (Id msg) = true) by (vm_compute; reflexivity).
  split; [split; [exact H1 | split; [exact H2 | exact H3]]|].
  destruct (processFile cfg "inbox/5_100" n) as [r n'] eqn:E.
  exact (C4_sent_already_moves_to_sent cfg "inbox/5_100" msg n n n' r H1 H2 H3 E).
Defined.

(** C5: the tick does not order the inbox by message ID.  With the
    pending messages 9 and 10 both due (files [9_100] and [10_100], last
    successful ID 8) and a modem that accepts every SMS, [os.ReadDir]
    lists [10_100] before [9_100]: the body of message 10 is sent first,
    then that of message 9, and [RememberSmsSend] for 9 then panics
    (9 is not above the last successful ID 10). *)
Lemma C5_tick_sends_higher_id_first :
  let cfg := mkConfig None None false ["+4912345"] "1234" [] false false in
  let modemOk := [XLines ["+CPIN: READY"; "OK"]; XLines ["OK"]; XLines ["> "];
                  XLines ["+CMGS: 1"; "OK"]] in
  let n := mkNode (mkWorld (mkState [] (Some 8) [9; 10] 11 None) true []
                     (modemOk ++ modemOk)%list [] (fun _ => 1000) 0)
             [("9_100", "msg nine"); ("10_100", "msg ten")] [] [] noFaults in
  let '(r, n') := inboxTick cfg n in
  r = Abort Panic
  /\ bodiesSent (tx (mw n')) = ["msg ten"; "msg nine"]
  /\ LastSuccessfulMessageId (appState (mw n')) = Some 10.
Proof. vm_compute. auto. Qed.
End SchedulerProofs.

Module FileNameProofs.
Import Message Modem Delivery Scheduler.
Local Open Scope Z_scope.

Lemma digit_char (n : Z) :
  let c := ascii_of_nat (48 + Z.to_nat (n mod 10)) in
  isDigit c = true /\ c <> "/"%char
  /\ Z.of_nat (nat_of_ascii c) - 48 = n mod 10.
Proof.
  intros c. pose proof (Z.mod_pos_bound n 10 ltac:(lia)) as B.
  assert (E : nat_of_ascii c = (48 + Z.to_nat (n mod 10))%nat)
    by (apply Ascii.nat_ascii_embedding; lia).
  split; [|split].
  - unfold isDigit. rewrite E. apply andb_true_intro. split; apply Nat.leb_le; lia.
  - intros Hc. assert (F : nat_of_ascii c = 47%nat) by (rewrite Hc; reflexivity). lia.
  - rewrite E. rewrite Nat2Z.inj_add, Z2Nat.id by lia. lia.
Qed.

Lemma prefix_nil (s : string) : String.prefix "" s = true.
Proof. destruct s; reflexivity. Qed.

Lemma index_slash_cons (c : ascii) (s : string) :
  c <> "/"%char -> String.index 0 "/" s = None -> String.index 0 "/" (String c s) = None.
Proof.
  intros Hc Hs. cbn [String.index String.prefix].
  destruct (ascii_dec "/" c) as [E|_]; [congruence|]. rewrite Hs. reflexivity.
Qed.

Lemma index_slash_app (a b : string) :
  String.index 0 "/" a = None -> String.index 0 "/" b = None ->
  String.index 0 "/" (a ++ b) = None.
Proof.
  induction a as [|c a IH]; [auto|]. intros Ha Hb. cbn [append].
  cbn [String.index String.prefix] in Ha.
  destruct (ascii_dec "/" c) as [E|Hc]; [rewrite prefix_nil in Ha; discriminate|].
  destruct (String.index 0 "/" a) eqn:Ea; [discriminate|].
  apply index_slash_cons; [congruence | exact (IH eq_refl Hb)].
Qed.

Lemma index_slash_some (p q : string) :
  exists k, String.index 0 "/" (p ++ String "/" q) = Some k.
Proof.
  induction p as [|c p [k IH]].
  - exists 0%nat. cbn [append String.index String.prefix].
    destruct (ascii_dec "/" "/"); [|congruence]. rewrite prefix_nil. reflexivity.
  - cbn [append String.index String.prefix]. rewrite IH.
    destruct (ascii_dec "/" c); [exists 0%nat; rewrite prefix_nil | exists (S k)]; reflexivity.
Qed.

(** [filepath.Base] of a path ending in [/q], [q] without '/'. *)
Lemma Base_slash (p q : string) :
  String.index 0 "/" q = None -> Base (p ++ String "/" q) = q.
Proof.
  intros Hq. induction p as [|c p IH].
  - cbn [append Base]. rewrite Hq. reflexivity.
  - cbn [append Base]. destruct (index_slash_some p q) as [k Hk]. rewrite Hk. exact IH.
Qed.

(** What [posDigits] puts in front of its accumulator: digits only. *)
Lemma posDigits_digits (f : nat) (n : Z) (acc : string) :
  (forall r d r', digitsPrefix r = (d, r') -> digitsPrefix (acc ++ r) = (acc ++ d, r')) ->
  String.index 0 "/" acc = None ->
  (forall r d r', digitsPrefix r = (d, r') ->
     digitsPrefix (posDigits f n acc ++ r) = (posDigits f n acc ++ d, r'))
  /\ String.index 0 "/" (posDigits f n acc) = None.
Proof.
  revert n acc. induction f as [|f IH]; intros n acc Hd Hs; cbn [posDigits]; [auto|].
  destruct (n <=? 0); [auto|].
  destruct (digit_char n) as (D & S & _).
  apply IH.
  - intros r d r' E. cbn [append digitsPrefix]. rewrite D, (Hd r d r' E). reflexivity.
  - exact (index_slash_cons _ _ S Hs).
Qed.

Lemma posDigits_value (f : nat) (n : Z) (acc : string) :
  0 <= n < 2 ^ Z.of_nat f -> decimalValue 0 (posDigits f n acc) = decimalValue n acc.
Proof.
  revert n acc. induction f as [|f IH]; intros n acc Hn; cbn [posDigits].
  - cbn in Hn. assert (n = 0) by lia. subst. reflexivity.
  - destruct (n <=? 0) eqn:E.
    + apply Z.leb_le in E. assert (n = 0) by lia. subst. reflexivity.
    + apply Z.leb_gt in E. rewrite Nat2Z.inj_succ, Z.pow_succ_r in Hn by lia.
      rewrite IH.
      * cbn [decimalValue]. destruct (digit_char n) as (_ & _ & V). rewrite V.
        f_equal. pose proof (Z_div_mod_eq_full n 10). lia.
      * split; [apply Z.div_pos; lia|]. apply Z.div_lt_upper_bound; lia.
Qed.

Lemma posDigits_nonempty (f : nat) (n : Z) (a : ascii) (s : string) :
  exists b t, posDigits f n (String a s) = String b t.
Proof.
  revert n a s. induction f as [|f IH]; intros n a s; cbn [posDigits]; [eauto|].
  destruct (n <=? 0); [eauto | apply IH].
Qed.

Lemma FormatInt_shape (x : Z) :
  0 <= x ->
  (forall r d r', digitsPrefix r = (d, r') ->
     digitsPrefix (FormatInt x ++ r) = (FormatInt x ++ d, r'))
  /\ String.index 0 "/" (FormatInt x) = None
  /\ (exists b t, FormatInt x = String b t)
  /\ decimalValue 0 (FormatInt x) = x.
Proof.
  intros Hx. unfold FormatInt.
  destruct (x =? 0) eqn:E0.
  { apply Z.eqb_eq in E0. subst. split; [|split; [reflexivity | split; [eauto | reflexivity]]].
    intros r d r' E. cbn [append digitsPrefix]. rewrite E. reflexivity. }
  apply Z.eqb_neq in E0.
  destruct (x <? 0) eqn:E1; [apply Z.ltb_lt in E1; lia|].
  assert (Hp : 0 < x) by lia.
  destruct (posDigits_digits (S (Z.to_nat (Z.log2 x))) x "") as [D S];
    [intros r d r' E; exact E | reflexivity |].
  split; [exact D|]. split; [exact S|]. split.
  - cbn [posDigits]. destruct (x <=? 0) eqn:E2; [apply Z.leb_le in E2; lia|].
    apply posDigits_nonempty.
  - rewrite posDigits_value; [reflexivity|].
    split; [lia|]. rewrite Nat2Z.inj_succ, Z2Nat.id by (apply Z.log2_nonneg).
    apply Z.log2_spec. exact Hp.
Qed.

Lemma digitsPrefix_underscore (r : string) :
  digitsPrefix (String "_" r) = ("", String "_" r).
Proof. reflexivity. Qed.

Lemma FormatInt_noslash (x : Z) : String.index 0 "/" (FormatInt x) = None.
Proof.
  destruct (Z_lt_le_dec x 0) as [Hx|Hx]; [|apply (FormatInt_shape x Hx)].
  unfold FormatInt. destruct (x =? 0) eqn:E; [reflexivity|].
  replace (x <? 0) with true by (symmetry; apply Z.ltb_lt; exact Hx).
  cbn [append]. apply index_slash_cons; [discriminate|].
  apply posDigits_digits; [intros r d r' E'; exact E' | reflexivity].
Qed.

Lemma ToFileName_noslash (m : Message) : String.index 0 "/" (ToFileName m) = None.
Proof.
  unfold ToFileName, MessageId_String.
  apply index_slash_app; [apply FormatInt_noslash|].
  apply index_slash_app; [reflexivity | apply FormatInt_noslash].
Qed.

Lemma Base_inboxPath (name : string) :
  String.index 0 "/" name = None -> Base (inboxPath name) = name.
Proof.
  intros H. change (inboxPath name) with ("inbox" ++ String "/" name).
  exact (Base_slash _ _ H).
Qed.

Lemma ParseInt_FormatInt (x : Z) : 0 <= x < 2 ^ 63 -> ParseInt (FormatInt x) = Some x.
Proof.
  intros Hx. unfold ParseInt. rewrite (proj2 (proj2 (proj2 (FormatInt_shape x (proj1 Hx))))).
  replace (x <? 2 ^ 63) with true by (symmetry; apply Z.ltb_lt; lia). reflexivity.
Qed.

(** The name [StoreMessage] gives a message, followed by a suffix that
    does not start with a digit, is parsed back by [MsgFromFileName]. *)
Lemma MsgFromFileName_suffix (m : Message) (suffix : string) :
  0 <= Id m < 2 ^ 63 -> 0 <= CreationTimestamp m < 2 ^ 63 ->
  fst (digitsPrefix suffix) = "" -> String.index 0 "/" suffix = None ->
  MsgFromFileName (inboxPath (ToFileName m ++ suffix))
  = inl (mkMessage (Id m) (inboxPath (ToFileName m ++ suffix))
           (ToFileName m ++ suffix) (CreationTimestamp m)).
Proof.
  intros Hi Ht Hd Hs.
  unfold MsgFromFileName.
  rewrite Base_inboxPath by (apply index_slash_app; [apply ToFileName_noslash | exact Hs]).
  assert (Hm : matchFileName (ToFileName m ++ suffix)
               = Some (FormatInt (Id m), FormatInt (CreationTimestamp m))).
  { destruct (FormatInt_shape (Id m)) as (Di & _ & (bi & ti & Ni) & _); [lia|].
    destruct (FormatInt_shape (CreationTimestamp m)) as (Dt & _ & (bt & tt' & Nt) & _); [lia|].
    unfold ToFileName, MessageId_String.
    rewrite ParserProofs.string_app_assoc.
    change (("_" ++ FormatInt (CreationTimestamp m)) ++ suffix)
      with (String "_" (FormatInt (CreationTimestamp m) ++ suffix)).
    unfold matchFileName.
    rewrite (Di _ _ _ (digitsPrefix_underscore _)), ParserProofs.string_app_nil_r.
    destruct (digitsPrefix suffix) as [ds rs] eqn:Es. cbn in Hd. subst ds.
    rewrite (Dt _ _ _ Es), ParserProofs.string_app_nil_r.
    rewrite Ni, Nt. reflexivity. }
  rewrite Hm, (ParseInt_FormatInt _ Hi), (ParseInt_FormatInt _ Ht). reflexivity.
Qed.

(** [ToFileName] and [MsgFromFileName] round trip: the inbox file of a
    message whose ID and creation time lie in [0, 2^63) is parsed back
    into a message with the same ID and creation time, its path and its
    file name. *)
Theorem ToFileName_MsgFromFileName (m : Message) :
  0 <= Id m < 2 ^ 63 -> 0 <= CreationTimestamp m < 2 ^ 63 ->
  MsgFromFileName (inboxPath (ToFileName m))
  = inl (mkMessage (Id m) (inboxPath (ToFileName m)) (ToFileName m) (CreationTimestamp m)).
Proof.
  intros Hi Ht.
  pose proof (MsgFromFileName_suffix m "" Hi Ht eq_refl eq_refl) as H.
  rewrite ParserProofs.string_app_nil_r in H. exact H.
Qed.

Lemma ToFileName_MsgFromFileName_witness :
  let m := mkMessage 42 "" "" 1700000000 in
  (0 <= Id m < 2 ^ 63 /\ 0 <= CreationTimestamp m < 2 ^ 63)
  /\ MsgFromFileName (inboxPath (ToFileName m))
     = inl (mkMessage (Id m) (inboxPath (ToFileName m)) (ToFileName m) (CreationTimestamp m)).
Proof.
  intros m. assert (Hi : 0 <= Id m < 2 ^ 63) by (cbn; lia).
  assert (Ht : 0 <= CreationTimestamp m < 2 ^ 63) by (cbn; lia).
  split; [split; assumption|]. exact (ToFileName_MsgFromFileName m Hi Ht).
Defined.

(** The temporary file [StoreMessage] writes before renaming it
    ([<name>.tmp]) already has a valid message file name: the regular
    expression has no end anchor, so [MsgFromFileName] reads it as the
    same message ID and creation time. *)
Theorem tmp_file_is_a_message (m : Message) :
  0 <= Id m < 2 ^ 63 -> 0 <= CreationTimestamp m < 2 ^ 63 ->
  MsgFromFileName (inboxPath (ToFileName m ++ ".tmp"))
  = inl (mkMessage (Id m) (inboxPath (ToFileName m ++ ".tmp"))
           (ToFileName m ++ ".tmp") (CreationTimestamp m)).
Proof.
  intros Hi Ht. exact (MsgFromFileName_suffix m ".tmp" Hi Ht eq_refl eq_refl).
Qed.

Lemma tmp_file_is_a_message_witness :
  let m := mkMessage 7 "" "" 1700000000 in
  (0 <= Id m < 2 ^ 63 /\ 0 <= CreationTimestamp m < 2 ^ 63)
  /\ MsgFromFileName (inboxPath (ToFileName m ++ ".tmp"))
     = inl (mkMessage (Id m) (inboxPath (ToFileName m ++ ".tmp"))
              (ToFileName m ++ ".tmp") (CreationTimestamp m)).
Proof.
  intros m. assert (Hi : 0 <= Id m < 2 ^ 63) by (cbn; lia).
  assert (Ht : 0 <= CreationTimestamp m < 2 ^ 63) by (cbn; lia).
  split; [split; assumption|]. exact (tmp_file_is_a_message m Hi Ht).
Defined.

(** A message with a negative ID (as [NextId] gives after 2^63 - 1) is
    stored under a name starting with '-', which [MsgFromFileName]
    rejects as not a valid message file name; the scheduler skips such
    a file and changes nothing. *)
Theorem negative_id_file_is_skipped (m : Message) :
  Id m < 0 ->
  MsgFromFileName (inboxPath (ToFileName m))
  = inr ("Not a valid message filename: " ++ ToFileName m)
  /\ forall cfg n, processFile cfg (inboxPath (ToFileName m)) n = (Ret tt, n).
Proof.
  intros Hn.
  assert (E : MsgFromFileName (inboxPath (ToFileName m))
              = inr ("Not a valid message filename: " ++ ToFileName m)).
  { unfold MsgFromFileName. rewrite (Base_inboxPath _ (ToFileName_noslash m)).
    unfold ToFileName, MessageId_String, FormatInt at 1.
    replace (Id m =? 0) with false by (symmetry; apply Z.eqb_neq; lia).
    replace (Id m <? 0) with true by (symmetry; apply Z.ltb_lt; lia).
    reflexivity. }
  split; [exact E|]. intros cfg n. unfold processFile. rewrite E. reflexivity.
Qed.

Lemma negative_id_file_is_skipped_witness :
  let m := mkMessage (NextId (2 ^ 63 - 1)) "" "" 1700000000 in
  Id m < 0
  /\ (MsgFromFileName (inboxPath (ToFileName m))
      = inr ("Not a valid message filename: " ++ ToFileName m)
      /\ forall cfg n, processFile cfg (inboxPath (ToFileName m)) n = (Ret tt, n)).
Proof.
  intros m. assert (H : Id m < 0) by (vm_compute; reflexivity).
  split; [exact H | exact (negative_id_file_is_skipped m H)].
Defined.
End FileNameProofs.

Module MsgQueueProofs.
Import Message Config State Modem Delivery Scheduler MsgQueue.
Local Open Scope Z_scope.

Lemma lookupFile_removeFile_other (d : list (string * string)) (a b : string) :
  a <> b -> lookupFile (removeFile d a) b = lookupFile d b.
Proof.
  intros Hab. induction d as [|[k c] d IH]; [reflexivity|]. cbn [removeFile lookupFile].
  destruct (String.eqb_spec k a) as [->|Hka].
  - apply String.eqb_neq in Hab. rewrite Hab. exact IH.
  - cbn [lookupFile]. rewrite IH. reflexivity.
Qed.

Lemma lookupFile_cons_other (d : list (string * string)) (k c b : string) :
  k <> b -> lookupFile ((k, c) :: d) b = lookupFile d b.
Proof. intros H. cbn [lookupFile]. apply String.eqb_neq in H. rewrite H. reflexivity. Qed.

Lemma lookupFile_cons_same (d : list (string * string)) (k c : string) :
  lookupFile ((k, c) :: d) k = Some c.
Proof. cbn [lookupFile]. rewrite String.eqb_refl. reflexivity. Qed.

Lemma WasSentAlready_pending (c : internalState) (id : MessageId) :
  In id (PendingMessageIds c) -> WasSentAlready c id = false.
Proof.
  intros H. unfold WasSentAlready.
  replace (existsb (Z.eqb id) (PendingMessageIds c)) with true; [reflexivity|].
  symmetry. apply existsb_exists. exists id. split; [exact H | apply Z.eqb_refl].
Qed.

Lemma substring_all (s : string) (m : nat) :
  (String.length s <= m)%nat -> substring 0 m s = s.
Proof.
  revert m. induction s as [|a s IH]; intros [|m] Hm; cbn in Hm |- *; try reflexivity; [lia|].
  rewrite IH by lia. reflexivity.
Qed.

(** The four file system calls of [StoreMessage] (create, write, close,
    rename) succeed and the write takes every byte. *)
Definition storeSucceeds (text : string) (e : osEnv) : Prop :=
  (forall i, (i < 4)%nat -> fsErr e (fsCalls e + i) = None)
  /\ (forall m, fsCount e (S (fsCalls e)) = Some m -> (String.length text <= m)%nat).

(** A successful [StoreMessage]: one file [<id>_<now>] holding the text,
    the temporary file gone, the clock read once, nothing else changed. *)
Lemma StoreMessage_ok (id : MessageId) (text : string) (n : node) :
  storeSucceeds text (env n) ->
  let name := ToFileName (mkMessage id "" "" (clock (mw n) (reads (mw n)))) in
  StoreMessage id text n
  = (Ret None,
     mkNode (withReads (S (reads (mw n))) (mw n))
       ((name, text) :: removeFile (removeFile ((name ++ ".tmp", text)
                          :: removeFile ((name ++ ".tmp", "") :: removeFile (inbox n) (name ++ ".tmp"))
                                          (name ++ ".tmp")) (name ++ ".tmp")) name)
       (sentFiles n) (failures n) (withCalls (fsCalls (env n) + 4) (env n))).
Proof.
  intros [Hf Hc] name.
  assert (E0 : fsErr (env n) (fsCalls (env n)) = None)
    by (rewrite <- (Nat.add_0_r (fsCalls (env n))); apply Hf; lia).
  assert (E1 : fsErr (env n) (S (fsCalls (env n))) = None)
    by (replace (S (fsCalls (env n))) with (fsCalls (env n) + 1)%nat by lia; apply Hf; lia).
  assert (E2 : fsErr (env n) (S (S (fsCalls (env n)))) = None)
    by (replace (S (S (fsCalls (env n)))) with (fsCalls (env n) + 2)%nat by lia; apply Hf; lia).
  assert (E3 : fsErr (env n) (S (S (S (fsCalls (env n))))) = None)
    by (replace (S (S (S (fsCalls (env n))))) with (fsCalls (env n) + 3)%nat by lia;
        apply Hf; lia).
  assert (W : match fsCount (env n) (S (fsCalls (env n))) with
              | Some m => substring 0 m text | None => text end = text).
  { destruct (fsCount (env n) (S (fsCalls (env n)))) as [m|] eqn:Em; [|reflexivity].
    apply substring_all, Hc; reflexivity. }
  cbv beta iota zeta delta [StoreMessage nbind nret timeNow createInboxFile writeInboxFile
    closeFile renameInInbox fsCall withFiles].
  cbn [mw inbox sentFiles failures env fsErr fsCount fsCalls timeText withCalls fst snd].
  rewrite E0.
  cbn [mw inbox sentFiles failures env fsErr fsCount fsCalls timeText withCalls fst snd].
  rewrite W, E1, Nat.eqb_refl.
  cbn [mw inbox sentFiles failures env fsErr fsCount fsCalls timeText withCalls fst snd negb].
  rewrite E2.
  cbn [mw inbox sentFiles failures env fsErr fsCount fsCalls timeText withCalls fst snd].
  rewrite E3, lookupFile_cons_same. fold name.
  replace (fsCalls (env n) + 4)%nat with (S (S (S (S (fsCalls (env n)))))) by lia.
  reflexivity.
Qed.

Lemma NewMessageIdM_eq (n : node) :
  NewMessageIdM n
  = (Ret (NextMessageId (appState (mw n))),
     snd (setAppState (snd (NewMessageId (appState (mw n)))) n)).
Proof. reflexivity. Qed.

(** A non-blank request to [/sendsms] whose file system calls succeed is
    accepted: it takes the next message ID, which becomes pending (so
    not "sent already") while [NextMessageId] moves on, and leaves one
    new inbox file, named [<id>_<now>] and holding the text; the
    temporary file is gone, no other file changes and nothing is written
    to the serial port. *)
Theorem sendSms_accepts_message (text : string) (n : node) :
  String.eqb (TrimSpace text) "" = false ->
  storeSucceeds text (env n) ->
  let c := appState (mw n) in
  let id := NextMessageId c in
  let name := ToFileName (mkMessage id "" "" (clock (mw n) (reads (mw n)))) in
  let '(r, n') := sendSms text n in
  r = Ret None
  /\ PendingMessageIds (appState (mw n')) = (PendingMessageIds c ++ [id])%list
  /\ NextMessageId (appState (mw n')) = NextId id
  /\ WasSentAlready (appState (mw n')) id = false
  /\ lookupFile (inbox n') name = Some text
  /\ (forall other, other <> name ->
        lookupFile (inbox n') other
        = if String.eqb other (name ++ ".tmp") then None else lookupFile (inbox n) other)
  /\ sentFiles n' = sentFiles n /\ tx (mw n') = tx (mw n).
Proof.
  intros H Hok c id name.
  unfold sendSms. rewrite H.
  unfold nbind at 1. rewrite NewMessageIdM_eq. cbv beta iota.
  unfold nbind at 1. rewrite StoreMessage_ok by exact Hok.
  unfold setAppState.
  cbn [mw inbox sentFiles failures appState clock reads serialPortOpen opens exchanges tx
       NewMessageId withReads fst snd nret env].
  cbn [PendingMessageIds NextMessageId].
  fold c id name.
  split; [reflexivity|]. split; [reflexivity|]. split; [reflexivity|].
  split; [apply WasSentAlready_pending; cbn; apply in_or_app; right; left; reflexivity|].
  split; [apply lookupFile_cons_same|].
  split; [|split; reflexivity].
  intros other Ho. cbn [inbox].
  rewrite lookupFile_cons_other by congruence.
  rewrite lookupFile_removeFile_other by congruence.
  destruct (String.eqb_spec other (name ++ ".tmp")) as [->|Ht].
  - apply SchedulerProofs.lookupFile_removeFile.
  - repeat first [ rewrite lookupFile_cons_other by congruence
                  | rewrite lookupFile_removeFile_other by congruence ].
    reflexivity.
Qed.

Lemma sendSms_accepts_message_witness :
  let n := mkNode (mkWorld (mkState [] (Some 8) [] 11 None) false [] [] []
                     (fun _ => 1700000000) 0) [("9_100", "old")] [] [] noFaults in
  (String.eqb (TrimSpace "hello") "" = false /\ storeSucceeds "hello" (env n))
  /\ (let c := appState (mw n) in
      let id := NextMessageId c in
      let name := ToFileName (mkMessage id "" "" (clock (mw n) (reads (mw n)))) in
      let '(r, n') := sendSms "hello" n in
      r = Ret None
      /\ PendingMessageIds (appState (mw n')) = (PendingMessageIds c ++ [id])%list
      /\ NextMessageId (appState (mw n')) = NextId id
      /\ WasSentAlready (appState (mw n')) id = false
      /\ lookupFile (inbox n') name = Some "hello"
      /\ (forall other, other <> name ->
            lookupFile (inbox n') other
            = if String.eqb other (name ++ ".tmp") then None else lookupFile (inbox n) other)
      /\ sentFiles n' = sentFiles n /\ tx (mw n') = tx (mw n)).
Proof.
  intros n. assert (H : String.eqb (TrimSpace "hello") "" = false) by (vm_compute; reflexivity).
  assert (H2 : storeSucceeds "hello" (env n))
    by (split; [intros i _; reflexivity | intros m Hm; discriminate]).
  split; [split; [exact H | exact H2] | exact (sendSms_accepts_message "hello" n H H2)].
Defined.
End MsgQueueProofs.

Module StateExtraProofs.
Import Message Util Config State.
Local Open Scope Z_scope.

Lemma deletePendingMessageId_app_last (x : Z) (l : list Z) :
  ~ In x l -> deletePendingMessageId x (l ++ [x])%list = l.
Proof.
  induction l as [|y l IH]; intros Hx; cbn [app deletePendingMessageId].
  - rewrite Z.eqb_refl. reflexivity.
  - destruct (Z.eqb_spec y x) as [->|Hne]; [exfalso; apply Hx; left; reflexivity|].
    rewrite IH; [reflexivity|]. intros H. apply Hx. right. exact H.
Qed.

Lemma deletePendingMessageId_incl (x y : Z) (l : list Z) :
  In x (deletePendingMessageId y l) -> In x l.
Proof.
  induction l as [|z l IH]; cbn [deletePendingMessageId]; [auto|].
  destruct (z =? y); [intros H; right; exact H|].
  intros [H|H]; [left; exact H | right; exact (IH H)].
Qed.

Lemma WasSentAlready_not_pending (c : internalState) (id last : MessageId) :
  ~ In id (PendingMessageIds c) -> LastSuccessfulMessageId c = Some last -> id <= last ->
  WasSentAlready c id = true.
Proof.
  intros Hp Hl Hle. unfold WasSentAlready. rewrite Hl.
  replace (existsb (Z.eqb id) (PendingMessageIds c)) with false.
  - unfold Message.Compare. replace (last <? id) with false by (symmetry; apply Z.ltb_ge; lia).
    reflexivity.
  - symmetry. apply Bool.not_true_iff_false. intros E.
    apply existsb_exists in E as [x [Hx Ex]]. apply Z.eqb_eq in Ex. subst. contradiction.
Qed.

(** [NewMessageId] followed by [DiscardMessageId] of the ID it returned
    (the error path of the [/sendsms] handler) gives back the pending
    list from before, when that ID was not pending already; the next
    message ID stays advanced, so the ID is not handed out again. *)
Theorem NewMessageId_DiscardMessageId (c : internalState) :
  ~ In (NextMessageId c) (PendingMessageIds c) ->
  let '(id, c1) := NewMessageId c in
  PendingMessageIds (DiscardMessageId c1 id) = PendingMessageIds c
  /\ NextMessageId (DiscardMessageId c1 id) = NextId (NextMessageId c).
Proof.
  intros H. cbn [NewMessageId DiscardMessageId PendingMessageIds NextMessageId].
  split; [apply deletePendingMessageId_app_last; exact H | reflexivity].
Qed.

Lemma NewMessageId_DiscardMessageId_witness :
  let c := mkState [] (Some 8) [9; 10] 11 None in
  ~ In (NextMessageId c) (PendingMessageIds c)
  /\ let '(id, c1) := NewMessageId c in
     PendingMessageIds (DiscardMessageId c1 id) = PendingMessageIds c
     /\ NextMessageId (DiscardMessageId c1 id) = NextId (NextMessageId c).
Proof.
  intros c. assert (H : ~ In (NextMessageId c) (PendingMessageIds c)).
  { cbn. intros [E|[E|[]]]; discriminate. }
  split; [exact H | exact (NewMessageId_DiscardMessageId c H)].
Defined.

(** After [RememberSmsSend] of a message, [WasSentAlready] holds for its
    ID (when no ID was pending twice) and for every lower ID that was not
    pending. *)
Theorem RememberSmsSend_then_WasSentAlready (cfg : Config) (now : Z)
  (c c' : internalState) (msgId : MessageId) :
  NoDup (PendingMessageIds c) ->
  RememberSmsSend cfg now c msgId = Some c' ->
  WasSentAlready c' msgId = true
  /\ forall id, id <= msgId -> ~ In id (PendingMessageIds c) -> WasSentAlready c' id = true.
Proof.
  intros Hnd H.
  destruct (StateProofs.RememberSmsSend_shape _ _ _ _ _ H) as (Hl & Hp & _).
  split.
  - apply (WasSentAlready_not_pending c' msgId msgId); [|exact Hl | lia].
    rewrite Hp. apply StateProofs.deletePendingMessageId_not_in. exact Hnd.
  - intros id Hle Hin. apply (WasSentAlready_not_pending c' id msgId); [|exact Hl | exact Hle].
    rewrite Hp. intros Hd. apply Hin. exact (deletePendingMessageId_incl _ _ _ Hd).
Qed.

Lemma RememberSmsSend_then_WasSentAlready_witness :
  let cfg := mkConfig None None false ["+4912345"] "1234" [] false false in
  let c := mkState [] (Some 3) [5; 6] 7 None in
  exists c',
  (NoDup (PendingMessageIds c) /\ RememberSmsSend cfg 1000 c 5 = Some c')
  /\ (WasSentAlready c' 5 = true
      /\ forall id, id <= 5 -> ~ In id (PendingMessageIds c) -> WasSentAlready c' id = true).
Proof.
  intros cfg c.
  assert (Hnd : NoDup (PendingMessageIds c)).
  { cbn. constructor; [intros [E|[]]; discriminate|]. constructor; [intros []|constructor]. }
  set (c' := mkState [1000] (Some 5) [6] 7 None).
  assert (E : RememberSmsSend cfg 1000 c 5 = Some c') by (vm_compute; reflexivity).
  exists c'. split; [split; [exact Hnd | exact E]|].
  exact (RememberSmsSend_then_WasSentAlready cfg 1000 c c' 5 Hnd E).
Defined.
End StateExtraProofs.

Module DeliveryProofs.
Import Message Modem Delivery Scheduler.
Local Open Scope Z_scope.

Lemma lookupFailure_deleteFailure_same (m : failureMap) (msgId : MessageId) :
  lookupFailure (deleteFailure m msgId) msgId = None.
Proof.
  induction m as [|[k f] m IH]; [reflexivity|]. cbn [deleteFailure].
  destruct (Z.eqb_spec k msgId) as [->|Hne]; [exact IH|].
  cbn [lookupFailure]. apply Z.eqb_neq in Hne. rewrite Hne. exact IH.
Qed.

Lemma lookupFailure_failedAt_same (m : failureMap) (msgId : MessageId) (t : Z) :
  lookupFailure (failedAt m msgId t) msgId
  = Some (mkFailure (match lookupFailure m msgId with
                     | Some f => FailureCount f
                     | None => 0 end + 1) t).
Proof.
  unfold failedAt. destruct (lookupFailure m msgId); cbn [lookupFailure];
    rewrite Z.eqb_refl; reflexivity.
Qed.

(** [DeliverySuccessful] followed by [IsDue] of the same message: the
    message is due at once, without the clock being read; only the
    message's failure entry is removed. *)
Theorem DeliverySuccessful_then_IsDue (msgId : MessageId) (n : node) :
  (DeliverySuccessful msgId ;;;; IsDue msgId) n
  = (Ret true, withFailures (deleteFailure (failures n) msgId) n).
Proof.
  unfold nbind, DeliverySuccessful, IsDue. cbn [failures withFailures].
  rewrite lookupFailure_deleteFailure_same. reflexivity.
Qed.

(** [DeliveryFailed] at clock time [t] followed by [IsDue] of the same
    message at clock time [t']: with [k] earlier failures the message is
    due again exactly when [t + min(k+1, 10)^3 <= t'] (the first retry
    after 1 s, the delay capped at 1000 s). *)
Theorem DeliveryFailed_then_IsDue (msgId : MessageId) (n : node) :
  let k := match lookupFailure (failures n) msgId with
           | Some f => FailureCount f
           | None => 0 end in
  let t := clock (mw n) (reads (mw n)) in
  let t' := clock (mw n) (S (reads (mw n))) in
  fst ((DeliveryFailed msgId ;;;; IsDue msgId) n) = Ret (t + Z.min (k + 1) 10 ^ 3 <=? t').
Proof.
  intros k t t'.
  unfold DeliveryFailed, IsDue, lift, nowM, bind, ret, withFailures, nbind.
  cbn [failures mw clock reads withReads fst].
  rewrite lookupFailure_failedAt_same. fold k.
  unfold dueAt. cbn [FailureCount LastFailureTimestamp clock reads withReads mw].
  fold t t'. destruct (Z.ltb_spec 10 (k + 1)).
  - rewrite Z.min_r by lia. reflexivity.
  - rewrite Z.min_l by lia. reflexivity.
Qed.

(** Whatever its number of failures, a message whose last delivery
    failure lies 1000 s or more in the past is due. *)
Theorem IsDue_after_1000_seconds (msgId : MessageId) (n : node) (f : DeliveryFailure) :
  lookupFailure (failures n) msgId = Some f ->
  LastFailureTimestamp f + 1000 <= clock (mw n) (reads (mw n)) ->
  fst (IsDue msgId n) = Ret true.
Proof.
  intros Hf Ht. unfold IsDue. rewrite Hf.
  unfold lift, bind, nowM, ret. cbn [fst mw clock reads withReads].
  unfold dueAt. f_equal. apply Z.leb_le.
  set (cnt := if 10 <? FailureCount f then 10 else FailureCount f).
  assert (Hc : cnt <= 10) by (unfold cnt; destruct (Z.ltb_spec 10 (FailureCount f)); lia).
  assert (cnt ^ 3 <= 1000).
  { destruct (Z_lt_le_dec cnt 0) as [Hn|Hp].
    - change (cnt ^ 3) with (cnt * (cnt * (cnt * 1))). nia.
    - change 1000 with (10 ^ 3). apply Z.pow_le_mono_l. lia. }
  lia.
Qed.

Lemma IsDue_after_1000_seconds_witness :
  let f := mkFailure 25 5000 in
  let n := mkNode (mkWorld (State.mkState [] None [] 1 None) false [] [] []
                     (fun _ => 6000) 0) [] [] [(3, f)] noFaults in
  (lookupFailure (failures n) 3 = Some f
   /\ LastFailureTimestamp f + 1000 <= clock (mw n) (reads (mw n)))
  /\ fst (IsDue 3 n) = Ret true.
Proof.
  intros f n.
  assert (H1 : lookupFailure (failures n) 3 = Some f) by reflexivity.
  assert (H2 : LastFailureTimestamp f + 1000 <= clock (mw n) (reads (mw n))) by (cbn; lia).
  split; [split; assumption|]. exact (IsDue_after_1000_seconds 3 n f H1 H2).
Defined.
End DeliveryProofs.

Module ModemExtraProofs.
Import Config State Modem.
Import ModemProofs.

(** The bytes [sendCmd] writes for a command. *)
Lemma sendCmd_lines (cmd : string) (req : bool) (w : world) (l : list string)
  (rest : list exchange) :
  serialPortOpen w = true -> String.eqb (TrimSpace cmd) "" = false ->
  exchanges w = XLines l :: rest ->
  sendCmd cmd req w
  = (Ret (l, None), addTx (if endsWithCR cmd then cmd else cmd ++ crString)
                      (withExchanges rest w)).
Proof.
  intros Ho Hb Hx. unfold sendCmd. rewrite Ho, Hb. cbn [negb].
  unfold sendBytes, internalSendBytes, bind. cbv beta. rewrite Ho, Hx. reflexivity.
Qed.

Lemma sendBytes_error_closes (bytes : string) (req : bool) (w w1 : world)
  (r : list string * option string) :
  sendBytes bytes req w = (Ret r, w1) -> snd r <> None -> serialPortOpen w1 = false.
Proof.
  unfold sendBytes. intros H Hn.
  apply bind_ret_inv in H as (r0 & w0 & _ & H).
  destruct (snd r0) eqn:E.
  - apply bind_ret_inv in H as (u & w2 & H2 & H). apply ret_inv in H as [_ <-].
    unfold internalClose in H2. injection H2 as _ <-. reflexivity.
  - apply ret_inv in H as [<- _]. contradiction.
Qed.

(** A non-blank command whose exchange with the modem fails (reset,
    write, drain or read error) closes the serial port; [sendCmd]
    returns no lines and the error prefixed by "Failed to send bytes - ". *)
Theorem sendCmd_error_closes_port (cmd : string) (req : bool) (w w' : world)
  (ls : list string) (err : string) :
  String.eqb (TrimSpace cmd) "" = false ->
  sendCmd cmd req w = (Ret (ls, Some err), w') ->
  serialPortOpen w' = false /\ ls = [] /\ exists e, err = "Failed to send bytes - " ++ e.
Proof.
  intros Hb H. unfold sendCmd in H.
  destruct (negb (serialPortOpen w)); [discriminate|]. rewrite Hb in H.
  apply bind_ret_inv in H as (r & w1 & H1 & H).
  destruct (snd r) as [e|] eqn:E.
  - apply ret_inv in H as [Er <-]. injection Er as <- <-.
    split; [apply (sendBytes_error_closes _ _ _ _ _ H1); congruence|].
    split; [reflexivity | exists e; reflexivity].
  - apply ret_inv in H as [Er _]. injection Er as _ Ee. discriminate.
Qed.

Lemma sendCmd_error_closes_port_witness :
  let w := mkWorld (mkState [] None [] 1%Z None) true [] [XReadErr "timeout"] []
             (fun _ => 0%Z) 0 in
  exists w',
  (String.eqb (TrimSpace "AT+CMGF=1") "" = false
   /\ sendCmd "AT+CMGF=1" true w = (Ret ([], Some "Failed to send bytes - timeout"), w'))
  /\ (serialPortOpen w' = false /\ @nil string = []
      /\ exists e, "Failed to send bytes - timeout" = "Failed to send bytes - " ++ e).
Proof.
  intros w. set (w' := snd (sendCmd "AT+CMGF=1" true w)).
  assert (H1 : String.eqb (TrimSpace "AT+CMGF=1") "" = false) by (vm_compute; reflexivity).
  assert (H2 : sendCmd "AT+CMGF=1" true w
               = (Ret ([], Some "Failed to send bytes - timeout"), w'))
    by (vm_compute; reflexivity).
  exists w'. split; [split; assumption|].
  exact (sendCmd_error_closes_port _ _ _ _ _ _ H1 H2).
Defined.

(** The init commands before the one that fails, each answered with OK,
    are written in order, each terminated by CR. *)
Lemma runInitCmds_ok_prefix (pre : list string) :
  forall (answers : list (list string)) (rest : list exchange) (w : world),
  serialPortOpen w = true ->
  Forall (fun cmd => String.eqb (TrimSpace cmd) "" = false) pre ->
  Forall (fun l => isOK l = true) answers ->
  List.length answers = List.length pre ->
  exchanges w = (map XLines answers ++ rest)%list ->
  exists w1, (forall post, runInitCmds (pre ++ post)%list w = runInitCmds post w1)
    /\ tx w1 = (tx w ++ map (fun cmd => if endsWithCR cmd then cmd else (cmd ++ crString)%string) pre)%list
    /\ exchanges w1 = rest /\ serialPortOpen w1 = true.
Proof.
  induction pre as [|c pre IH]; intros answers rest w Ho Hb Hok Hlen Hx.
  - destruct answers; [|discriminate]. exists w.
    split; [reflexivity|]. rewrite app_nil_r. auto.
  - destruct answers as [|a answers]; [discriminate|].
    inversion Hb as [|? ? Hc Hb']; subst. inversion Hok as [|? ? Ha Hok']; subst.
    cbn [map app] in Hx.
    destruct (IH answers rest (addTx (if endsWithCR c then c else (c ++ crString)%string)
                                 (withExchanges (map XLines answers ++ rest) w)))
      as (w1 & Hrun & Htx & Hx1 & Ho1); [exact Ho | exact Hb' | exact Hok' |
                                        cbn in Hlen; lia | reflexivity|].
    exists w1. split; [|split; [|split; assumption]].
    + intros post. cbn [app runInitCmds]. unfold bind at 1.
      rewrite (sendCmd_lines c false w a _ Ho Hc Hx). cbn [snd fst].
      unfold isError. rewrite Ha. cbn [negb]. apply Hrun.
    + rewrite Htx. cbn [tx addTx withExchanges map]. rewrite <- app_assoc. reflexivity.
Qed.

(** [initModem]'s loop over [GetModemInitCmds]: when every command is
    non-blank and answered with OK, the commands are written in order,
    each terminated by CR, the port stays open and no error is returned. *)
Theorem runInitCmds_all_ok (cmds : list string) (answers : list (list string))
  (rest : list exchange) (w : world) :
  serialPortOpen w = true ->
  Forall (fun cmd => String.eqb (TrimSpace cmd) "" = false) cmds ->
  Forall (fun l => isOK l = true) answers ->
  List.length answers = List.length cmds ->
  exchanges w = (map XLines answers ++ rest)%list ->
  exists w', runInitCmds cmds w = (Ret None, w')
    /\ tx w' = (tx w ++ map (fun cmd => if endsWithCR cmd then cmd else (cmd ++ crString)%string) cmds)%list
    /\ serialPortOpen w' = true /\ exchanges w' = rest.
Proof.
  intros Ho Hb Hok Hlen Hx.
  destruct (runInitCmds_ok_prefix cmds answers rest w Ho Hb Hok Hlen Hx)
    as (w1 & Hrun & Htx & Hx1 & Ho1).
  specialize (Hrun []). rewrite app_nil_r in Hrun.
  exists w1. rewrite Hrun. cbn [runInitCmds]. auto.
Qed.

Lemma runInitCmds_all_ok_witness :
  let w := mkWorld (mkState [] None [] 1%Z None) true [] [XLines ["OK"]; XLines ["OK"]] []
             (fun _ => 0%Z) 0 in
  (serialPortOpen w = true
   /\ Forall (fun cmd => String.eqb (TrimSpace cmd) "" = false) ["ATE0"; "AT+CMEE=1"]
   /\ Forall (fun l => isOK l = true) [["OK"]; ["OK"]]
   /\ List.length [["OK"]; ["OK"]] = List.length ["ATE0"; "AT+CMEE=1"]
   /\ exchanges w = (map XLines [["OK"]; ["OK"]] ++ [])%list)
  /\ exists w', runInitCmds ["ATE0"; "AT+CMEE=1"] w = (Ret None, w')
    /\ tx w' = (tx w ++ map (fun cmd => if endsWithCR cmd then cmd else (cmd ++ crString)%string)
                              ["ATE0"; "AT+CMEE=1"])%list
    /\ serialPortOpen w' = true /\ exchanges w' = [].
Proof.
  intros w.
  assert (H1 : serialPortOpen w = true) by reflexivity.
  assert (H2 : Forall (fun cmd => String.eqb (TrimSpace cmd) "" = false) ["ATE0"; "AT+CMEE=1"])
    by (repeat constructor).
  assert (H3 : Forall (fun l => isOK l = true) [["OK"]; ["OK"]]) by (repeat constructor).
  assert (H4 : List.length [["OK"]; ["OK"]] = List.length ["ATE0"; "AT+CMEE=1"]) by reflexivity.
  assert (H5 : exchanges w = (map XLines [["OK"]; ["OK"]] ++ [])%list) by reflexivity.
  split; [repeat split; assumption|].
  exact (runInitCmds_all_ok _ _ _ w H1 H2 H3 H4 H5).
Defined.

(** An init command answered without OK stops [initModem]'s loop: the
    commands after it are never written, the port is closed and the
    error is returned. *)
Theorem runInitCmds_stops_at_error (pre post : list string) (cmd : string)
  (answers : list (list string)) (l : list string) (rest : list exchange) (w : world) :
  serialPortOpen w = true ->
  Forall (fun c => String.eqb (TrimSpace c) "" = false) pre ->
  Forall (fun a => isOK a = true) answers ->
  List.length answers = List.length pre ->
  exchanges w = (map XLines answers ++ XLines l :: rest)%list ->
  String.eqb (TrimSpace cmd) "" = false -> isOK l = false ->
  exists w', runInitCmds (pre ++ cmd :: post)%list w
             = (Ret (Some ("Running modem initialization cmd " ++ cmd
                           ++ " returned an error: " ++ respString l)), w')
    /\ tx w' = (tx w ++ map (fun c => if endsWithCR c then c else (c ++ crString)%string)
                            (pre ++ [cmd])%list)%list
    /\ serialPortOpen w' = false /\ exchanges w' = rest.
Proof.
  intros Ho Hb Hok Hlen Hx Hc Hl.
  destruct (runInitCmds_ok_prefix pre answers (XLines l :: rest) w Ho Hb Hok Hlen Hx)
    as (w1 & Hrun & Htx & Hx1 & Ho1).
  rewrite Hrun. cbn [runInitCmds]. unfold bind at 1.
  rewrite (sendCmd_lines cmd false w1 l rest Ho1 Hc Hx1). cbn [snd fst].
  unfold isError. rewrite Hl. cbn [negb].
  eexists. split; [reflexivity|]. cbn.
  rewrite Htx, map_app, app_assoc. auto.
Qed.

Lemma runInitCmds_stops_at_error_witness :
  let w := mkWorld (mkState [] None [] 1%Z None) true []
             [XLines ["OK"]; XLines ["ERROR"]] [] (fun _ => 0%Z) 0 in
  (serialPortOpen w = true
   /\ Forall (fun c => String.eqb (TrimSpace c) "" = false) ["ATE0"]
   /\ Forall (fun a => isOK a = true) [["OK"]]
   /\ List.length [["OK"]] = List.length ["ATE0"]
   /\ exchanges w = (map XLines [["OK"]] ++ XLines ["ERROR"] :: [])%list
   /\ String.eqb (TrimSpace "AT+BAD") "" = false /\ isOK ["ERROR"] = false)
  /\ exists w', runInitCmds (["ATE0"] ++ "AT+BAD" :: ["AT+CMEE=1"])%list w
             = (Ret (Some ("Running modem initialization cmd " ++ "AT+BAD"
                           ++ " returned an error: " ++ respString ["ERROR"])), w')
    /\ tx w' = (tx w ++ map (fun c => if endsWithCR c then c else (c ++ crString)%string)
                            (["ATE0"] ++ ["AT+BAD"])%list)%list
    /\ serialPortOpen w' = false /\ exchanges w' = [].
Proof.
  intros w.
  assert (H1 : serialPortOpen w = true) by reflexivity.
  assert (H2 : Forall (fun c => String.eqb (TrimSpace c) "" = false) ["ATE0"])
    by (repeat constructor).
  assert (H3 : Forall (fun a => isOK a = true) [["OK"]]) by (repeat constructor).
  assert (H4 : List.length [["OK"]] = List.length ["ATE0"]) by reflexivity.
  assert (H5 : exchanges w = (map XLines [["OK"]] ++ XLines ["ERROR"] :: [])%list)
    by reflexivity.
  assert (H6 : String.eqb (TrimSpace "AT+BAD") "" = false) by (vm_compute; reflexivity).
  assert (H7 : isOK ["ERROR"] = false) by reflexivity.
  split; [repeat split; assumption|].
  exact (runInitCmds_stops_at_error ["ATE0"] ["AT+CMEE=1"] "AT+BAD" _ _ _ w
           H1 H2 H3 H4 H5 H6 H7).
Defined.

(** A blank init command stops [initModem]'s loop: it is not written,
    the port is closed and the blank-command error is returned. *)
Theorem runInitCmds_blank_cmd (pre post : list string) (cmd : string)
  (answers : list (list string)) (rest : list exchange) (w : world) :
  serialPortOpen w = true ->
  Forall (fun c => String.eqb (TrimSpace c) "" = false) pre ->
  Forall (fun a => isOK a = true) answers ->
  List.length answers = List.length pre ->
  exchanges w = (map XLines answers ++ rest)%list ->
  String.eqb (TrimSpace cmd) "" = true ->
  exists w', runInitCmds (pre ++ cmd :: post)%list w
             = (Ret (Some "Command string cannot be blank or empty"), w')
    /\ tx w' = (tx w ++ map (fun c => if endsWithCR c then c else (c ++ crString)%string) pre)%list
    /\ serialPortOpen w' = false /\ exchanges w' = rest.
Proof.
  intros Ho Hb Hok Hlen Hx Hc.
  destruct (runInitCmds_ok_prefix pre answers rest w Ho Hb Hok Hlen Hx)
    as (w1 & Hrun & Htx & Hx1 & Ho1).
  rewrite Hrun. cbn [runInitCmds]. unfold bind at 1, sendCmd.
  rewrite Ho1, Hc. cbn [negb].
  eexists. split; [reflexivity|]. cbn. auto.
Qed.

Lemma runInitCmds_blank_cmd_witness :
  let w := mkWorld (mkState [] None [] 1%Z None) true [] [XLines ["OK"]] []
             (fun _ => 0%Z) 0 in
  (serialPortOpen w = true
   /\ Forall (fun c => String.eqb (TrimSpace c) "" = false) ["ATE0"]
   /\ Forall (fun a => isOK a = true) [["OK"]]
   /\ List.length [["OK"]] = List.length ["ATE0"]
   /\ exchanges w = (map XLines [["OK"]] ++ [])%list
   /\ String.eqb (TrimSpace "  ") "" = true)
  /\ exists w', runInitCmds (["ATE0"] ++ "  " :: ["AT+CMEE=1"])%list w
             = (Ret (Some "Command string cannot be blank or empty"), w')
    /\ tx w' = (tx w ++ map (fun c => if endsWithCR c then c else (c ++ crString)%string)
                            ["ATE0"])%list
    /\ serialPortOpen w' = false /\ exchanges w' = [].
Proof.
  intros w.
  assert (H1 : serialPortOpen w = true) by reflexivity.
  assert (H2 : Forall (fun c => String.eqb (TrimSpace c) "" = false) ["ATE0"])
    by (repeat constructor).
  assert (H3 : Forall (fun a => isOK a = true) [["OK"]]) by (repeat constructor).
  assert (H4 : List.length [["OK"]] = List.length ["ATE0"]) by reflexivity.
  assert (H5 : exchanges w = (map XLines [["OK"]] ++ [])%list) by reflexivity.
  assert (H6 : String.eqb (TrimSpace "  ") "" = true) by (vm_compute; reflexivity).
  split; [repeat split; assumption|].
  exact (runInitCmds_blank_cmd ["ATE0"] ["AT+CMEE=1"] "  " _ _ w H1 H2 H3 H4 H5 H6).
Defined.

Lemma getResponseLineFor_CPIN (lines : list string) :
  getResponseLineFor lines "AT+CPIN" = Some (getLineByPrefix lines "+CPIN").
Proof. reflexivity. Qed.

Lemma getLineByPrefix_prefix (lines : list string) (p line : string) :
  getLineByPrefix lines p = Some line -> String.prefix p line = true.
Proof.
  induction lines as [|a lines IH]; cbn [getLineByPrefix]; [discriminate|].
  destruct (String.prefix p (TrimSpace a)) eqn:E; [|exact IH].
  intros H. injection H as <-. exact E.
Qed.

Lemma prefix_CPIN_not_PUK (line : string) :
  String.prefix "+CPIN" line = true -> String.prefix "SIM PUK" line = false.
Proof.
  destruct line as [|a r]; [discriminate|]. cbn [String.prefix].
  destruct (Ascii.ascii_dec "+" a) as [<-|]; [reflexivity | discriminate].
Qed.

Lemma TrimSpace_nonblank_head (a : ascii) (r : string) :
  wsLen (String a r) = 0%nat -> String.eqb (TrimSpace (String a r)) "" = false.
Proof.
  intros H. unfold TrimSpace. cbn [String.length trimLeftSpace]. rewrite H.
  cbn [trimRightSpace]. rewrite H. reflexivity.
Qed.

Lemma endsWithCR_pinCmd (pin : string) :
  endsWithCR ("AT+CPIN=" ++ dq ++ pin ++ dq) = false.
Proof.
  unfold endsWithCR.
  replace ("AT+CPIN=" ++ dq ++ pin ++ dq)
    with (("AT+CPIN=" ++ dq ++ pin) ++ String (ascii_of_nat 34) EmptyString)
    by (rewrite !ParserProofs.string_app_assoc; reflexivity).
  rewrite lastByte_app_single. reflexivity.
Qed.

(** [queryPinState] never reports [MODEM_PIN_PUK_REQUIRED]: the line it
    inspects is the one found by the prefix "+CPIN", which cannot start
    with "SIM PUK". *)
Theorem queryPinState_never_PUK (w w' : world) (r : ModemPinState * option string) :
  queryPinState w = (Ret r, w') -> fst r <> MODEM_PIN_PUK_REQUIRED.
Proof.
  unfold queryPinState. intros H.
  apply bind_ret_inv in H as (a & w1 & _ & Hk).
  destruct a as [lines [e|]]; cbn [fst snd] in Hk.
  - apply ret_inv in Hk as [<- _]. discriminate.
  - rewrite getResponseLineFor_CPIN in Hk.
    destruct (getLineByPrefix lines "+CPIN") as [line|] eqn:E.
    + rewrite (prefix_CPIN_not_PUK line (getLineByPrefix_prefix _ _ _ E)) in Hk.
      destruct (ModemParser.contains line "READY");
        [apply ret_inv in Hk as [<- _]; discriminate|].
      destruct (ModemParser.contains line "SIM PIN");
        apply ret_inv in Hk as [<- _]; discriminate.
    + destruct (getLineByPrefix lines "+CME ERROR");
        apply ret_inv in Hk as [<- _]; discriminate.
Qed.

Lemma queryPinState_never_PUK_witness :
  let w := mkWorld (mkState [] None [] 1%Z None) true []
             [XLines ["+CPIN: SIM PUK"; "OK"]] [] (fun _ => 0%Z) 0 in
  let r := (MODEM_PIN_RESPONSE_NOT_RECOGNIZED,
            Some ("Modem sent unexpected response to AT+CPIN?: "
                  ++ respString ["+CPIN: SIM PUK"; "OK"])) in
  queryPinState w = (Ret r, addTx ("AT+CPIN?" ++ crString) (withExchanges [] w))
  /\ fst r <> MODEM_PIN_PUK_REQUIRED.
Proof.
  intros w r.
  assert (H : queryPinState w = (Ret r, addTx ("AT+CPIN?" ++ crString) (withExchanges [] w)))
    by (vm_compute; reflexivity).
  split; [exact H | exact (queryPinState_never_PUK _ _ _ H)].
Defined.

(** [unlockSim] when the SIM reports READY: only "AT+CPIN?" is written,
    the PIN is never sent, and no error is returned. *)
Theorem unlockSim_ready_sends_no_pin (cfg : Config) (w : world) (l : list string)
  (rest : list exchange) (line : string) :
  serialPortOpen w = true -> exchanges w = XLines l :: rest ->
  getLineByPrefix l "+CPIN" = Some line -> ModemParser.contains line "READY" = true ->
  unlockSim cfg w = (Ret None, addTx ("AT+CPIN?" ++ crString) (withExchanges rest w)).
Proof.
  intros Ho Hx Hl Hr.
  unfold unlockSim, queryPinState, bind. cbv beta.
  rewrite (sendCmd_lines "AT+CPIN?" false w l rest Ho eq_refl Hx). cbn [fst snd].
  rewrite getResponseLineFor_CPIN, Hl, Hr. reflexivity.
Qed.

Lemma unlockSim_ready_sends_no_pin_witness :
  let cfg := mkConfig None None false [] "1234" [] false false in
  let w := mkWorld (mkState [] None [] 1%Z None) true []
             [XLines ["+CPIN: READY"; "OK"]] [] (fun _ => 0%Z) 0 in
  (serialPortOpen w = true /\ exchanges w = XLines ["+CPIN: READY"; "OK"] :: []
   /\ getLineByPrefix ["+CPIN: READY"; "OK"] "+CPIN" = Some "+CPIN: READY"
   /\ ModemParser.contains "+CPIN: READY" "READY" = true)
  /\ unlockSim cfg w = (Ret None, addTx ("AT+CPIN?" ++ crString) (withExchanges [] w)).
Proof.
  intros cfg w.
  assert (H1 : serialPortOpen w = true) by reflexivity.
  assert (H2 : exchanges w = XLines ["+CPIN: READY"; "OK"] :: []) by reflexivity.
  assert (H3 : getLineByPrefix ["+CPIN: READY"; "OK"] "+CPIN" = Some "+CPIN: READY")
    by (vm_compute; reflexivity).
  assert (H4 : ModemParser.contains "+CPIN: READY" "READY" = true) by (vm_compute; reflexivity).
  split; [repeat split; assumption|].
  exact (unlockSim_ready_sends_no_pin cfg w _ [] _ H1 H2 H3 H4).
Defined.

(** [unlockSim] when the SIM asks for its PIN: "AT+CPIN?" and then
    AT+CPIN="<configured pin>" are written, each ended by CR; the result
    is an error exactly when the PIN reply has no OK line. *)
Theorem unlockSim_sends_pin (cfg : Config) (w : world) (l1 l2 : list string)
  (rest : list exchange) (line : string) :
  serialPortOpen w = true -> exchanges w = XLines l1 :: XLines l2 :: rest ->
  getLineByPrefix l1 "+CPIN" = Some line ->
  ModemParser.contains line "READY" = false -> ModemParser.contains line "SIM PIN" = true ->
  exists w', unlockSim cfg w
             = (Ret (if isOK l2 then None
                     else Some ("Unlocking PIN returned error response: " ++ respString l2)), w')
    /\ tx w' = (tx w ++ [("AT+CPIN?" ++ crString)%string;
                         ("AT+CPIN=" ++ dq ++ GetSimPin cfg ++ dq ++ crString)%string])%list
    /\ exchanges w' = rest /\ serialPortOpen w' = true.
Proof.
  intros Ho Hx Hl Hr Hp.
  unfold unlockSim, queryPinState, bind. cbv beta.
  rewrite (sendCmd_lines "AT+CPIN?" false w l1 (XLines l2 :: rest) Ho eq_refl Hx).
  cbn [fst snd]. rewrite getResponseLineFor_CPIN, Hl, Hr, Hp.
  cbv beta iota delta [ret fst snd]. unfold sendPin, bind. cbv beta.
  assert (Hb : String.eqb (TrimSpace ("AT+CPIN=" ++ dq ++ GetSimPin cfg ++ dq)) "" = false)
    by exact (TrimSpace_nonblank_head "A" ("T+CPIN=" ++ dq ++ GetSimPin cfg ++ dq) eq_refl).
  erewrite (sendCmd_lines _ true _ l2 rest); [| exact Ho | exact Hb | reflexivity].
  cbn [fst snd].
  rewrite endsWithCR_pinCmd. unfold isError.
  eexists. split.
  - destruct (isOK l2); reflexivity.
  - cbn. rewrite <- app_assoc, ParserProofs.string_app_assoc.
    repeat split; try reflexivity; exact Ho.
Qed.

Lemma unlockSim_sends_pin_witness :
  let cfg := mkConfig None None false [] "1234" [] false false in
  let w := mkWorld (mkState [] None [] 1%Z None) true []
             [XLines ["+CPIN: SIM PIN"; "OK"]; XLines ["OK"]] [] (fun _ => 0%Z) 0 in
  (serialPortOpen w = true
   /\ exchanges w = XLines ["+CPIN: SIM PIN"; "OK"] :: XLines ["OK"] :: []
   /\ getLineByPrefix ["+CPIN: SIM PIN"; "OK"] "+CPIN" = Some "+CPIN: SIM PIN"
   /\ ModemParser.contains "+CPIN: SIM PIN" "READY" = false
   /\ ModemParser.contains "+CPIN: SIM PIN" "SIM PIN" = true)
  /\ exists w', unlockSim cfg w
             = (Ret (if isOK ["OK"] then None
                     else Some ("Unlocking PIN returned error response: " ++ respString ["OK"])), w')
    /\ tx w' = (tx w ++ [("AT+CPIN?" ++ crString)%string;
                         ("AT+CPIN=" ++ dq ++ GetSimPin cfg ++ dq ++ crString)%string])%list
    /\ exchanges w' = [] /\ serialPortOpen w' = true.
Proof.
  intros cfg w.
  assert (H1 : serialPortOpen w = true) by reflexivity.
  assert (H2 : exchanges w = XLines ["+CPIN: SIM PIN"; "OK"] :: XLines ["OK"] :: [])
    by reflexivity.
  assert (H3 : getLineByPrefix ["+CPIN: SIM PIN"; "OK"] "+CPIN" = Some "+CPIN: SIM PIN")
    by (vm_compute; reflexivity).
  assert (H4 : ModemParser.contains "+CPIN: SIM PIN" "READY" = false)
    by (vm_compute; reflexivity).
  assert (H5 : ModemParser.contains "+CPIN: SIM PIN" "SIM PIN" = true)
    by (vm_compute; reflexivity).
  split; [repeat split; assumption|].
  exact (unlockSim_sends_pin cfg w _ _ [] _ H1 H2 H3 H4 H5).
Defined.
End ModemExtraProofs.

Module SchedulerExtraProofs.
Import Message Config State Modem Delivery Scheduler.
Import SchedulerProofs.
Local Open Scope Z_scope.

Lemma length_nonempty (s : string) : s <> EmptyString -> Nat.eqb (String.length s) 0 = false.
Proof. destruct s; [congruence | reflexivity]. Qed.

Ltac unfold_sched :=
  cbv beta iota zeta delta [sendMessage nbind nret getAppState readInboxFile lift
    RememberSmsSendM renameToSent DeliverySuccessful DeliveryFailed setAppState nowM
    bind ret removeInboxFile withFiles withFailures withReads fsCall withCalls].

Ltac red_node :=
  cbn [mw inbox sentFiles failures env appState negb fst snd clock reads andb
       String.length Nat.eqb fsErr fsCalls fsCount timeText].

(** A due message not sent yet, whose file has a body and is read
    without error, sent successfully by the modem: the failure entry of
    its ID is cleared and the state becomes the one [RememberSmsSend]
    computes; the file then moves from the inbox to the sent directory,
    or, when the operating system refuses the rename, stays in the inbox
    (the error is only logged). *)
Theorem processFile_sent_ok (cfg : Config) (absPath : string) (msg : Message)
  (n n1 : node) (body : string) (result : SendResult) (w2 : world) (c' : internalState) :
  MsgFromFileName absPath = inl msg ->
  IsDue (Id msg) n = (Ret true, n1) ->
  WasSentAlready (appState (mw n)) (Id msg) = false ->
  lookupFile (inbox n) (FileName msg) = Some body ->
  fsErr (env n) (fsCalls (env n)) = None ->
  fsErr (env n) (S (fsCalls (env n))) = None ->
  body <> EmptyString ->
  SendSms cfg body (mw n1) = (Ret result, w2) ->
  Success result = true ->
  RememberSmsSend cfg (clock w2 (reads w2)) (appState w2) (Id msg) = Some c' ->
  exists n', processFile cfg absPath n = (Ret tt, n')
    /\ failures n' = deleteFailure (failures n) (Id msg)
    /\ appState (mw n') = c' /\ tx (mw n') = tx w2
    /\ (fsErr (env n) (S (S (fsCalls (env n)))) = None ->
        inbox n' = removeFile (inbox n) (FileName msg)
        /\ sentFiles n' = (FileName msg, body) :: removeFile (sentFiles n) (FileName msg))
    /\ (forall e, fsErr (env n) (S (S (fsCalls (env n)))) = Some e ->
        inbox n' = inbox n /\ sentFiles n' = sentFiles n).
Proof.
  intros Hm Hd Hs Hl Ho Hr Hb Hsend Hok Hrem.
  pose proof (IsDue_frame _ _ _ _ Hd) as (Ei & Es & Ef & Ea & Et & Ex & Ep & Ev).
  unfold processFile. rewrite Hm. unfold nbind at 1. rewrite Hd.
  unfold_sched. red_node.
  rewrite Ea, Hs. red_node.
  rewrite Ev, Ei, Hl, Ho. red_node.
  rewrite Hr. red_node. rewrite (length_nonempty body Hb). red_node. rewrite Hsend. red_node.
  rewrite Hok. red_node.
  rewrite Hrem. red_node.
  rewrite ?Ei, Hl.
  destruct (fsErr (env n) (S (S (fsCalls (env n))))) as [e|] eqn:Ee; red_node;
    (eexists; split; [reflexivity|]); cbn; rewrite ?Ei, ?Es, ?Ef;
    (split; [reflexivity|]); (split; [reflexivity|]); (split; [reflexivity|]);
    (split; [intros He | intros e' He']); try discriminate; auto.
Qed.

Lemma processFile_sent_ok_witness :
  let cfg := mkConfig None None false ["+4912345"] "1234" [] false false in
  let n := mkNode (mkWorld (mkState [] (Some 8) [9] 11 None) true []
                     [XLines ["+CPIN: READY"; "OK"]; XLines ["OK"]; XLines ["> "];
                      XLines ["+CMGS: 1"; "OK"]] [] (fun _ => 1000) 0)
             [("9_100", "hello")] [] [] noFaults in
  let msg := mkMessage 9 "inbox/9_100" "9_100" 100 in
  let result := mkSendResult true MODEM_ERR_NONE "success" in
  let w2 := snd (SendSms cfg "hello" (mw n)) in
  let c' := mkState [1000] (Some 9) [] 11 None in
  (MsgFromFileName "inbox/9_100" = inl msg
   /\ IsDue (Id msg) n = (Ret true, n)
   /\ WasSentAlready (appState (mw n)) (Id msg) = false
   /\ lookupFile (inbox n) (FileName msg) = Some "hello"
   /\ fsErr (env n) (fsCalls (env n)) = None
   /\ fsErr (env n) (S (fsCalls (env n))) = None
   /\ "hello" <> EmptyString
   /\ SendSms cfg "hello" (mw n) = (Ret result, w2)
   /\ Success result = true
   /\ RememberSmsSend cfg (clock w2 (reads w2)) (appState w2) (Id msg) = Some c')
  /\ exists n', processFile cfg "inbox/9_100" n = (Ret tt, n')
    /\ failures n' = deleteFailure (failures n) (Id msg)
    /\ appState (mw n') = c' /\ tx (mw n') = tx w2
    /\ (fsErr (env n) (S (S (fsCalls (env n)))) = None ->
        inbox n' = removeFile (inbox n) (FileName msg)
        /\ sentFiles n' = (FileName msg, "hello") :: removeFile (sentFiles n) (FileName msg))
    /\ (forall e, fsErr (env n) (S (S (fsCalls (env n)))) = Some e ->
        inbox n' = inbox n /\ sentFiles n' = sentFiles n).
Proof.
  intros cfg n msg result w2 c'.
  assert (H1 : MsgFromFileName "inbox/9_100" = inl msg) by (vm_compute; reflexivity).
  assert (H2 : IsDue (Id msg) n = (Ret true, n)) by (vm_compute; reflexivity).
  assert (H3 : WasSentAlready (appState (mw n)) (Id msg) = false) by (vm_compute; reflexivity).
  assert (H4 : lookupFile (inbox n) (FileName msg) = Some "hello") by (vm_compute; reflexivity).
  assert (H4a : fsErr (env n) (fsCalls (env n)) = None) by reflexivity.
  assert (H4b : fsErr (env n) (S (fsCalls (env n))) = None) by reflexivity.
  assert (H5 : "hello" <> EmptyString) by discriminate.
  assert (H6 : SendSms cfg "hello" (mw n) = (Ret result, w2)) by (vm_compute; reflexivity).
  assert (H7 : Success result = true) by reflexivity.
  assert (H8 : RememberSmsSend cfg (clock w2 (reads w2)) (appState w2) (Id msg) = Some c')
    by (vm_compute; reflexivity).
  split; [repeat split; assumption|].
  exact (processFile_sent_ok cfg _ msg n n _ result w2 c' H1 H2 H3 H4 H4a H4b H5 H6 H7 H8).
Defined.

(** A due message not sent yet, whose file is read without error, and
    whose send fails for a reason other than the rate limit: the file
    stays in the inbox, nothing is moved to the sent directory, and
    [DeliveryFailed] records the failure at the time read after the
    send. *)
Theorem processFile_send_failed (cfg : Config) (absPath : string) (msg : Message)
  (n n1 : node) (body : string) (result : SendResult) (w2 : world) :
  MsgFromFileName absPath = inl msg ->
  IsDue (Id msg) n = (Ret true, n1) ->
  WasSentAlready (appState (mw n)) (Id msg) = false ->
  lookupFile (inbox n) (FileName msg) = Some body ->
  fsErr (env n) (fsCalls (env n)) = None ->
  fsErr (env n) (S (fsCalls (env n))) = None ->
  body <> EmptyString ->
  SendSms cfg body (mw n1) = (Ret result, w2) ->
  Success result = false ->
  FailureReason_eqb (Reason result) MODEM_ERR_RATE_LIMIT_EXCEEDED = false ->
  exists n', processFile cfg absPath n = (Ret tt, n')
    /\ inbox n' = inbox n /\ sentFiles n' = sentFiles n
    /\ failures n' = failedAt (failures n) (Id msg) (clock w2 (reads w2))
    /\ appState (mw n') = appState w2 /\ tx (mw n') = tx w2.
Proof.
  intros Hm Hd Hs Hl Ho Hr Hb Hsend Hok Hrr.
  pose proof (IsDue_frame _ _ _ _ Hd) as (Ei & Es & Ef & Ea & Et & Ex & Ep & Ev).
  unfold processFile. rewrite Hm. unfold nbind at 1. rewrite Hd.
  unfold_sched. red_node.
  rewrite Ea, Hs. red_node.
  rewrite Ev, Ei, Hl, Ho. red_node.
  rewrite Hr. red_node. rewrite (length_nonempty body Hb). red_node. rewrite Hsend. red_node.
  rewrite Hok, Hrr. red_node.
  eexists. split; [reflexivity|]. cbn. rewrite ?Ei, ?Es, ?Ef. auto.
Qed.

Lemma processFile_send_failed_witness :
  let cfg := mkConfig None None false ["+4912345"] "1234" [] false false in
  let n := mkNode (mkWorld (mkState [] (Some 8) [9] 11 None) true []
                     [XLines ["+CPIN: READY"; "OK"]; XLines ["OK"]; XLines ["ERROR"]]
                     [] (fun _ => 1000) 0)
             [("9_100", "hello")] [] [] noFaults in
  let msg := mkMessage 9 "inbox/9_100" "9_100" 100 in
  let result := mkSendResult false MODEM_ERR_MODEM_ERROR
                  "Unrecognized modem response, expected '>'" in
  let w2 := snd (SendSms cfg "hello" (mw n)) in
  (MsgFromFileName "inbox/9_100" = inl msg
   /\ IsDue (Id msg) n = (Ret true, n)
   /\ WasSentAlready (appState (mw n)) (Id msg) = false
   /\ lookupFile (inbox n) (FileName msg) = Some "hello"
   /\ fsErr (env n) (fsCalls (env n)) = None
   /\ fsErr (env n) (S (fsCalls (env n))) = None
   /\ "hello" <> EmptyString
   /\ SendSms cfg "hello" (mw n) = (Ret result, w2)
   /\ Success result = false
   /\ FailureReason_eqb (Reason result) MODEM_ERR_RATE_LIMIT_EXCEEDED = false)
  /\ exists n', processFile cfg "inbox/9_100" n = (Ret tt, n')
    /\ inbox n' = inbox n /\ sentFiles n' = sentFiles n
    /\ failures n' = failedAt (failures n) (Id msg) (clock w2 (reads w2))
    /\ appState (mw n') = appState w2 /\ tx (mw n') = tx w2.
Proof.
  intros cfg n msg result w2.
  assert (H1 : MsgFromFileName "inbox/9_100" = inl msg) by (vm_compute; reflexivity).
  assert (H2 : IsDue (Id msg) n = (Ret true, n)) by (vm_compute; reflexivity).
  assert (H3 : WasSentAlready (appState (mw n)) (Id msg) = false) by (vm_compute; reflexivity).
  assert (H4 : lookupFile (inbox n) (FileName msg) = Some "hello") by (vm_compute; reflexivity).
  assert (H4a : fsErr (env n) (fsCalls (env n)) = None) by reflexivity.
  assert (H4b : fsErr (env n) (S (fsCalls (env n))) = None) by reflexivity.
  assert (H5 : "hello" <> EmptyString) by discriminate.
  assert (H6 : SendSms cfg "hello" (mw n) = (Ret result, w2)) by (vm_compute; reflexivity).
  assert (H7 : Success result = false) by reflexivity.
  assert (H8 : FailureReason_eqb (Reason result) MODEM_ERR_RATE_LIMIT_EXCEEDED = false)
    by reflexivity.
  split; [repeat split; assumption|].
  exact (processFile_send_failed cfg _ msg n n _ result w2 H1 H2 H3 H4 H4a H4b H5 H6 H7 H8).
Defined.

(** A due message not sent yet whose inbox file cannot be opened: the
    modem is not used, the file stays where it is, and [DeliveryFailed]
    records the failure at the time read right after, so the file is
    tried again after the back-off. *)
Theorem processFile_open_error (cfg : Config) (absPath : string) (msg : Message)
  (n n1 : node) (e : string) :
  MsgFromFileName absPath = inl msg ->
  IsDue (Id msg) n = (Ret true, n1) ->
  WasSentAlready (appState (mw n)) (Id msg) = false ->
  lookupFile (inbox n) (FileName msg) <> None ->
  fsErr (env n) (fsCalls (env n)) = Some e ->
  exists n', processFile cfg absPath n = (Ret tt, n')
    /\ inbox n' = inbox n /\ sentFiles n' = sentFiles n
    /\ failures n' = failedAt (failures n) (Id msg) (clock (mw n1) (reads (mw n1)))
    /\ appState (mw n') = appState (mw n) /\ tx (mw n') = tx (mw n)
    /\ exchanges (mw n') = exchanges (mw n).
Proof.
  intros Hm Hd Hs Hl He.
  pose proof (IsDue_frame _ _ _ _ Hd) as (Ei & Es & Ef & Ea & Et & Ex & Ep & Ev).
  unfold processFile. rewrite Hm. unfold nbind at 1. rewrite Hd.
  unfold_sched. red_node.
  rewrite Ea, Hs. red_node.
  rewrite Ev, Ei. destruct (lookupFile (inbox n) (FileName msg)) as [c|]; [|congruence].
  rewrite He. red_node.
  eexists. split; [reflexivity|]. cbn. rewrite ?Ei, ?Es, ?Ef, ?Ea, ?Et, ?Ex. repeat split.
Qed.

Lemma processFile_open_error_witness :
  let cfg := mkConfig None None false ["+4912345"] "1234" [] false false in
  let n := mkNode (mkWorld (mkState [] (Some 8) [9] 11 None) true [] [] [] (fun _ => 1000) 0)
             [("9_100", "hello")] [] []
             (mkOs (fun _ => Some "open inbox/9_100: permission denied") (fun _ => None)
                (fun _ => "") 0) in
  let msg := mkMessage 9 "inbox/9_100" "9_100" 100 in
  (MsgFromFileName "inbox/9_100" = inl msg
   /\ IsDue (Id msg) n = (Ret true, n)
   /\ WasSentAlready (appState (mw n)) (Id msg) = false
   /\ lookupFile (inbox n) (FileName msg) <> None
   /\ fsErr (env n) (fsCalls (env n)) = Some "open inbox/9_100: permission denied")
  /\ exists n', processFile cfg "inbox/9_100" n = (Ret tt, n')
    /\ inbox n' = inbox n /\ sentFiles n' = sentFiles n
    /\ failures n' = failedAt (failures n) (Id msg) (clock (mw n) (reads (mw n)))
    /\ appState (mw n') = appState (mw n) /\ tx (mw n') = tx (mw n)
    /\ exchanges (mw n') = exchanges (mw n).
Proof.
  intros cfg n msg.
  assert (H1 : MsgFromFileName "inbox/9_100" = inl msg) by (vm_compute; reflexivity).
  assert (H2 : IsDue (Id msg) n = (Ret true, n)) by (vm_compute; reflexivity).
  assert (H3 : WasSentAlready (appState (mw n)) (Id msg) = false) by (vm_compute; reflexivity).
  assert (H4 : lookupFile (inbox n) (FileName msg) <> None) by (vm_compute; discriminate).
  assert (H5 : fsErr (env n) (fsCalls (env n)) = Some "open inbox/9_100: permission denied")
    by reflexivity.
  split; [repeat split; assumption|].
  exact (processFile_open_error cfg _ msg n n _ H1 H2 H3 H4 H5).
Defined.

(** [sendMessage] on a send refused by the rate limit, the file read
    without error: it reports [(true, "Rate limit exceeded")], never
    moves the file to the sent directory and leaves the failure map
    alone; it deletes the inbox file only when [IsDropOnRateLimit] is set
    and the operating system carries out the [os.Remove]. *)
Theorem sendMessage_rate_limited (cfg : Config) (msg : Message) (n : node)
  (body : string) (result : SendResult) (w2 : world) :
  WasSentAlready (appState (mw n)) (Id msg) = false ->
  lookupFile (inbox n) (FileName msg) = Some body ->
  fsErr (env n) (fsCalls (env n)) = None ->
  fsErr (env n) (S (fsCalls (env n))) = None ->
  body <> EmptyString ->
  SendSms cfg body (mw n) = (Ret result, w2) ->
  Success result = false ->
  FailureReason_eqb (Reason result) MODEM_ERR_RATE_LIMIT_EXCEEDED = true ->
  exists n', sendMessage cfg msg n = (Ret (true, Some "Rate limit exceeded"), n')
    /\ mw n' = w2
    /\ inbox n' = (if IsDropOnRateLimit cfg then
                     match fsErr (env n) (S (S (fsCalls (env n)))) with
                     | None => removeFile (inbox n) (FileName msg)
                     | Some _ => inbox n
                     end
                   else inbox n)
    /\ sentFiles n' = sentFiles n /\ failures n' = failures n.
Proof.
  intros Hs Hl Ho Hr Hb Hsend Hok Hrr.
  unfold_sched. red_node.
  rewrite Hs. red_node.
  rewrite Hl, Ho. red_node.
  rewrite Hr. red_node. rewrite (length_nonempty body Hb). red_node. rewrite Hsend. red_node.
  rewrite Hok, Hrr. red_node.
  destruct (IsDropOnRateLimit cfg); red_node;
    [rewrite Hl; destruct (fsErr (env n) (S (S (fsCalls (env n))))); red_node|];
    eexists; (split; [reflexivity|]); cbn; auto.
Qed.

Lemma sendMessage_rate_limited_witness :
  let cfg := mkConfig (Some (Util.mkRateLimit 0 (Util.mkInterval 1 Util.Hours))) None true ["+4912345"] "1234" []
               false false in
  let n := mkNode (mkWorld (mkState [990] (Some 8) [9] 11 None) true []
                     [XLines ["+CPIN: READY"; "OK"]; XLines ["OK"]] [] (fun _ => 1000) 0)
             [("9_100", "hello")] [] [] noFaults in
  let msg := mkMessage 9 "inbox/9_100" "9_100" 100 in
  let result := mkSendResult false MODEM_ERR_RATE_LIMIT_EXCEEDED "Rate limit exceeded" in
  let w2 := snd (SendSms cfg "hello" (mw n)) in
  (WasSentAlready (appState (mw n)) (Id msg) = false
   /\ lookupFile (inbox n) (FileName msg) = Some "hello"
   /\ fsErr (env n) (fsCalls (env n)) = None
   /\ fsErr (env n) (S (fsCalls (env n))) = None
   /\ "hello" <> EmptyString
   /\ SendSms cfg "hello" (mw n) = (Ret result, w2)
   /\ Success result = false
   /\ FailureReason_eqb (Reason result) MODEM_ERR_RATE_LIMIT_EXCEEDED = true)
  /\ exists n', sendMessage cfg msg n = (Ret (true, Some "Rate limit exceeded"), n')
    /\ mw n' = w2
    /\ inbox n' = (if IsDropOnRateLimit cfg then
                     match fsErr (env n) (S (S (fsCalls (env n)))) with
                     | None => removeFile (inbox n) (FileName msg)
                     | Some _ => inbox n
                     end
                   else inbox n)
    /\ sentFiles n' = sentFiles n /\ failures n' = failures n.
Proof.
  intros cfg n msg result w2.
  assert (H1 : WasSentAlready (appState (mw n)) (Id msg) = false) by (vm_compute; reflexivity).
  assert (H2 : lookupFile (inbox n) (FileName msg) = Some "hello") by (vm_compute; reflexivity).
  assert (H2a : fsErr (env n) (fsCalls (env n)) = None) by reflexivity.
  assert (H2b : fsErr (env n) (S (fsCalls (env n))) = None) by reflexivity.
  assert (H3 : "hello" <> EmptyString) by discriminate.
  assert (H4 : SendSms cfg "hello" (mw n) = (Ret result, w2)) by (vm_compute; reflexivity).
  assert (H5 : Success result = false) by reflexivity.
  assert (H6 : FailureReason_eqb (Reason result) MODEM_ERR_RATE_LIMIT_EXCEEDED = true)
    by reflexivity.
  split; [repeat split; assumption|].
  exact (sendMessage_rate_limited cfg msg n _ result w2 H1 H2 H2a H2b H3 H4 H5 H6).
Defined.

(** An empty inbox file of a due message not sent yet is handled without
    the modem: [os.Remove] deletes it (when the operating system refuses,
    the error is only logged and the file stays), and the delivery
    counts as successful, which clears the failure entry of its ID. *)
Theorem processFile_empty_file (cfg : Config) (absPath : string) (msg : Message)
  (n n1 : node) :
  MsgFromFileName absPath = inl msg ->
  IsDue (Id msg) n = (Ret true, n1) ->
  WasSentAlready (appState (mw n)) (Id msg) = false ->
  lookupFile (inbox n) (FileName msg) = Some EmptyString ->
  fsErr (env n) (fsCalls (env n)) = None ->
  fsErr (env n) (S (fsCalls (env n))) = None ->
  exists n', processFile cfg absPath n = (Ret tt, n')
    /\ mw n' = mw n1
    /\ inbox n' = match fsErr (env n) (S (S (fsCalls (env n)))) with
                  | None => removeFile (inbox n) (FileName msg)
                  | Some _ => inbox n
                  end
    /\ sentFiles n' = sentFiles n
    /\ failures n' = deleteFailure (failures n) (Id msg).
Proof.
  intros Hm Hd Hs Hl Ho Hr.
  pose proof (IsDue_frame _ _ _ _ Hd) as (Ei & Es & Ef & Ea & Et & Ex & Ep & Ev).
  unfold processFile. rewrite Hm. unfold nbind at 1. rewrite Hd.
  unfold_sched. red_node.
  rewrite Ea, Hs. red_node.
  rewrite Ev, Ei, Hl, Ho. red_node.
  rewrite Hr. red_node. rewrite ?Ei, Hl.
  destruct (fsErr (env n) (S (S (fsCalls (env n))))); red_node;
    eexists; (split; [reflexivity|]); cbn; rewrite ?Ei, ?Es, ?Ef; auto.
Qed.

Lemma processFile_empty_file_witness :
  let cfg := mkConfig None None false ["+4912345"] "1234" [] false false in
  let n := mkNode (mkWorld (mkState [] (Some 8) [9] 11 None) true [] [] [] (fun _ => 5000) 0)
             [("9_100", "")] [] [(9, mkFailure 2 1000)] noFaults in
  let msg := mkMessage 9 "inbox/9_100" "9_100" 100 in
  let n1 := snd (IsDue 9 n) in
  (MsgFromFileName "inbox/9_100" = inl msg
   /\ IsDue (Id msg) n = (Ret true, n1)
   /\ WasSentAlready (appState (mw n)) (Id msg) = false
   /\ lookupFile (inbox n) (FileName msg) = Some EmptyString
   /\ fsErr (env n) (fsCalls (env n)) = None
   /\ fsErr (env n) (S (fsCalls (env n))) = None)
  /\ exists n', processFile cfg "inbox/9_100" n = (Ret tt, n')
    /\ mw n' = mw n1
    /\ inbox n' = match fsErr (env n) (S (S (fsCalls (env n)))) with
                  | None => removeFile (inbox n) (FileName msg)
                  | Some _ => inbox n
                  end
    /\ sentFiles n' = sentFiles n
    /\ failures n' = deleteFailure (failures n) (Id msg).
Proof.
  intros cfg n msg n1.
  assert (H1 : MsgFromFileName "inbox/9_100" = inl msg) by (vm_compute; reflexivity).
  assert (H2 : IsDue (Id msg) n = (Ret true, n1)) by (vm_compute; reflexivity).
  assert (H3 : WasSentAlready (appState (mw n)) (Id msg) = false) by (vm_compute; reflexivity).
  assert (H4 : lookupFile (inbox n) (FileName msg) = Some EmptyString)
    by (vm_compute; reflexivity).
  assert (H5 : fsErr (env n) (fsCalls (env n)) = None) by reflexivity.
  assert (H6 : fsErr (env n) (S (fsCalls (env n))) = None) by reflexivity.
  split; [repeat split; assumption|].
  exact (processFile_empty_file cfg _ msg n n1 H1 H2 H3 H4 H5 H6).
Defined.
End SchedulerExtraProofs.

Module KeepAliveProofs.
Import Message Util Config State Modem Scheduler MsgQueue KeepAlive MsgQueueProofs.
Local Open Scope Z_scope.

Ltac quiet_tail :=
  unfold lift, nowM, nret, nbind; cbn [mw appState clock reads fst snd];
  match goal with
  | |- context [IsShorterThan ?iv ?e] =>
      replace (IsShorterThan iv e) with false
        by (symmetry; unfold IsShorterThan; apply Z.ltb_ge; lia)
  end; reflexivity.

(** The keep-alive loop stays quiet while the last recorded send, or the
    last keep-alive enqueued, lies within the configured interval: the
    tick reads the clock once and changes nothing else, no message is
    queued. *)
Theorem keepAliveTick_quiet_within_interval (iv : TimeInterval) (m : string) (n : node)
  (t : Z) :
  GetLastSuccessfulSendTimestamp (appState (mw n)) = Some t
  \/ LastKeepAliveMsgEnqueued (appState (mw n)) = Some t ->
  clock (mw n) (reads (mw n)) - t <= ToSeconds iv ->
  keepAliveTick iv m n
  = (Ret tt, mkNode (withReads (S (reads (mw n))) (mw n)) (inbox n) (sentFiles n) (failures n)
                (env n)).
Proof.
  intros Ht Hle.
  unfold keepAliveTick, nbind at 1, getAppState. cbv beta.
  destruct (GetLastSuccessfulSendTimestamp (appState (mw n))) as [a|] eqn:Ea;
  destruct (LastKeepAliveMsgEnqueued (appState (mw n))) as [b|] eqn:Eb;
  destruct Ht as [Ht|Ht]; try discriminate; injection Ht as Ht; subst;
  try (match goal with
       | |- context [if ?x <? ?y then _ else _] =>
           destruct (x <? y) eqn:E; [apply Z.ltb_lt in E | apply Z.ltb_ge in E]
       end); quiet_tail.
Qed.

Lemma keepAliveTick_quiet_within_interval_witness :
  let iv := mkInterval 1 Hours in
  let n := mkNode (mkWorld (mkState [900] (Some 8) [] 11 (Some 2000)) false [] [] []
                     (fun _ => 4000) 0) [] [] [] noFaults in
  (GetLastSuccessfulSendTimestamp (appState (mw n)) = Some 2000
   \/ LastKeepAliveMsgEnqueued (appState (mw n)) = Some 2000)
  /\ clock (mw n) (reads (mw n)) - 2000 <= ToSeconds iv
  /\ keepAliveTick iv "ping" n
     = (Ret tt, mkNode (withReads (S (reads (mw n))) (mw n)) (inbox n) (sentFiles n)
                  (failures n) (env n)).
Proof.
  intros iv n.
  assert (H1 : GetLastSuccessfulSendTimestamp (appState (mw n)) = Some 2000
               \/ LastKeepAliveMsgEnqueued (appState (mw n)) = Some 2000)
    by (right; reflexivity).
  assert (H2 : clock (mw n) (reads (mw n)) - 2000 <= ToSeconds iv) by (vm_compute; discriminate).
  split; [exact H1 | split; [exact H2 | exact (keepAliveTick_quiet_within_interval iv "ping" n 2000 H1 H2)]].
Defined.

Ltac loud_tail H Hok :=
  unfold lift, nowM, nret, nbind at 1; cbn [mw appState clock reads fst snd];
  match goal with
  | |- context [IsShorterThan ?iv (?now - ?L)] =>
      replace (IsShorterThan iv (now - L)) with true
        by (symmetry; unfold IsShorterThan; apply Z.ltb_lt, H;
            first [left; reflexivity | right; reflexivity])
  end;
  unfold nbind at 1; rewrite NewMessageIdM_eq; cbv beta iota;
  unfold nbind at 1; rewrite StoreMessage_ok by exact Hok;
  unfold setAppState, getAppState, lift, nowM, nbind, nret;
  cbn [mw inbox sentFiles failures appState clock reads serialPortOpen opens exchanges tx env
       NewMessageId withReads fst snd SetLastKeepAliveMessageEnqueued];
  eexists; split; [reflexivity|];
  cbn [mw inbox sentFiles failures appState clock reads tx PendingMessageIds NextMessageId
       Timestamps LastKeepAliveMsgEnqueued withReads SetLastKeepAliveMessageEnqueued];
  rewrite lookupFile_cons_same;
  repeat split.

(** A keep-alive is queued once the interval has passed since both the
    last recorded send and the last keep-alive (at least one of them
    existing): the tick takes the next message ID, which becomes pending,
    leaves an inbox file named [<id>_<time>] holding the keep-alive text
    (when the file system calls of [StoreMessage] succeed), and records the time read after the store as the last keep-alive
    enqueued; the send timestamps, the sent directory and the serial port
    are untouched. *)
Theorem keepAliveTick_enqueues (iv : TimeInterval) (m : string) (n : node) :
  GetLastSuccessfulSendTimestamp (appState (mw n)) <> None
  \/ LastKeepAliveMsgEnqueued (appState (mw n)) <> None ->
  (forall t, GetLastSuccessfulSendTimestamp (appState (mw n)) = Some t
             \/ LastKeepAliveMsgEnqueued (appState (mw n)) = Some t ->
             ToSeconds iv < clock (mw n) (reads (mw n)) - t) ->
  storeSucceeds m (env n) ->
  let c := appState (mw n) in
  let id := NextMessageId c in
  let name := ToFileName (mkMessage id "" "" (clock (mw n) (S (reads (mw n))))) in
  exists n', keepAliveTick iv m n = (Ret tt, n')
    /\ lookupFile (inbox n') name = Some m
    /\ PendingMessageIds (appState (mw n')) = (PendingMessageIds c ++ [id])%list
    /\ NextMessageId (appState (mw n')) = NextId id
    /\ Timestamps (appState (mw n')) = Timestamps c
    /\ LastKeepAliveMsgEnqueued (appState (mw n'))
       = Some (clock (mw n) (S (S (reads (mw n)))))
    /\ sentFiles n' = sentFiles n /\ tx (mw n') = tx (mw n).
Proof.
  intros Hex H Hok c id name. unfold name, id, c. clear name id c.
  unfold keepAliveTick, nbind at 1, getAppState. cbv beta.
  destruct (GetLastSuccessfulSendTimestamp (appState (mw n))) as [a|] eqn:Ea;
  destruct (LastKeepAliveMsgEnqueued (appState (mw n))) as [b|] eqn:Eb;
  [| | |destruct Hex as [Hex|Hex]; exfalso; apply Hex; reflexivity];
  try (match goal with
       | |- context [if ?x <? ?y then _ else _] => destruct (x <? y)
       end); loud_tail H Hok.
Qed.

Lemma keepAliveTick_enqueues_witness :
  let iv := mkInterval 1 Hours in
  let n := mkNode (mkWorld (mkState [900] (Some 8) [] 11 (Some 100)) false [] [] []
                     (fun i => 5000 + Z.of_nat i) 0) [] [] [] noFaults in
  (GetLastSuccessfulSendTimestamp (appState (mw n)) <> None
   \/ LastKeepAliveMsgEnqueued (appState (mw n)) <> None)
  /\ (forall t, GetLastSuccessfulSendTimestamp (appState (mw n)) = Some t
                \/ LastKeepAliveMsgEnqueued (appState (mw n)) = Some t ->
                ToSeconds iv < clock (mw n) (reads (mw n)) - t)
  /\ storeSucceeds "ping" (env n)
  /\ (let c := appState (mw n) in
      let id := NextMessageId c in
      let name := ToFileName (mkMessage id "" "" (clock (mw n) (S (reads (mw n))))) in
      exists n', keepAliveTick iv "ping" n = (Ret tt, n')
        /\ lookupFile (inbox n') name = Some "ping"
        /\ PendingMessageIds (appState (mw n')) = (PendingMessageIds c ++ [id])%list
        /\ NextMessageId (appState (mw n')) = NextId id
        /\ Timestamps (appState (mw n')) = Timestamps c
        /\ LastKeepAliveMsgEnqueued (appState (mw n'))
           = Some (clock (mw n) (S (S (reads (mw n)))))
        /\ sentFiles n' = sentFiles n /\ tx (mw n') = tx (mw n)).
Proof.
  intros iv n.
  assert (H1 : GetLastSuccessfulSendTimestamp (appState (mw n)) <> None
               \/ LastKeepAliveMsgEnqueued (appState (mw n)) <> None)
    by (left; discriminate).
  assert (H2 : forall t, GetLastSuccessfulSendTimestamp (appState (mw n)) = Some t
                         \/ LastKeepAliveMsgEnqueued (appState (mw n)) = Some t ->
                         ToSeconds iv < clock (mw n) (reads (mw n)) - t).
  { intros t [Ht|Ht]; vm_compute in Ht; injection Ht as <-; vm_compute; reflexivity. }
  assert (H3 : storeSucceeds "ping" (env n))
    by (split; [intros i _; reflexivity | intros k Hk; discriminate]).
  split; [exact H1 | split; [exact H2 | split; [exact H3 |
    exact (keepAliveTick_enqueues iv "ping" n H1 H2 H3)]]].
Defined.
End KeepAliveProofs.

Module StoreFailureProofs.
Import Message Util Config State Modem Scheduler MsgQueue KeepAlive MsgQueueProofs.
Local Open Scope Z_scope.

(** One of the four file system calls of [StoreMessage] (create, write,
    close, rename) fails, or the write takes fewer bytes than the text
    has. *)
Definition storeFails (text : string) (e : osEnv) : Prop :=
  (exists i, (i < 4)%nat /\ fsErr e (fsCalls e + i) <> None)
  \/ (exists m, fsCount e (S (fsCalls e)) = Some m /\ (m < String.length text)%nat).

Lemma substring_length_prefix (s : string) (m : nat) :
  (m <= String.length s)%nat -> String.length (substring 0 m s) = m.
Proof.
  revert m. induction s as [|a s IH]; intros [|m] Hm; cbn in Hm |- *; try reflexivity; [lia|].
  rewrite IH by lia. reflexivity.
Qed.

Ltac inbox_frame :=
  let other := fresh "other" in
  let Ho := fresh "Ho" in
  intros other Ho;
  repeat first [ rewrite lookupFile_cons_other by congruence
               | rewrite lookupFile_removeFile_other by congruence ];
  reflexivity.

Ltac red_store :=
  cbn [mw inbox sentFiles failures env fsErr fsCount fsCalls timeText withCalls fst snd negb].

(** A failing [StoreMessage] returns an error text; it reads the clock
    once and changes no file other than the temporary one, which it may
    leave behind holding part of the text. *)
Lemma StoreMessage_fails (id : MessageId) (text : string) (n : node) :
  storeFails text (env n) ->
  exists e n', StoreMessage id text n = (Ret (Some e), n')
    /\ mw n' = withReads (S (reads (mw n))) (mw n)
    /\ sentFiles n' = sentFiles n /\ failures n' = failures n
    /\ (forall other,
          other <> ToFileName (mkMessage id "" "" (clock (mw n) (reads (mw n)))) ++ ".tmp" ->
          lookupFile (inbox n') other = lookupFile (inbox n) other).
Proof.
  intros Hf.
  cbv beta iota zeta delta [StoreMessage nbind nret timeNow createInboxFile writeInboxFile
    closeFile renameInInbox fsCall withFiles].
  red_store.
  destruct (fsErr (env n) (fsCalls (env n))) as [e0|] eqn:E0; red_store.
  { do 2 eexists; split; [reflexivity|]. red_store. split; [reflexivity|].
    split; [reflexivity|]. split; [reflexivity|]. intros; reflexivity. }
  destruct (fsErr (env n) (S (fsCalls (env n)))) as [e1|] eqn:E1; red_store.
  { do 2 eexists; split; [reflexivity|]. red_store. split; [reflexivity|].
    split; [reflexivity|]. split; [reflexivity|]. inbox_frame. }
  destruct (Nat.eqb
              (String.length match fsCount (env n) (S (fsCalls (env n))) with
                             | Some m => substring 0 m text
                             | None => text
                             end) (String.length text)) eqn:El; red_store.
  2: { do 2 eexists; split; [reflexivity|]. red_store. split; [reflexivity|].
       split; [reflexivity|]. split; [reflexivity|]. inbox_frame. }
  destruct (fsErr (env n) (S (S (fsCalls (env n))))) as [e2|] eqn:E2; red_store.
  { do 2 eexists; split; [reflexivity|]. red_store. split; [reflexivity|].
    split; [reflexivity|]. split; [reflexivity|]. inbox_frame. }
  rewrite lookupFile_cons_same.
  destruct (fsErr (env n) (S (S (S (fsCalls (env n)))))) as [e3|] eqn:E3; red_store.
  { do 2 eexists; split; [reflexivity|]. red_store. split; [reflexivity|].
    split; [reflexivity|]. split; [reflexivity|]. inbox_frame. }
  exfalso. destruct Hf as [(i & Hi & He) | (m & Em & Hm)].
  - destruct i as [|[|[|[|i]]]]; [| | | | lia].
    + rewrite Nat.add_0_r in He. congruence.
    + replace (fsCalls (env n) + 1)%nat with (S (fsCalls (env n))) in He by lia. congruence.
    + replace (fsCalls (env n) + 2)%nat with (S (S (fsCalls (env n)))) in He by lia.
      congruence.
    + replace (fsCalls (env n) + 3)%nat with (S (S (S (fsCalls (env n))))) in He by lia.
      congruence.
  - rewrite Em in El. apply Nat.eqb_eq in El.
    rewrite substring_length_prefix in El by lia. lia.
Qed.

(** A non-blank request to [/sendsms] whose store fails (a file system
    call of [StoreMessage] fails or writes short) is answered with
    ["Failed to store message for sending: "] followed by the store's
    error; the message ID taken is discarded again, so the pending list
    is the one from before (when that ID was not pending already), while
    [NextMessageId] stays advanced; no file changes except the temporary
    one, which may be left behind, and nothing is written to the serial
    port. *)
Theorem sendSms_store_failure (text : string) (n : node) :
  String.eqb (TrimSpace text) "" = false ->
  ~ In (NextMessageId (appState (mw n))) (PendingMessageIds (appState (mw n))) ->
  storeFails text (env n) ->
  let c := appState (mw n) in
  let id := NextMessageId c in
  let tmp := ToFileName (mkMessage id "" "" (clock (mw n) (reads (mw n)))) ++ ".tmp" in
  exists e n', sendSms text n = (Ret (Some ("Failed to store message for sending: " ++ e)), n')
    /\ PendingMessageIds (appState (mw n')) = PendingMessageIds c
    /\ NextMessageId (appState (mw n')) = NextId id
    /\ (forall other, other <> tmp -> lookupFile (inbox n') other = lookupFile (inbox n) other)
    /\ sentFiles n' = sentFiles n /\ tx (mw n') = tx (mw n).
Proof.
  intros H Hp Hf c id tmp. unfold tmp, id, c. clear tmp id c.
  unfold sendSms. rewrite H.
  unfold nbind at 1. rewrite NewMessageIdM_eq. cbv beta iota.
  destruct (StoreMessage_fails (NextMessageId (appState (mw n))) text
              (snd (setAppState (snd (NewMessageId (appState (mw n)))) n)) Hf)
    as (e & n1 & Es & Hm & Hs & _ & Hi).
  unfold nbind at 1. rewrite Es. cbv beta iota.
  unfold getAppState, setAppState, nbind, nret.
  exists e. eexists. split; [reflexivity|].
  cbn [mw inbox sentFiles appState PendingMessageIds NextMessageId tx DiscardMessageId].
  rewrite Hm. cbn [withReads appState tx PendingMessageIds NextMessageId NewMessageId snd].
  split; [apply StateExtraProofs.deletePendingMessageId_app_last; exact Hp|].
  split; [reflexivity|].
  split; [|split; [exact Hs | reflexivity]].
  intros other Ho. rewrite (Hi other Ho). reflexivity.
Qed.

Lemma sendSms_store_failure_witness :
  let n := mkNode (mkWorld (mkState [] (Some 8) [] 11 None) false [] [] []
                     (fun _ => 1700000000) 0) [("9_100", "old")] [] []
             (mkOs (fun k => if Nat.eqb k 1 then Some "write failed: no space left on device"
                             else None) (fun _ => None) (fun _ => "") 0) in
  (String.eqb (TrimSpace "hello") "" = false
   /\ ~ In (NextMessageId (appState (mw n))) (PendingMessageIds (appState (mw n)))
   /\ storeFails "hello" (env n))
  /\ (let c := appState (mw n) in
      let id := NextMessageId c in
      let tmp := ToFileName (mkMessage id "" "" (clock (mw n) (reads (mw n)))) ++ ".tmp" in
      exists e n', sendSms "hello" n
                   = (Ret (Some ("Failed to store message for sending: " ++ e)), n')
        /\ PendingMessageIds (appState (mw n')) = PendingMessageIds c
        /\ NextMessageId (appState (mw n')) = NextId id
        /\ (forall other, other <> tmp ->
              lookupFile (inbox n') other = lookupFile (inbox n) other)
        /\ sentFiles n' = sentFiles n /\ tx (mw n') = tx (mw n)).
Proof.
  intros n.
  assert (H1 : String.eqb (TrimSpace "hello") "" = false) by (vm_compute; reflexivity).
  assert (H2 : ~ In (NextMessageId (appState (mw n))) (PendingMessageIds (appState (mw n))))
    by (cbn; intros []).
  assert (H3 : storeFails "hello" (env n))
    by (left; exists 1%nat; split; [lia | cbn; discriminate]).
  split; [split; [exact H1 | split; [exact H2 | exact H3]]|].
  exact (sendSms_store_failure "hello" n H1 H2 H3).
Defined.

(** When the interval has passed but the store of the keep-alive fails,
    the tick still takes the next message ID and leaves it pending (it is
    not discarded), [NextMessageId] moves on, and the last keep-alive
    enqueued keeps its old value, so the next tick tries again; the send
    timestamps, the sent directory and the serial port are untouched, and
    no file changes except the temporary one. *)
Theorem keepAliveTick_store_failure (iv : TimeInterval) (m : string) (n : node) :
  GetLastSuccessfulSendTimestamp (appState (mw n)) <> None
  \/ LastKeepAliveMsgEnqueued (appState (mw n)) <> None ->
  (forall t, GetLastSuccessfulSendTimestamp (appState (mw n)) = Some t
             \/ LastKeepAliveMsgEnqueued (appState (mw n)) = Some t ->
             ToSeconds iv < clock (mw n) (reads (mw n)) - t) ->
  storeFails m (env n) ->
  let c := appState (mw n) in
  let id := NextMessageId c in
  let tmp := ToFileName (mkMessage id "" "" (clock (mw n) (S (reads (mw n))))) ++ ".tmp" in
  exists n', keepAliveTick iv m n = (Ret tt, n')
    /\ PendingMessageIds (appState (mw n')) = (PendingMessageIds c ++ [id])%list
    /\ NextMessageId (appState (mw n')) = NextId id
    /\ LastKeepAliveMsgEnqueued (appState (mw n')) = LastKeepAliveMsgEnqueued c
    /\ Timestamps (appState (mw n')) = Timestamps c
    /\ (forall other, other <> tmp -> lookupFile (inbox n') other = lookupFile (inbox n) other)
    /\ sentFiles n' = sentFiles n /\ tx (mw n') = tx (mw n).
Proof.
  intros Hex H Hf c id tmp. unfold tmp, id, c. clear tmp id c.
  unfold keepAliveTick, nbind at 1, getAppState. cbv beta.
  destruct (GetLastSuccessfulSendTimestamp (appState (mw n))) as [a|] eqn:Ea;
  destruct (LastKeepAliveMsgEnqueued (appState (mw n))) as [b|] eqn:Eb;
  [| | |destruct Hex as [Hex|Hex]; exfalso; apply Hex; reflexivity];
  try (match goal with
       | |- context [if ?x <? ?y then _ else _] => destruct (x <? y)
       end);
  unfold lift, nowM, nret, nbind at 1; cbn [mw appState clock reads fst snd];
  (match goal with
   | |- context [IsShorterThan ?iv (?now - ?L)] =>
       replace (IsShorterThan iv (now - L)) with true
         by (symmetry; unfold IsShorterThan; apply Z.ltb_lt, H;
             first [left; reflexivity | right; reflexivity])
   end);
  unfold nbind at 1; rewrite NewMessageIdM_eq; cbv beta iota;
  unfold nbind at 1;
  (match goal with
   | |- context [StoreMessage ?i ?t ?nd] =>
       destruct (StoreMessage_fails i t nd Hf) as (e & n1 & Es & Hm & Hs & _ & Hi)
   end);
  rewrite Es; cbv beta iota; unfold nret;
  eexists; (split; [reflexivity|]);
  rewrite Hm; cbn [withReads appState tx mw sentFiles inbox setAppState snd NewMessageId
                   PendingMessageIds NextMessageId LastKeepAliveMsgEnqueued Timestamps];
  rewrite ?Eb;
  (split; [reflexivity|]); (split; [reflexivity|]); (split; [reflexivity|]);
  (split; [reflexivity|]);
  (split; [intros other Ho; rewrite (Hi other Ho); reflexivity|]);
  (split; [exact Hs | reflexivity]).
Qed.

Lemma keepAliveTick_store_failure_witness :
  let iv := mkInterval 1 Hours in
  let n := mkNode (mkWorld (mkState [900] (Some 8) [] 11 (Some 100)) false [] [] []
                     (fun i => 5000 + Z.of_nat i) 0) [] [] []
             (mkOs (fun k => if Nat.eqb k 0 then Some "open inbox: permission denied" else None)
                (fun _ => None) (fun _ => "") 0) in
  (GetLastSuccessfulSendTimestamp (appState (mw n)) <> None
   \/ LastKeepAliveMsgEnqueued (appState (mw n)) <> None)
  /\ (forall t, GetLastSuccessfulSendTimestamp (appState (mw n)) = Some t
                \/ LastKeepAliveMsgEnqueued (appState (mw n)) = Some t ->
                ToSeconds iv < clock (mw n) (reads (mw n)) - t)
  /\ storeFails "ping" (env n)
  /\ (let c := appState (mw n) in
      let id := NextMessageId c in
      let tmp := ToFileName (mkMessage id "" "" (clock (mw n) (S (reads (mw n))))) ++ ".tmp" in
      exists n', keepAliveTick iv "ping" n = (Ret tt, n')
        /\ PendingMessageIds (appState (mw n')) = (PendingMessageIds c ++ [id])%list
        /\ NextMessageId (appState (mw n')) = NextId id
        /\ LastKeepAliveMsgEnqueued (appState (mw n')) = LastKeepAliveMsgEnqueued c
        /\ Timestamps (appState (mw n')) = Timestamps c
        /\ (forall other, other <> tmp ->
              lookupFile (inbox n') other = lookupFile (inbox n) other)
        /\ sentFiles n' = sentFiles n /\ tx (mw n') = tx (mw n)).
Proof.
  intros iv n.
  assert (H1 : GetLastSuccessfulSendTimestamp (appState (mw n)) <> None
               \/ LastKeepAliveMsgEnqueued (appState (mw n)) <> None)
    by (left; discriminate).
  assert (H2 : forall t, GetLastSuccessfulSendTimestamp (appState (mw n)) = Some t
                         \/ LastKeepAliveMsgEnqueued (appState (mw n)) = Some t ->
                         ToSeconds iv < clock (mw n) (reads (mw n)) - t).
  { intros t [Ht|Ht]; vm_compute in Ht; injection Ht as <-; vm_compute; reflexivity. }
  assert (H3 : storeFails "ping" (env n))
    by (left; exists 0%nat; split; [lia | cbn; discriminate]).
  split; [exact H1 | split; [exact H2 | split; [exact H3 |
    exact (keepAliveTick_store_failure iv "ping" n H1 H2 H3)]]].
Defined.
End StoreFailureProofs.

Module TrimProofs.
Import Message Util Config State.
Local Open Scope Z_scope.

Lemma lastIndexBelow_some (cutoff : Z) (l : list Z) :
  (exists t, In t l /\ t < cutoff) -> exists i, lastIndexBelow cutoff l = Some i.
Proof.
  induction l as [|x l IH]; intros (t & Ht & Hlt); [destruct Ht|].
  cbn [lastIndexBelow].
  destruct (lastIndexBelow cutoff l) as [j|] eqn:E; [eexists; reflexivity|].
  destruct Ht as [->|Ht].
  - apply Z.ltb_lt in Hlt. rewrite Hlt. eexists; reflexivity.
  - destruct IH as [i Hi]; [exists t; auto | congruence].
Qed.

(** The trim of [RememberSmsSend] keeps [Timestamps[:newLen]], the
    oldest entries: as soon as one earlier timestamp is older than the
    cutoff, the list after the call is a prefix of the list before it, so
    the send just made is not recorded. *)
Theorem RememberSmsSend_trim_keeps_oldest (cfg : Config) (now : Z) (c : internalState)
  (msgId : MessageId) (c' : internalState) :
  RememberSmsSend cfg now c msgId = Some c' ->
  cutOffTimestamp cfg now <> -1 ->
  (exists t, In t (Timestamps c) /\ t < cutOffTimestamp cfg now) ->
  exists k, (k <= List.length (Timestamps c))%nat /\ Timestamps c' = firstn k (Timestamps c).
Proof.
  intros H Hc Hex.
  destruct (StateProofs.RememberSmsSend_shape _ _ _ _ _ H) as (_ & _ & Ht).
  rewrite Ht. apply Z.eqb_neq in Hc. rewrite Hc. unfold trimTimestamps.
  destruct (lastIndexBelow_some (cutOffTimestamp cfg now) (Timestamps c ++ [now])%list)
    as [i Hi].
  { destruct Hex as (t & Hin & Hlt). exists t. split; [apply in_or_app; left|]; assumption. }
  rewrite Hi. exists (List.length (Timestamps c) - i)%nat. split; [lia|].
  rewrite length_app. cbn [List.length].
  replace (List.length (Timestamps c) + 1 - (i + 1))%nat
    with (List.length (Timestamps c) - i)%nat by lia.
  rewrite firstn_app.
  replace (List.length (Timestamps c) - i - List.length (Timestamps c))%nat with 0%nat by lia.
  cbn [firstn]. apply app_nil_r.
Qed.

Lemma RememberSmsSend_trim_keeps_oldest_witness :
  let cfg := mkConfig (Some (mkRateLimit 5 (mkInterval 1 Hours))) None false [] "" []
               false false in
  let c := mkState [100] None [] 2 None in
  (RememberSmsSend cfg 10000 c 1 = Some (mkState [100] (Some 1) [] 2 None)
   /\ cutOffTimestamp cfg 10000 <> -1
   /\ (exists t, In t (Timestamps c) /\ t < cutOffTimestamp cfg 10000))
  /\ exists k, (k <= List.length (Timestamps c))%nat
       /\ Timestamps (mkState [100] (Some 1) [] 2 None) = firstn k (Timestamps c).
Proof.
  intros cfg c.
  assert (H1 : RememberSmsSend cfg 10000 c 1 = Some (mkState [100] (Some 1) [] 2 None))
    by (vm_compute; reflexivity).
  assert (H2 : cutOffTimestamp cfg 10000 <> -1) by (vm_compute; discriminate).
  assert (H3 : exists t, In t (Timestamps c) /\ t < cutOffTimestamp cfg 10000)
    by (exists 100; split; [left; reflexivity | vm_compute; reflexivity]).
  split; [repeat split; assumption|].
  exact (RememberSmsSend_trim_keeps_oldest cfg 10000 c 1 _ H1 H2 H3).
Defined.
End TrimProofs.

